(** * LM5148 equation extraction: a shallow embedding and its properties

    The development follows [lm5148_tool/export_lm5148_equations_to_excel.py]
    (normalisation, classification, ordering, context, deduplication and
    the numbering loop of [main]) and
    [lm5148_tool/lm5148_design_tool.py] ([extract_equation_images]).
    It goes on with the worksheet of [write_excel], [_clamp], the two
    quickstart fillers ([populate_quickstart_calculator.py],
    [quickstart_excel_com.py]) and the results workbook of
    [export_results_xlsx.py].

    Conventions of the embedding:
    - a Python [str] is the list of its code points ([pystr]);
    - a Python [int] is a [Z];
    - a finite Python [float] is the rational number it denotes, kept in
      lowest terms ([Qc]), so that [==] on floats is equality; NaN and
      the infinities are outside the model, page coordinates never are;
    - a [set] is a [gset], a [dict] a [gmap];
    - an operation that can raise returns an [option], or a [result]
      where the exception matters;
    - a workbook is the list of the calls made on its worksheet. *)

From Stdlib Require Import ZArith NArith QArith Qcanon Qround Lqa Bool Ascii String.
From Stdlib Require DecimalString DecimalZ DecimalPos.
From stdpp Require Import base option list sorting gmap.

Local Open Scope Z_scope.

(** ** Python strings *)

Abbreviation codepoint := N.
Abbreviation pystr := (list N).

(** An ASCII literal as a list of code points. *)
Definition lit (s : string) : pystr :=
  List.map N_of_ascii (list_ascii_of_string s).

Definition ch_space : N := 32%N.
Definition ch_hyphen : N := 45%N.
Definition ch_slash : N := 47%N.
Definition ch_equals : N := 61%N.
Definition ch_caret : N := 94%N.
(** U+2211, U+2212, U+221A, U+2248, U+2260, U+2264, U+2265 *)
Definition ch_sum : N := 8721%N.
Definition ch_minus : N := 8722%N.
Definition ch_sqrt : N := 8730%N.
Definition ch_approx : N := 8776%N.
Definition ch_neq : N := 8800%N.
Definition ch_le : N := 8804%N.
Definition ch_ge : N := 8805%N.

(** The code points [str.split()] and [str.strip()] treat as white
    space: U+0009..U+000D, U+001C..U+0020, U+0085, U+00A0, U+1680,
    U+2000..U+200A, U+2028, U+2029, U+202F, U+205F and U+3000. *)
Definition isspace (c : N) : bool :=
  (((9 <=? c) && (c <=? 13)) || ((28 <=? c) && (c <=? 32))
   || (c =? 133) || (c =? 160) || (c =? 5760)
   || ((8192 <=? c) && (c <=? 8202))
   || (c =? 8232) || (c =? 8233) || (c =? 8239) || (c =? 8287)
   || (c =? 12288))%N.

(** [cons_head c ws] puts [c] in front of the first word of [ws]. *)
Definition cons_head (c : N) (ws : list pystr) : list pystr :=
  match ws with
  | [] => [[c]]
  | w :: ws' => (c :: w) :: ws'
  end.

(** [text.split()]: the maximal runs of characters that are not white
    space, in order. *)
Fixpoint split (s : pystr) : list pystr :=
  match s with
  | [] => []
  | c :: s' =>
      if isspace c then split s'
      else match s' with
           | [] => [[c]]
           | d :: _ => if isspace d then [c] :: split s'
                       else cons_head c (split s')
           end
  end.

(** [sep.join(ws)] *)
Fixpoint join (sep : pystr) (ws : list pystr) : pystr :=
  match ws with
  | [] => []
  | [w] => w
  | w :: ws' => w ++ sep ++ join sep ws'
  end.

(** [s.replace(old, new)] for one-character [old] and [new]. *)
Definition replace (old new : N) (s : pystr) : pystr :=
  List.map (fun c => if (c =? old)%N then new else c) s.

Fixpoint lstrip (s : pystr) : pystr :=
  match s with
  | [] => []
  | c :: s' => if isspace c then lstrip s' else s
  end.

Fixpoint rstrip (s : pystr) : pystr :=
  match s with
  | [] => []
  | c :: s' =>
      match rstrip s' with
      | [] => if isspace c then [] else [c]
      | r => c :: r
      end
  end.

(** [s.strip()] *)
Definition strip (s : pystr) : pystr := rstrip (lstrip s).

(** [len(s)] *)
Definition len {A} (l : list A) : Z := Z.of_nat (length l).

(** ** [normalize_equation_text] *)

Definition normalize_equation_text (text : pystr) : pystr :=
  let t := join [ch_space] (split text) in
  let t := replace ch_minus ch_hyphen t in
  strip t.


Definition minus_to_hyphen (c : N) : N :=
  if (c =? ch_minus)%N then ch_hyphen else c.


(** A word: a non-empty string without white space. *)
Definition is_word (w : pystr) : Prop :=
  w <> [] /\ Forall (fun c => isspace c = false) w.


(** ** The classifier [looks_like_equation] *)

(** The alternatives of [_EQUATION_HINT_RE], each a single character. *)
Definition EQUATION_HINT : list N :=
  [ch_equals; ch_le; ch_ge; ch_approx; ch_neq; ch_slash; ch_sum; ch_sqrt;
   ch_caret].

(** The relational operators of the [require_equals] test. *)
Definition RELATIONAL : list N :=
  [ch_equals; ch_le; ch_ge; ch_approx; ch_neq].

(** The characters that exempt a long text from the prose filter. *)
Definition PROSE_EXEMPT : list N := [ch_equals; ch_slash; ch_sum; ch_sqrt].

(** ["c" in t] for a one-character string. *)
Definition contains (c : N) (t : pystr) : bool := existsb (N.eqb c) t.

(** [re.search] of an alternation of single characters. *)
Definition search_any (alts : list N) (t : pystr) : bool :=
  existsb (fun c => existsb (N.eqb c) alts) t.

(** [[A-Za-z]] *)
Definition is_ascii_letter (c : N) : bool :=
  (((65 <=? c) && (c <=? 90)) || ((97 <=? c) && (c <=? 122)))%N.

Definition is_ascii_digit (c : N) : bool := ((48 <=? c) && (c <=? 57))%N.

Section Classifier.

(** [\d] on a [str] pattern matches every Unicode decimal digit. The
    ASCII ones are fixed; which code points above U+007F are decimal
    digits depends on the Unicode tables of the interpreter and is a
    parameter. *)
Variable nd_beyond_ascii : N -> bool.

Definition re_digit (c : N) : bool := is_ascii_digit c || nd_beyond_ascii c.

Definition looks_like_equation
    (text : pystr) (min_len : Z) (require_equals : bool) : bool :=
  let t := normalize_equation_text text in
  if len t <? min_len then false else
  let has_math_hint := search_any EQUATION_HINT t in
  if negb has_math_hint then false else
  if require_equals && negb (contains ch_equals t) && negb (contains ch_le t)
     && negb (contains ch_ge t) && negb (contains ch_approx t)
     && negb (contains ch_neq t)
  then false else
  let words := split t in
  if (16 <=? len words)
     && negb (existsb (fun ch => contains ch t)
                [ch_equals; ch_slash; ch_sum; ch_sqrt])
  then false else
  let has_variable := existsb is_ascii_letter t in
  let has_number := existsb re_digit t in
  (has_variable && has_math_hint) && (has_number || contains ch_equals t).

End Classifier.


(** ** Coordinates, blocks and pages *)

(** A float literal, by the fraction it denotes. *)
Definition flt (num : Z) (den : positive) : Qc := Q2Qc (num # den).

(** [(x0, y0, x1, y1)], also a [fitz.Rect]. *)
Abbreviation BBox := (Qc * Qc * Qc * Qc)%type.

Definition rect_y0 (r : BBox) : Qc := r.1.1.2.
Definition rect_y1 (r : BBox) : Qc := r.2.

(** An entry of [page.get_text("blocks")]:
    [(x0, y0, x1, y1, text, block_no, block_type)]. *)
Record RawBlock := {
  rb_x0 : Qc; rb_y0 : Qc; rb_x1 : Qc; rb_y1 : Qc;
  rb_text : pystr; rb_no : Z; rb_type : Z
}.

(** The block dictionaries; [get] has a default for an absent key. *)
Record Block := {
  b_type : Z;
  b_bbox : option BBox;
  b_text : option pystr
}.

(** What the code uses of a [fitz.Page]: its size, its text blocks and
    [search_for]. *)
Record Page := {
  page_width : Qc;
  page_height : Qc;
  page_blocks : list RawBlock;
  search_for : pystr -> list BBox
}.

Definition is_empty {A} (l : list A) : bool :=
  match l with [] => true | _ => false end.

Definition extract_text_blocks (page : Page) : list Block :=
  List.flat_map
    (fun b =>
       if negb (rb_type b =? 0) then []
       else if is_empty (rb_text b) || is_empty (strip (rb_text b)) then []
       else [ {| b_type := 0;
                 b_bbox := Some (rb_x0 b, rb_y0 b, rb_x1 b, rb_y1 b);
                 b_text := Some (rb_text b) |} ])
    (page_blocks page).

Definition block_text (block : Block) : pystr := default [] (b_text block).

Definition block_bbox (block : Block) : BBox :=
  default (0%Qc, 0%Qc, 0%Qc, 0%Qc) (b_bbox block).

(** ** [sorted_blocks_by_position] *)

(** [k1 < k2] on pairs of floats, as tuples compare: the first
    components decide unless they are equal. *)
Definition key_lt (k1 k2 : Qc * Qc) : bool :=
  if decide (k1.1 = k2.1) then bool_decide (k1.2 < k2.2)%Qc
  else bool_decide (k1.1 < k2.1)%Qc.

(** [sorted(l, key=key)] is a stable sort that compares keys with [<]
    only; a stable insertion sort is its model. *)
Fixpoint insert_by {A K} (lt : K -> K -> bool) (key : A -> K)
    (x : A) (l : list A) : list A :=
  match l with
  | [] => [x]
  | y :: l' => if lt (key y) (key x) then y :: insert_by lt key x l'
               else x :: l
  end.

Definition py_sorted {A K} (lt : K -> K -> bool) (key : A -> K)
    (l : list A) : list A :=
  foldr (insert_by lt key) [] l.

(** [a] may stand before [b]: the key of [b] is not below that of [a]. *)
Definition in_order {A K} (lt : K -> K -> bool) (key : A -> K) (a b : A)
    : Prop :=
  lt (key b) (key a) = false.

Definition position_key (b : Block) : Qc * Qc :=
  let '(x0, y0, _, _) := block_bbox b in (y0, x0).

Definition sorted_blocks_by_position (blocks : list Block) : list Block :=
  py_sorted key_lt position_key blocks.

(** The order of the contract on keys [(y0, x0)]: by [y0], then by
    [x0]. *)
Definition position_le (k1 k2 : Qc * Qc) : Prop :=
  (k1.1 < k2.1)%Qc \/ (k1.1 = k2.1 /\ (k1.2 <= k2.2)%Qc).

(** ** [build_context] *)

(** [l[i]]: [None] stands for [IndexError]; a negative index counts
    from the end. *)
Definition py_index {A} (l : list A) (i : Z) : option A :=
  if 0 <=? i then l !! Z.to_nat i
  else if 0 <=? len l + i then l !! Z.to_nat (len l + i)
  else None.

Definition clip (s : pystr) : pystr :=
  let s := join [ch_space] (split s) in
  if 140 <? len s then take 137 s ++ lit "..." else s.

Definition build_context (blocks_sorted : list Block) (idx : Z)
    : option pystr :=
  prev_txt ←
    (if 0 <=? idx - 1 then
       b ← py_index blocks_sorted (idx - 1);
       Some (normalize_equation_text (block_text b))
     else Some []);
  next_txt ←
    (if idx + 1 <? len blocks_sorted then
       b ← py_index blocks_sorted (idx + 1);
       Some (normalize_equation_text (block_text b))
     else Some []);
  let prev_txt := clip prev_txt in
  let next_txt := clip next_txt in
  Some (if negb (is_empty prev_txt) && negb (is_empty next_txt)
        then prev_txt ++ lit " | " ++ next_txt
        else if negb (is_empty prev_txt) then prev_txt
        else if negb (is_empty next_txt) then next_txt
        else []).

(** The wording of the contract: a neighbour's snippet, and how the
    snippets of the neighbours that exist are put together. *)
Definition snippet (b : Block) : pystr :=
  let n := normalize_equation_text (block_text b) in
  if 140 <? len n then take 137 n ++ lit "..." else n.

Definition join_snippets (prev next : option pystr) : pystr :=
  match prev, next with
  | Some p, Some n =>
      match p, n with
      | [], _ => n
      | _, [] => p
      | _, _ => p ++ lit " | " ++ n
      end
  | Some p, None => p
  | None, Some n => n
  | None, None => []
  end.

(** The neighbours of position [i] of a list, when they exist. *)
Definition prev_neighbour {A} (l : list A) (i : nat) : option A :=
  match i with
  | O => None
  | S j => l !! j
  end.

Definition next_neighbour {A} (l : list A) (i : nat) : option A := l !! S i.

(** ** [dedupe] *)

(** The integer nearest to [q], ties to the even one. *)
Definition round_half_even (q : Q) : Z :=
  let f := Qfloor q in
  match Qcompare (q - inject_Z f) (1 # 2) with
  | Lt => f
  | Gt => f + 1
  | Eq => if Z.even f then f else f + 1
  end.

(** [round(v, 1)] *)
Definition round1 (v : Qc) : Qc :=
  Q2Qc (round_half_even (v * inject_Z 10) # 10).

Abbreviation Triple := (Z * pystr * BBox)%type.

Definition round_bbox (bbox : BBox) : BBox :=
  let '(x0, y0, x1, y1) := bbox in (round1 x0, round1 y0, round1 x1, round1 y1).

Definition dedupe_key (item : Triple) : Triple :=
  let '(page_num, text, bbox) := item in
  (page_num, normalize_equation_text text, round_bbox bbox).

Definition dedupe_step (st : gset Triple * list Triple) (item : Triple)
    : gset Triple * list Triple :=
  let '(seen, out) := st in
  let '(page_num, text, bbox) := item in
  let t := normalize_equation_text text in
  let bb := round_bbox bbox in
  let key := (page_num, t, bb) in
  if decide (key ∈ seen) then (seen, out)
  else ({[ key ]} ∪ seen, out ++ [(page_num, t, bbox)]).

Definition dedupe (items : list Triple) : list Triple :=
  (fold_left dedupe_step items (∅, [])).2.

(** The wording of the contract: an element is kept when no element
    before it has its key; [before] holds the elements before [l]. *)
Fixpoint first_occurrences_from {A K} `{EqDecision K} (key : A -> K)
    (before l : list A) : list A :=
  match l with
  | [] => []
  | x :: l' =>
      (if decide (key x ∈ key <$> before) then [] else [x])
      ++ first_occurrences_from key (before ++ [x]) l'
  end.

Definition first_occurrences {A K} `{EqDecision K} (key : A -> K)
    (l : list A) : list A :=
  first_occurrences_from key [] l.

Definition normalize_item (item : Triple) : Triple :=
  let '(page_num, text, bbox) := item in
  (page_num, normalize_equation_text text, bbox).

(** ** Loops that can raise *)

(** [for x in l: st = body(st, x)], stopping at the first exception. *)
Fixpoint for_each {S A} (body : S -> A -> option S) (st : S) (l : list A)
    : option S :=
  match l with
  | [] => Some st
  | x :: l' => st' ← body st x; for_each body st' l'
  end.

(** [enumerate(l, start)] *)
Fixpoint enumerate {A} (start : Z) (l : list A) : list (Z * A) :=
  match l with
  | [] => []
  | x :: l' => (start, x) :: enumerate (start + 1) l'
  end.

(** [range(a, b)] *)
Definition py_range (a b : Z) : list Z :=
  List.map (fun i => a + Z.of_nat i) (seq 0 (Z.to_nat (b - a))).

(** [doc.load_page(pno)]: a page number from [page_count] on is a
    [ValueError]; a negative one counts from the end. *)
Definition load_page (doc : list Page) (pno : Z) : option Page :=
  if pno <? len doc then doc !! Z.to_nat (pno mod len doc) else None.

(** ** The numbering loop of [main] *)

(** [images_dir / f"eq_p{page_num:03d}_{eq_id:04d}.png"], by the two
    numbers the name is made of. *)
Record ImagePath := { img_page : Z; img_id : Z }.

Record EquationItem := {
  eq_id : Z;
  page : Z;
  text : pystr;
  context : pystr;
  bbox : BBox;
  image_path : ImagePath
}.

Record Args := {
  arg_zoom : Qc;
  arg_min_len : Z;
  arg_require_equals : bool
}.

Abbreviation Candidate := (Z * pystr * BBox * pystr)%type.

Definition candidate_triple (c : Candidate) : Triple :=
  let '(p, t, bb, _ctx) := c in (p, t, bb).

(** Every candidate is on a page of the document. *)
Definition pages_within (doc : list Page) (candidates : list Candidate)
    : Prop :=
  Forall (fun c : Candidate => 1 <= c.1.1.1 <= len doc) candidates.

(** The wording of the contract: the deduplicated candidates, numbered
    from [start] in their order. *)
Definition numbered_items (ctx_map : gmap Triple pystr) (start : Z)
    (deduped : list Triple) : list EquationItem :=
  (fun numbered : Z * Triple =>
     let '(eq_id, (page_num, text_norm, bbox)) := numbered in
     {| eq_id := eq_id; page := page_num; text := text_norm;
        context := default [] (ctx_map !! (page_num, text_norm, round_bbox bbox));
        bbox := bbox;
        image_path := {| img_page := page_num; img_id := eq_id |} |})
  <$> enumerate start deduped.

Definition item_triple (item : EquationItem) : Triple :=
  (page item, text item, bbox item).

Section Main.

Variable nd_beyond_ascii : N -> bool.

(** [render_crop(page, rect, zoom=zoom, out_path=out_path)] writes a
    file or raises; which of the two is the page source's business. *)
Variable render_crop : Page -> BBox -> Qc -> ImagePath -> option unit.

Definition scan_block (args : Args) (blocks : list Block) (page_index : Z)
    (candidates : list Candidate) (ib : Z * Block) : option (list Candidate) :=
  let '(idx, b) := ib in
  let txt := block_text b in
  if is_empty txt then Some candidates
  else if negb (looks_like_equation nd_beyond_ascii txt
                  (arg_min_len args) (arg_require_equals args))
  then Some candidates
  else
    let bbox := block_bbox b in
    ctx ← build_context blocks idx;
    Some (candidates ++ [(page_index + 1, txt, bbox, ctx)]).

Definition scan_page (args : Args) (doc : list Page)
    (candidates : list Candidate) (page_index : Z) : option (list Candidate) :=
  page ← load_page doc page_index;
  let blocks := sorted_blocks_by_position (extract_text_blocks page) in
  for_each (scan_block args blocks page_index) candidates (enumerate 0 blocks).

Definition scan_document (args : Args) (doc : list Page)
    : option (list Candidate) :=
  for_each (scan_page args doc) [] (py_range 0 (len doc)).

(** [ctx_map.setdefault(key, ctx)] over the candidates. *)
Definition context_map (candidates : list Candidate) : gmap Triple pystr :=
  fold_left
    (fun ctx_map c =>
       let '(p, t, bb, ctx) := c in
       let key := (p, normalize_equation_text t, round_bbox bb) in
       match ctx_map !! key with
       | Some _ => ctx_map
       | None => <[key := ctx]> ctx_map
       end)
    candidates ∅.

Definition emit_item (args : Args) (doc : list Page)
    (ctx_map : gmap Triple pystr) (st : list EquationItem * Z)
    (d : Triple) : option (list EquationItem * Z) :=
  let '(eq_items, eq_id) := st in
  let '(page_num, text_norm, bbox) := d in
  page ← load_page doc (page_num - 1);
  let img_path := {| img_page := page_num; img_id := eq_id |} in
  _ ← render_crop page bbox (arg_zoom args) img_path;
  let key := (page_num, text_norm, round_bbox bbox) in
  let ctx := default [] (ctx_map !! key) in
  Some (eq_items ++ [ {| eq_id := eq_id; page := page_num; text := text_norm;
                         context := ctx; bbox := bbox;
                         image_path := img_path |} ],
        eq_id + 1).

(** The rendering of the item numbered [eq_id] goes through. *)
Definition render_succeeds (args : Args) (doc : list Page)
    (numbered : Z * Triple) : bool :=
  let '(eq_id, (page_num, _, bbox)) := numbered in
  match load_page doc (page_num - 1) with
  | Some page =>
      bool_decide
        (is_Some (render_crop page bbox (arg_zoom args)
                    {| img_page := page_num; img_id := eq_id |}))
  | None => false
  end.

(** The items [main] hands to [write_excel]; [None] when the run ends
    in an exception. *)
Definition main (args : Args) (doc : list Page) : option (list EquationItem) :=
  candidates ← scan_document args doc;
  let deduped_keyed := dedupe (candidate_triple <$> candidates) in
  let ctx_map := context_map candidates in
  st ← for_each (emit_item args doc ctx_map) ([], 1) deduped_keyed;
  Some st.1.

End Main.

(** ** [extract_equation_images] *)

(** [str(n)] for an [int]. *)
Definition str_of_int (n : Z) : pystr :=
  lit (DecimalString.NilZero.string_of_int (Z.to_int n)).

(** [f"({eq})"] *)
Definition token_of (eq : Z) : pystr := lit "(" ++ str_of_int eq ++ lit ")".

(** [max(a, b)] and [min(a, b)] on floats. *)
Definition py_max (a b : Qc) : Qc := if bool_decide (a < b)%Qc then b else a.
Definition py_min (a b : Qc) : Qc := if bool_decide (b < a)%Qc then b else a.

(** The crop rectangle around the match [r] on [page]. *)
Definition crop_rect (page : Page) (r : BBox) : BBox :=
  (0%Qc,
   py_max 0%Qc (rect_y0 r - flt 180 1)%Qc,
   page_width page,
   py_min (page_height page) (rect_y1 r + flt 30 1)%Qc).

(** [out_dir / f"eq_{eq}_p{pno+1}.png"], by its two numbers. *)
Record SnapshotPath := { snap_eq : Z; snap_page : Z }.

(** The wording of the contract: the first page among [pnos], in their
    order, on which [token] is found, with the first rectangle found
    there. *)
Definition first_hit (doc : list Page) (token : pystr) (pnos : list Z)
    : option (Z * Page * BBox) :=
  head (omap (fun pno =>
                page ← doc !! Z.to_nat pno;
                r ← head (search_for page token);
                Some (pno, page, r))
          pnos).

Definition snapshot_of (eq : Z) (hit : Z * Page * BBox) : SnapshotPath :=
  {| snap_eq := eq; snap_page := hit.1.1 + 1 |}.

(** What the mapping holds once the labels [done] have been handled:
    the snapshot of each label that was found, nothing for the others. *)
Definition mapping_of (doc : list Page) (pages_1based : Z * Z)
    (done : list Z) (eq_to_path : gmap Z SnapshotPath) : Prop :=
  forall eq,
    eq_to_path !! eq
    = if decide (eq ∈ done)
      then snapshot_of eq
             <$> first_hit doc (token_of eq)
                   (py_range (pages_1based.1 - 1) pages_1based.2)
      else None.

Section Snapshots.

(** [page.get_pixmap(clip=clip, dpi=dpi)] followed by [pix.save]:
    writes the file or raises. *)
Variable save_pixmap : Page -> BBox -> Z -> SnapshotPath -> option unit.

(** The inner loop over the pages: [Some None] is a label found on no
    page, [None] an exception. *)
Fixpoint search_pages (doc : list Page) (token : pystr) (pnos : list Z)
    : option (option (Z * Page * BBox)) :=
  match pnos with
  | [] => Some None
  | pno :: rest =>
      page ← load_page doc pno;
      match search_for page token with
      | [] => search_pages doc token rest
      | r :: _ => Some (Some (pno, page, r))
      end
  end.

Definition locate_equation (doc : list Page) (pages_1based : Z * Z) (dpi : Z)
    (eq_to_path : gmap Z SnapshotPath) (eq : Z)
    : option (gmap Z SnapshotPath) :=
  let token := token_of eq in
  hit ← search_pages doc token
          (py_range (pages_1based.1 - 1) pages_1based.2);
  match hit with
  | None => Some eq_to_path
  | Some (pno, page, r) =>
      let clip := crop_rect page r in
      let out_path := {| snap_eq := eq; snap_page := pno + 1 |} in
      _ ← save_pixmap page clip dpi out_path;
      Some (<[eq := out_path]> eq_to_path)
  end.

Definition extract_equation_images (doc : list Page)
    (equation_numbers : list Z) (pages_1based : Z * Z) (dpi : Z)
    : option (gmap Z SnapshotPath) :=
  for_each (locate_equation doc pages_1based dpi) ∅ equation_numbers.

End Snapshots.

(** ** Further parts of the extraction pipeline *)

(** [s] has a character that is not white space. *)
Definition has_text (s : pystr) : bool :=
  existsb (fun c => negb (isspace c)) s.

(** The raw blocks [extract_text_blocks] keeps, and what it makes of
    one. *)
Definition is_text_block (b : RawBlock) : bool :=
  (rb_type b =? 0) && has_text (rb_text b).

Definition block_of_raw (b : RawBlock) : Block :=
  {| b_type := 0;
     b_bbox := Some (rb_x0 b, rb_y0 b, rb_x1 b, rb_y1 b);
     b_text := Some (rb_text b) |}.

(** The key under which [main] files a candidate. *)
Definition candidate_key (c : Candidate) : Triple :=
  dedupe_key (candidate_triple c).

(** The items of a run, read off the candidates: the first candidate
    of every key, numbered from [start], with its own context. *)
Definition first_seen_items (start : Z) (candidates : list Candidate)
    : list EquationItem :=
  (fun numbered : Z * Candidate =>
     let '(eq_id, (page_num, txt, bbox, ctx)) := numbered in
     {| eq_id := eq_id; page := page_num;
        text := normalize_equation_text txt;
        context := ctx; bbox := bbox;
        image_path := {| img_page := page_num; img_id := eq_id |} |})
  <$> enumerate start (first_occurrences candidate_key candidates).

(** The key of an emitted item. *)
Definition item_key (item : EquationItem) : Triple :=
  (page item, text item, round_bbox (bbox item)).

(** The last step of [build_context], on the two clipped snippets. *)
Definition put_together (prev_txt next_txt : pystr) : pystr :=
  if negb (is_empty prev_txt) && negb (is_empty next_txt)
  then prev_txt ++ lit " | " ++ next_txt
  else if negb (is_empty prev_txt) then prev_txt
  else if negb (is_empty next_txt) then next_txt
  else [].

(** Where a candidate of [main] comes from: block [i] of the sorted
    text blocks of its page, with that block's text and box, a text the
    classifier accepts, and the context of position [i]. *)
Definition candidate_from (nd_beyond_ascii : N -> bool) (args : Args)
    (doc : list Page) (c : Candidate) : Prop :=
  exists (pg : Page) (i : nat) (b : Block),
    1 <= c.1.1.1
    /\ doc !! Z.to_nat (c.1.1.1 - 1) = Some pg
    /\ sorted_blocks_by_position (extract_text_blocks pg) !! i = Some b
    /\ c.1.1.2 = block_text b
    /\ c.1.2 = block_bbox b
    /\ looks_like_equation nd_beyond_ascii (block_text b)
         (arg_min_len args) (arg_require_equals args) = true
    /\ c.2 = join_snippets
               (snippet <$> prev_neighbour
                              (sorted_blocks_by_position
                                 (extract_text_blocks pg)) i)
               (snippet <$> next_neighbour
                              (sorted_blocks_by_position
                                 (extract_text_blocks pg)) i).

(** The context the loop over the candidates files under [key]: that
    of the first candidate with this key. *)
Definition first_context (key : Triple) (candidates : list Candidate)
    : option pystr :=
  snd <$> head (filter (fun c => candidate_key c = key) candidates).

(** [a] and [b] differ by a tenth at most; the same for the four
    coordinates of two boxes. *)
Definition within_tenth (a b : Qc) : Prop :=
  (a - b <= flt 1 10)%Qc /\ (b - a <= flt 1 10)%Qc.

Definition boxes_within_tenth (bbox1 bbox2 : BBox) : Prop :=
  within_tenth bbox1.1.1.1 bbox2.1.1.1
  /\ within_tenth bbox1.1.1.2 bbox2.1.1.2
  /\ within_tenth bbox1.1.2 bbox2.1.2
  /\ within_tenth bbox1.2 bbox2.2.

(** ** The order of the candidates *)

(** The sort key of a box: [(y0, x0)]. *)
Definition bbox_key (bbox : BBox) : Qc * Qc := (bbox.1.1.2, bbox.1.1.1).

(** Reading order: by page, then by [(y0, x0)]. *)
Definition reading_order (a b : Z * BBox) : Prop :=
  a.1 < b.1 \/ (a.1 = b.1 /\ position_le (bbox_key a.2) (bbox_key b.2)).

Definition candidate_place (c : Candidate) : Z * BBox := (c.1.1.1, c.1.2).

Definition item_place (item : EquationItem) : Z * BBox :=
  (page item, bbox item).

(** What the block [b] at the index [idx] of a page adds to the
    candidates, and what a page adds. *)
Definition block_candidates (nd_beyond_ascii : N -> bool) (args : Args)
    (blocks : list Block) (page_index : Z) (ib : Z * Block)
    : list Candidate :=
  if is_empty (block_text ib.2) then []
  else if looks_like_equation nd_beyond_ascii (block_text ib.2)
            (arg_min_len args) (arg_require_equals args)
  then (fun ctx => (page_index + 1, block_text ib.2, block_bbox ib.2, ctx))
       <$> option_list (build_context blocks ib.1)
  else [].

Definition page_candidates (nd_beyond_ascii : N -> bool) (args : Args)
    (doc : list Page) (page_index : Z) : list Candidate :=
  match load_page doc page_index with
  | Some page =>
      let blocks := sorted_blocks_by_position (extract_text_blocks page) in
      mjoin (block_candidates nd_beyond_ascii args blocks page_index
             <$> enumerate 0 blocks)
  | None => []
  end.

(** ** [_clamp] of the design tool *)

Definition _clamp (x lo hi : Qc) : Qc := py_max lo (py_min hi x).

(** ** Outcomes with exceptions *)

(** The exceptions of the workbook writers and the quickstart
    fillers; [LibraryError] is an exception raised inside xlsxwriter,
    whichever it is. *)
Inductive exn :=
  | AttributeError
  | KeyError
  | TypeError
  | ValueError
  | OverflowError
  | RuntimeError
  | IllegalCharacterError
  | LibraryError.

(** An outcome: a value, or an exception raised. *)
Inductive result (A : Type) :=
  | Return (a : A)
  | Raise (e : exn).

Arguments Return {A} a.
Arguments Raise {A} e.

#[global] Instance result_ret : MRet result := fun A a => Return a.

#[global] Instance result_bind : MBind result := fun A B f m =>
  match m with
  | Return a => f a
  | Raise e => Raise e
  end.

(** What an outcome returns, if anything. *)
Definition returned {A} (r : result A) : option A :=
  match r with
  | Return a => Some a
  | Raise _ => None
  end.

(** ** The quickstart fillers

    [populate_quickstart_calculator.py] and [quickstart_excel_com.py]
    read the JSON export of the web application and fill the six input
    cells of the calculator.  The model starts from the value that
    [json.loads] returns and ends with the values assigned to the cells
    of the sheet "Design Regulator"; what Excel and openpyxl do with the
    workbook is not part of it. *)

(** [s.startswith(prefix)] *)
Definition startswith (s prefix : pystr) : bool :=
  bool_decide (take (length prefix) s = prefix).

Section Quickstart.

(** Python floats, here with the infinities and NaN, which a JSON file
    and [float] of a string can yield.  [float_of_int] and
    [float_of_str] are [float(n)] and [float(s)]: [None] is the
    [OverflowError] of the first and the [ValueError] of the second.
    [truediv x y] is [x / y] for [y] other than zero, [f1000] the
    literal [1000.0], and [is_zero x] is [x == 0]. *)
Variable float : Type.
Variable float_of_int : Z -> option float.
Variable float_of_str : pystr -> option float.
Variable is_zero : float -> bool.
Variable truediv : float -> float -> float.
Variable f1000 : float.

(** The values [json.loads] returns. *)
#[local] Set Warnings "-register-all".
Inductive value :=
  | VNone
  | VBool (b : bool)
  | VInt (n : Z)
  | VFloat (x : float)
  | VStr (s : pystr)
  | VList (l : list value)
  | VDict (d : gmap pystr value).
#[local] Set Warnings "register-all".

(** [bool(v)] *)
Definition truthy (v : value) : bool :=
  match v with
  | VNone => false
  | VBool b => b
  | VInt n => negb (n =? 0)
  | VFloat x => negb (is_zero x)
  | VStr s => negb (is_empty s)
  | VList l => negb (is_empty l)
  | VDict d => negb (is_empty (map_to_list d))
  end.

(** [float(v)]: a [bool] is an [int]; [None], a list and a dict are a
    [TypeError]. *)
Definition py_float (v : value) : result float :=
  match v with
  | VNone => Raise TypeError
  | VBool b => from_option Return (Raise OverflowError) (float_of_int (Z.b2z b))
  | VInt n => from_option Return (Raise OverflowError) (float_of_int n)
  | VFloat x => Return x
  | VStr s => from_option Return (Raise ValueError) (float_of_str s)
  | VList _ => Raise TypeError
  | VDict _ => Raise TypeError
  end.

(** [v.get(k, default)]: a dict alone has the method. *)
Definition dict_get (v : value) (k : pystr) (default : value) : result value :=
  match v with
  | VDict d => Return (from_option id default (d !! k))
  | _ => Raise AttributeError
  end.

(** [v[k]] for a string [k]: a [KeyError] on a dict without the key, a
    [TypeError] on anything that is not a dict. *)
Definition subscript (v : value) (k : pystr) : result value :=
  match v with
  | VDict d => from_option Return (Raise KeyError) (d !! k)
  | _ => Raise TypeError
  end.

(** [load_payload], from the parsed file on. *)
Definition load_payload (payload : value) : result value :=
  match payload with
  | VDict d =>
      if bool_decide (d !! lit "inputs" = None) then Raise ValueError
      else Return payload
  | _ => Raise ValueError
  end.

(** The assignments to the cells of the sheet, in the order they are
    made. *)
Definition cell_values (vin_min vin_nom vin_max vout iout fsw_khz : float)
    : list (pystr * float) :=
  [ (lit "E6", vin_min); (lit "E7", vin_nom); (lit "E8", vin_max);
    (lit "E9", vout); (lit "E10", iout); (lit "E11", fsw_khz) ].

(** [fill_quickstart] of [populate_quickstart_calculator.py]: the
    values it reads, and the cells it sets with them on either of its
    two ways, through Excel or through openpyxl. *)
Definition fill_quickstart (payload : value) : result (list (pystr * float)) :=
  inputs ← dict_get payload (lit "inputs") (VDict ∅);
  nom_or_none ← dict_get inputs (lit "vinNom") VNone;
  vin_min ← dict_get inputs (lit "vinMin") nom_or_none ≫= py_float;
  vin_nom ← dict_get inputs (lit "vinNom") VNone ≫= py_float;
  vin_max ← dict_get inputs (lit "vinMax") VNone ≫= py_float;
  vout ← dict_get inputs (lit "vout") VNone ≫= py_float;
  iout ← dict_get inputs (lit "iout") VNone ≫= py_float;
  fsw_hz ← dict_get inputs (lit "fsw") VNone ≫= py_float;
  let fsw_khz := truediv fsw_hz f1000 in
  mret (cell_values vin_min vin_nom vin_max vout iout fsw_khz).

Record QuickstartInputs := {
  vin_min_v : float;
  vin_nom_v : float;
  vin_max_v : float;
  vout_v : float;
  iout_a : float;
  fsw_hz : float
}.

(** [_load_inputs_from_webapp_json], from the parsed file on. *)
Definition _load_inputs_from_webapp_json (payload : value)
    : result QuickstartInputs :=
  got ← dict_get payload (lit "inputs") VNone;
  let inputs := if truthy got then got else VDict ∅ in
  vin_nom ← subscript inputs (lit "vinNom") ≫= py_float;
  vin_min ← dict_get inputs (lit "vinMin") (VFloat vin_nom) ≫= py_float;
  vin_max ← subscript inputs (lit "vinMax") ≫= py_float;
  vout ← subscript inputs (lit "vout") ≫= py_float;
  iout ← subscript inputs (lit "iout") ≫= py_float;
  fsw ← subscript inputs (lit "fsw") ≫= py_float;
  mret {| vin_min_v := vin_min; vin_nom_v := vin_nom; vin_max_v := vin_max;
          vout_v := vout; iout_a := iout; fsw_hz := fsw |}.

(** [fill_quickstart_excel]: [win32] tells whether [win32com] can be
    imported, [template_name] is [template_path.name]. *)
Definition fill_quickstart_excel (win32 : bool) (template_name : pystr)
    (payload : value) : result (list (pystr * float)) :=
  if negb win32 then Raise RuntimeError else
  if startswith template_name (lit "~$") then Raise ValueError else
  inp ← _load_inputs_from_webapp_json payload;
  let fsw_khz := truediv (fsw_hz inp) f1000 in
  mret (cell_values (vin_min_v inp) (vin_nom_v inp) (vin_max_v inp)
          (vout_v inp) (iout_a inp) fsw_khz).

(** The wording of what the fillers need: [float_at d k] is the number
    under the key [k] of [d], if the key is there and [float] takes its
    value; [read_inputs d] the six cell values read from the inputs
    [d], with [vinNom] standing in for a [vinMin] that is not there. *)
Definition float_at (d : gmap pystr value) (k : pystr) : option float :=
  v ← d !! k;
  match py_float v with
  | Return x => Some x
  | Raise _ => None
  end.

Definition read_inputs (d : gmap pystr value) : option (list (pystr * float)) :=
  vin_nom ← float_at d (lit "vinNom");
  vin_min ← match d !! lit "vinMin" with
            | Some _ => float_at d (lit "vinMin")
            | None => Some vin_nom
            end;
  vin_max ← float_at d (lit "vinMax");
  vout ← float_at d (lit "vout");
  iout ← float_at d (lit "iout");
  fsw ← float_at d (lit "fsw");
  Some (cell_values vin_min vin_nom vin_max vout iout (truediv fsw f1000)).

(** The payload of [lm5148_streamlit_app.py], which it offers as
    [lm5148_design.json] and hands to [fill_quickstart_excel]: the six
    numbers of the side bar under "inputs", beside "meta" and the
    results of the design run. *)
Definition webapp_payload (vin_min vin_nom vin_max vout iout fsw_hz : float)
    (results : value) : value :=
  VDict {[ lit "meta" := VDict {[ lit "tool" := VStr (lit "lm5148_streamlit_app");
                                  lit "version" := VInt 1 ]};
           lit "inputs" := VDict {[ lit "vinMin" := VFloat vin_min;
                                    lit "vinNom" := VFloat vin_nom;
                                    lit "vinMax" := VFloat vin_max;
                                    lit "vout" := VFloat vout;
                                    lit "iout" := VFloat iout;
                                    lit "fsw" := VFloat fsw_hz ]};
           lit "results" := results ]}.

End Quickstart.

Arguments VNone {float}.
Arguments VBool {float} b.
Arguments VInt {float} n.
Arguments VFloat {float} x.
Arguments VStr {float} s.
Arguments VList {float} l.
Arguments VDict {float} d.
Arguments dict_get {float} v k default.
Arguments subscript {float} v k.
Arguments load_payload {float} payload.
Arguments cell_values {float} vin_min vin_nom vin_max vout iout fsw_khz.
Arguments webapp_payload {float} vin_min vin_nom vin_max vout iout fsw_hz results.

(** ** The results workbook of [export_results_xlsx.py] *)

(** [s < t] on strings: the code points decide, from the left; a
    string is above its proper beginnings. *)
Fixpoint str_lt (s t : pystr) : bool :=
  match s, t with
  | _, [] => false
  | [], _ :: _ => true
  | a :: s', b :: t' =>
      if (a <? b)%N then true
      else if (b <? a)%N then false
      else str_lt s' t'
  end.

(** [sorted(d.keys())] for a dict with string keys.  The keys of a
    dict are distinct, so the order in which [keys] yields them does
    not show in the result. *)
Definition sorted_keys {V} (d : gmap pystr V) : list pystr :=
  py_sorted str_lt id (map_to_list d).*1.

(** [for x in l: st = body(st, x)], stopping at the first exception. *)
Fixpoint for_each_result {S A} (body : S -> A -> result S) (st : S)
    (l : list A) : result S :=
  match l with
  | [] => Return st
  | x :: l' => st' ← body st x; for_each_result body st' l'
  end.

(** The formats of the workbook. *)
Inductive cell_format :=
  | header
  | key_fmt
  | num_fmt.

Section Report.

Variable float : Type.
Variable float_of_int : Z -> option float.
Variable float_of_str : pystr -> option float.

(** [str(v)] *)
Variable py_str : value float -> pystr.

(** Whether [ws.write_number] refuses the number, as xlsxwriter does
    with NaN and the infinities. *)
Variable refused : float -> bool.

(** Whether [ws.write] raises for the string, as xlsxwriter does for a
    string that it takes for a link and cannot take apart. *)
Variable write_raises : pystr -> bool.

(** The calls on the worksheet: [ws.set_column(first, last, width)],
    [ws.write(row, col, s, fmt)] with a string, with or without a
    format, and [ws.write_number(row, col, x, fmt)]. *)
Inductive ws_call :=
  | ws_set_column (first last width : Z)
  | ws_write (row col : Z) (s : pystr) (fmt : option cell_format)
  | ws_write_number (row col : Z) (x : float) (fmt : cell_format).

(** Whether [wb.close()] raises for the worksheet these calls have
    built, as xlsxwriter does when a string cannot be encoded. *)
Variable close_raises : list ws_call -> bool.

(** [ws.write(row, col, s, fmt)] and [ws.write(row, col, s)]. *)
Definition write_string (calls : list ws_call) (row col : Z) (s : pystr)
    (fmt : option cell_format) : result (list ws_call) :=
  if write_raises s then Raise LibraryError
  else Return (calls ++ [ws_write row col s fmt]).

(** [isinstance(v, (int, float))]: a [bool] is an [int]. *)
Definition is_number (v : value float) : bool :=
  match v with
  | VBool _ | VInt _ | VFloat _ => true
  | _ => false
  end.

(** One turn of either loop: the key in column 0, the value in
    column 1, and the row counter moves on. *)
Definition write_entry (d : gmap pystr (value float))
    (st : Z * list ws_call) (k : pystr) : result (Z * list ws_call) :=
  let '(row, calls) := st in
  v ← from_option Return (Raise KeyError) (d !! k);
  calls ← write_string calls row 0 k (Some key_fmt);
  calls ← (if is_number v
           then x ← py_float float float_of_int float_of_str v;
                if refused x then Raise TypeError
                else mret (calls ++ [ws_write_number row 1 x num_fmt])
           else write_string calls row 1 (py_str v) None);
  mret (row + 1, calls).

(** [build_results_xlsx_bytes]: the calls it makes on the worksheet
    "LM5148 Results", which determine the bytes it returns when
    [wb.close()] has written them. *)
Definition build_results_xlsx_bytes (inputs results : gmap pystr (value float))
    : result (list ws_call) :=
  let calls := [ws_set_column 0 0 28; ws_set_column 1 1 22] in
  let row := 0 in
  calls ← write_string calls row 0 (lit "Inputs") (Some header);
  let row := row + 1 in
  st ← for_each_result (write_entry inputs) (row, calls) (sorted_keys inputs);
  let '(row, calls) := st in
  let row := row + 1 in
  calls ← write_string calls row 0 (lit "Results") (Some header);
  let row := row + 1 in
  st ← for_each_result (write_entry results) (row, calls) (sorted_keys results);
  let '(row, calls) := st in
  if close_raises calls then Raise LibraryError else mret calls.

(** The wording of the layout: the call for a value in [row], the two
    calls for a key in [row], and the calls of a section whose keys
    stand in increasing order from the row [first] on; there is none
    when xlsxwriter does not take the value or the key. *)
Definition value_call (row : Z) (v : value float) : option ws_call :=
  if is_number v
  then x ← returned (py_float float float_of_int float_of_str v);
       if refused x then None else Some (ws_write_number row 1 x num_fmt)
  else if write_raises (py_str v) then None
       else Some (ws_write row 1 (py_str v) None).

Definition entry_calls (d : gmap pystr (value float)) (row : Z) (k : pystr)
    : option (list ws_call) :=
  v ← d !! k;
  if write_raises k then None else
  c ← value_call row v;
  Some [ws_write row 0 k (Some key_fmt); c].

(** The calls of a workbook with the rows [rows_in] of the [n] inputs
    and the rows [rows_res] of the results. *)
Definition workbook_calls (n : Z) (rows_in rows_res : list ws_call)
    : list ws_call :=
  [ ws_set_column 0 0 28; ws_set_column 1 1 22;
    ws_write 0 0 (lit "Inputs") (Some header) ]
  ++ rows_in
  ++ [ ws_write (n + 2) 0 (lit "Results") (Some header) ]
  ++ rows_res.

Definition section_calls (d : gmap pystr (value float)) (first : Z)
    : option (list ws_call) :=
  mjoin <$> mapM (fun numbered : Z * pystr =>
                    entry_calls d numbered.1 numbered.2)
              (enumerate first (sorted_keys d)).

End Report.

Arguments ws_set_column {float} first last width.
Arguments ws_write {float} row col s fmt.
Arguments ws_write_number {float} row col x fmt.
Arguments is_number {float} v.
Arguments workbook_calls {float} n rows_in rows_res.

(** ** [write_excel] *)

(** [int(x)] for a float: towards zero. *)
Definition py_int (x : Qc) : Z :=
  if bool_decide (x < 0)%Qc then Qceiling x else Qfloor x.

(** An [int] as a float, exact below 2^53. *)
Definition float_of_Z (n : Z) : Qc := Q2Qc (inject_Z n).

(** The value of a cell: an [int] or a [str]. *)
Inductive cell_value :=
  | CInt (n : Z)
  | CStr (s : pystr).

(** What [write_excel] does to the worksheet, in the order it does it:
    the title, [ws.append], the column widths, [ws.cell(row, column,
    value)], [ws.add_image] of an image of a width and a height at the
    anchor [f"E{row}"], the height of a row, the frozen panes and the
    filter [f"A1:{column}{row}"]. *)
Inductive sheet_op :=
  | xl_title (s : pystr)
  | xl_append (values : list pystr)
  | xl_column_width (column : pystr) (width : Z)
  | xl_cell (row column : Z) (v : cell_value)
  | xl_add_image (path : ImagePath) (width height : Z) (anchor_row : Z)
  | xl_row_height (row : Z) (height : Z)
  | xl_freeze_panes (cell : pystr)
  | xl_auto_filter (last_column : pystr) (last_row : Z).

Section WriteExcel.

(** [XLImage(path)]: the width and the height of the picture in
    pixels, or an exception.  Both are below 2^31, so the products
    below are exact in floats, and the rationals compute them. *)
Variable XLImage : ImagePath -> option (Z * Z).

(** Whether openpyxl refuses the string as the value of a cell, as it
    does when it holds a control character. *)
Variable illegal : pystr -> bool.

(** The [try] block: nothing is left of it when the picture cannot be
    loaded. *)
Definition embed_image (i : Z) (eq : EquationItem) : list sheet_op :=
  match XLImage (image_path eq) with
  | None => []
  | Some (img_width, img_height) =>
      let img_width := 240 in
      let img_height :=
        py_int (float_of_Z img_height
                * (float_of_Z 240 / float_of_Z (Z.max 1 img_width)))%Qc in
      [ xl_add_image (image_path eq) img_width img_height i;
        xl_row_height i
          (Z.max 15 (py_int (float_of_Z img_height * flt 3 4)%Qc)) ]
  end.

(** One turn of the loop over [enumerate(equations, start=start_row)]. *)
Definition write_row (ops : list sheet_op) (numbered : Z * EquationItem)
    : result (list sheet_op) :=
  let '(i, eq) := numbered in
  let ops := ops ++ [ xl_cell i 1 (CInt (eq_id eq));
                      xl_cell i 2 (CInt (page eq)) ] in
  if illegal (text eq) then Raise IllegalCharacterError else
  let ops := ops ++ [ xl_cell i 3 (CStr (text eq)) ] in
  if illegal (context eq) then Raise IllegalCharacterError else
  let ops := ops ++ [ xl_cell i 4 (CStr (context eq)) ] in
  mret (ops ++ embed_image i eq).

(** [write_excel]: the worksheet it saves.  The sheet has five columns
    and a row for the header and for each equation, which is where the
    filter ends. *)
Definition write_excel (equations : list EquationItem)
    : result (list sheet_op) :=
  let ops :=
    [ xl_title (lit "Equations");
      xl_append [ lit "ID"; lit "Page"; lit "Equation (extracted)";
               lit "Context"; lit "Snapshot" ];
      xl_column_width (lit "A") 6; xl_column_width (lit "B") 7;
      xl_column_width (lit "C") 60; xl_column_width (lit "D") 60;
      xl_column_width (lit "E") 24 ] in
  let start_row := 2 in
  ops ← for_each_result write_row ops (enumerate start_row equations);
  mret (ops ++ [ xl_freeze_panes (lit "A2");
                 xl_auto_filter (lit "E") (1 + len equations) ]).

(** The wording of the layout: what is written for an equation in the
    row [i]; the row is given three quarters of the height of the
    picture, rounded towards zero, and 15 at least. *)
Definition row_ops (i : Z) (eq : EquationItem) : list sheet_op :=
  [ xl_cell i 1 (CInt (eq_id eq)); xl_cell i 2 (CInt (page eq));
    xl_cell i 3 (CStr (text eq)); xl_cell i 4 (CStr (context eq)) ]
  ++ match XLImage (image_path eq) with
     | None => []
     | Some (_, height) =>
         [ xl_add_image (image_path eq) 240 height i;
           xl_row_height i (Z.max 15 (Z.quot (3 * height) 4)) ]
     end.

Definition legal_item (eq : EquationItem) : bool :=
  negb (illegal (text eq)) && negb (illegal (context eq)).

End WriteExcel.

(** ** Sample data *)

(** A block with a text and no bounding box. *)
Definition text_block (t : string) : Block :=
  {| b_type := 0; b_bbox := None; b_text := Some (lit t) |}.

(** A letter-size page on which only [token] is found, at [hits]. *)
Definition page_with (token : pystr) (hits : list BBox) : Page :=
  {| page_width := flt 612 1; page_height := flt 792 1; page_blocks := [];
     search_for := fun t => if decide (t = token) then hits else [] |}.

(** Two pages; "(7)" stands once on the second. *)
Definition sample_doc : list Page :=
  [ page_with (lit "(7)") [];
    page_with (lit "(7)") [(flt 540 1, flt 100 1, flt 560 1, flt 112 1)] ].

(** A text block of [page.get_text("blocks")] at [(x0, y0)]. *)
Definition raw_text_block (x0 y0 : Z) (t : string) : RawBlock :=
  {| rb_x0 := flt x0 1; rb_y0 := flt y0 1;
     rb_x1 := flt (x0 + 100) 1; rb_y1 := flt (y0 + 10) 1;
     rb_text := lit t; rb_no := 0; rb_type := 0 |}.

(** Two pages of blocks, out of reading order; the first page holds the
    same equation twice at one place, with different spacing. *)
Definition sample_pages : list Page :=
  [ {| page_width := flt 612 1; page_height := flt 792 1;
       page_blocks := [ raw_text_block 10 50 "where D is the duty cycle";
                        raw_text_block 10 20 "VOUT = 5 V";
                        raw_text_block 10 20 "VOUT  =  5 V";
                        raw_text_block 10 30 "   " ];
       search_for := fun _ => [] |};
    {| page_width := flt 612 1; page_height := flt 792 1;
       page_blocks := [ raw_text_block 10 60 "fSW = 440 kHz";
                        raw_text_block 10 20 "VOUT = 5 V" ];
       search_for := fun _ => [] |} ].

Definition sample_args : Args :=
  {| arg_zoom := flt 3 1; arg_min_len := 6; arg_require_equals := true |}.

(** The box [(10.00, 20.00, 50.00, 30.00)]. *)
Definition bbox_exact : BBox := (flt 10 1, flt 20 1, flt 50 1, flt 30 1).

(** The box [(10.04, 19.98, 50.01, 30.02)]: the doubles nearest to
    these decimals. *)
Definition bbox_jitter : BBox :=
  (flt 1413004383087493 140737488355328,
   flt 5623870034678907 281474976710656,
   flt 7038281792649953 140737488355328,
   flt 8449878800853893 281474976710656).

(** What a run on [sample_pages] emits when every snapshot renders. *)
Definition sample_items : list EquationItem :=
  [ {| eq_id := 1; page := 1; text := lit "VOUT = 5 V";
       context := lit "VOUT = 5 V";
       bbox := (flt 10 1, flt 20 1, flt 110 1, flt 30 1);
       image_path := {| img_page := 1; img_id := 1 |} |};
    {| eq_id := 2; page := 2; text := lit "VOUT = 5 V";
       context := lit "fSW = 440 kHz";
       bbox := (flt 10 1, flt 20 1, flt 110 1, flt 30 1);
       image_path := {| img_page := 2; img_id := 2 |} |};
    {| eq_id := 3; page := 2; text := lit "fSW = 440 kHz";
       context := lit "VOUT = 5 V";
       bbox := (flt 10 1, flt 60 1, flt 110 1, flt 70 1);
       image_path := {| img_page := 2; img_id := 3 |} |} ].

(** The box [(10.06, 19.98, 50.01, 30.02)], two hundredths to the
    right of [bbox_jitter]. *)
Definition bbox_drift : BBox :=
  (flt 5663276531418399 562949953421312,
   flt 5623870034678907 281474976710656,
   flt 7038281792649953 140737488355328,
   flt 8449878800853893 281474976710656).

(** The JSON export of a design without "vinMin", with numbers as JSON
    has them. *)
Definition sample_payload : value Qc :=
  VDict {[ lit "inputs" :=
             VDict {[ lit "vinNom" := VInt 12; lit "vinMax" := VInt 18;
                      lit "vout" := VFloat (flt 5 1); lit "iout" := VInt 8;
                      lit "fsw" := VInt 2100000 ]} ]}.

(** [float(n)] and [float(s)] on the numbers and strings of the
    sample, which holds no string. *)
Definition sample_float_of_int (n : Z) : option Qc := Some (float_of_Z n).
Definition sample_float_of_str (s : pystr) : option Qc := None.

(** Every picture of the sample is 600 by 90. *)
Definition sample_XLImage (path : ImagePath) : option (Z * Z) :=
  Some (600, 90).

(** * Properties *)

(** ** Words, joins and strips *)

Section Words.

Implicit Types (c d : N) (s t w : pystr) (ws : list pystr).

Lemma split_cons c s :
  split (c :: s) =
  if isspace c then split s
  else match s with
       | [] => [[c]]
       | d :: _ => if isspace d then [c] :: split s else cons_head c (split s)
       end.
Proof. by destruct s. Qed.

Lemma cons_head_words c ws :
  isspace c = false -> Forall is_word ws -> Forall is_word (cons_head c ws).
Proof.
  intros Hc Hws. destruct Hws as [|w ws [Hne Hw] Hws]; simpl.
  - repeat constructor; [done | done].
  - constructor; [|done]. split; [done | by constructor].
Qed.

Lemma split_words s : Forall is_word (split s).
Proof.
  induction s as [|c s IH]; simpl; [constructor|].
  destruct (isspace c) eqn:Hc; [done|].
  destruct s as [|d s']; [by repeat constructor|].
  destruct (isspace d) eqn:Hd.
  - constructor; [by repeat constructor | done].
  - by apply cons_head_words.
Qed.

Lemma split_nonspace_head c s :
  isspace c = false -> exists w ws, split (c :: s) = (c :: w) :: ws.
Proof.
  intros Hc. simpl. rewrite Hc. destruct s as [|d s']; [by eexists _, _|].
  destruct (isspace d); [by eexists _, _|].
  destruct (split (d :: s')); simpl; by eexists _, _.
Qed.

Lemma split_word w : is_word w -> split w = [w].
Proof.
  intros [Hne Hw]. induction Hw as [|c w Hc Hw IH]; [done|].
  simpl. rewrite Hc. destruct w as [|d w']; [done|].
  inversion Hw as [|? ? Hd _]; subst. rewrite Hd.
  rewrite IH by done. done.
Qed.

Lemma split_word_space w t :
  is_word w -> split (w ++ ch_space :: t) = w :: split t.
Proof.
  intros [Hne Hw]. induction Hw as [|c w Hc Hw IH]; [done|].
  destruct w as [|d w'].
  - simpl. by rewrite Hc.
  - inversion Hw as [|? ? Hd _]; subst.
    change (split ((c :: d :: w') ++ ch_space :: t))
      with (if isspace c then split ((d :: w') ++ ch_space :: t)
            else if isspace d then [c] :: split ((d :: w') ++ ch_space :: t)
                 else cons_head c (split ((d :: w') ++ ch_space :: t))).
    rewrite Hc, Hd, IH by done. done.
Qed.

Lemma split_join ws : Forall is_word ws -> split (join [ch_space] ws) = ws.
Proof.
  induction 1 as [|w ws Hw Hws IH]; [done|].
  destruct ws as [|w' ws']; [by apply split_word|].
  change (join [ch_space] (w :: w' :: ws'))
    with (w ++ ch_space :: join [ch_space] (w' :: ws')).
  by rewrite split_word_space, IH.
Qed.

Lemma split_map (f : N -> N) s :
  (forall c, isspace (f c) = isspace c) ->
  split (List.map f s) = List.map (List.map f) (split s).
Proof.
  intros Hf. induction s as [|c s IH]; [done|].
  rewrite List.map_cons, !split_cons, Hf, IH.
  destruct (isspace c); [done|].
  destruct s as [|d s']; [done|].
  rewrite List.map_cons, Hf. destruct (isspace d); [done|].
  by destruct (split (d :: s')).
Qed.

Lemma join_map (f : N -> N) sep ws :
  List.map f (join sep ws) = join (List.map f sep) (List.map (List.map f) ws).
Proof.
  induction ws as [|w ws IH]; [done|].
  destruct ws as [|w' ws']; [done|].
  change (join sep (w :: w' :: ws')) with (w ++ sep ++ join sep (w' :: ws')).
  rewrite !List.map_app, IH. done.
Qed.

Lemma join_cons_head c sep w ws :
  join sep (cons_head c (w :: ws)) = c :: join sep (w :: ws).
Proof. by destruct ws. Qed.

Lemma join_word_head sep w ws :
  is_word w -> exists c t, join sep (w :: ws) = c :: t /\ isspace c = false.
Proof.
  intros [Hne Hw]. destruct Hw as [|c w Hc Hw]; [done|].
  destruct ws; simpl; eauto.
Qed.

Lemma lstrip_nonspace c s : isspace c = false -> lstrip (c :: s) = c :: s.
Proof. intros Hc. simpl. by rewrite Hc. Qed.

Lemma rstrip_snoc s c : isspace c = false -> rstrip (s ++ [c]) = s ++ [c].
Proof.
  intros Hc. induction s as [|a s IH]; simpl; [by rewrite Hc|].
  rewrite IH. by destruct s.
Qed.

Lemma word_snoc w : is_word w -> exists s c, w = s ++ [c] /\ isspace c = false.
Proof.
  intros [Hne Hw]. destruct (exists_last Hne) as (s & c & ->).
  exists s, c. split; [done|].
  apply Forall_app in Hw as [_ Hc]. by inversion Hc.
Qed.

Lemma join_word_last ws :
  Forall is_word ws -> ws <> [] ->
  exists s c, join [ch_space] ws = s ++ [c] /\ isspace c = false.
Proof.
  induction 1 as [|w ws Hw Hws IH]; [done|]. intros _.
  destruct ws as [|w' ws']; [by apply word_snoc|].
  destruct IH as (s & c & Heq & Hc); [done|].
  exists (w ++ ch_space :: s), c. split; [|done].
  change (join [ch_space] (w :: w' :: ws'))
    with (w ++ ch_space :: join [ch_space] (w' :: ws')).
  rewrite Heq. by rewrite <- app_assoc.
Qed.

Lemma strip_join ws :
  Forall is_word ws -> strip (join [ch_space] ws) = join [ch_space] ws.
Proof.
  intros Hws. destruct ws as [|w ws]; [done|].
  unfold strip. inversion Hws as [|? ? Hw _]; subst.
  destruct (join_word_head [ch_space] w ws Hw) as (c & t & Heq & Hc).
  rewrite Heq, lstrip_nonspace, <- Heq by done.
  destruct (join_word_last (w :: ws)) as (s & c' & -> & Hc'); [done..|].
  by apply rstrip_snoc.
Qed.

End Words.

(** ** Normalisation *)

Section Normalisation.

Implicit Types (c d : N) (s t w text : pystr) (ws : list pystr).

Lemma isspace_minus_to_hyphen c : isspace (minus_to_hyphen c) = isspace c.
Proof.
  unfold minus_to_hyphen. destruct (N.eqb_spec c ch_minus) as [->|]; done.
Qed.

Lemma minus_to_hyphen_idemp c :
  minus_to_hyphen (minus_to_hyphen c) = minus_to_hyphen c.
Proof.
  unfold minus_to_hyphen. destruct (N.eqb_spec c ch_minus) as [->|Hne]; [done|].
  by destruct (N.eqb_spec c ch_minus).
Qed.


Lemma words_minus_to_hyphen ws :
  Forall is_word ws -> Forall is_word (List.map (List.map minus_to_hyphen) ws).
Proof.
  induction 1 as [|w ws [Hne Hw] Hws IH]; constructor; [|done].
  split; [by destruct w|].
  apply Forall_forall. intros c Hin%list_elem_of_In.
  apply in_map_iff in Hin as (d & <- & Hd).
  rewrite isspace_minus_to_hyphen.
  by apply (proj1 (Forall_forall _ _) Hw), list_elem_of_In.
Qed.

(** The normal form in terms of the words of the input. *)
Lemma normalize_words text :
  normalize_equation_text text
  = join [ch_space] (List.map (List.map minus_to_hyphen) (split text)).
Proof.
  unfold normalize_equation_text, replace.
  change (fun c => if (c =? ch_minus)%N then ch_hyphen else c)
    with minus_to_hyphen.
  rewrite join_map. change (List.map minus_to_hyphen [ch_space]) with [ch_space].
  apply strip_join, words_minus_to_hyphen, split_words.
Qed.

Lemma split_normalize text :
  split (normalize_equation_text text)
  = List.map (List.map minus_to_hyphen) (split text).
Proof.
  rewrite normalize_words.
  apply split_join, words_minus_to_hyphen, split_words.
Qed.

Lemma normalize_idempotent text :
  normalize_equation_text (normalize_equation_text text)
  = normalize_equation_text text.
Proof.
  rewrite (normalize_words (normalize_equation_text text)), split_normalize.
  rewrite List.map_map, normalize_words. f_equal.
  apply List.map_ext. intros w. rewrite List.map_map.
  apply List.map_ext, minus_to_hyphen_idemp.
Qed.

(** *** The step-by-step wording agrees with the one-pass code *)




Lemma lstrip_head s :
  lstrip s = [] \/ exists c t, lstrip s = c :: t /\ isspace c = false.
Proof.
  induction s as [|c s IH]; [by left|].
  simpl. destruct (isspace c) eqn:Hc; [done|]. right. eauto.
Qed.

Lemma join_words_nonempty sep w ws : is_word w -> join sep (w :: ws) <> [].
Proof.
  intros Hw. by destruct (join_word_head sep w ws Hw) as (c & t & -> & _).
Qed.




(** *** Shape of a normal form *)




End Normalisation.


Example normalize_demo :
  normalize_equation_text
    (lit "  VOUT " ++ [10%N; 9%N] ++ lit "=  5" ++ [ch_minus] ++ lit "V " ++ [160%N])
  = lit "VOUT = 5-V".
Proof. reflexivity. Qed.

(** C8: normalising a normalised string changes nothing. *)
Theorem normalize_equation_text_idempotent (s : pystr) :
  normalize_equation_text (normalize_equation_text s)
  = normalize_equation_text s.
Proof. apply normalize_idempotent. Qed.

(** ** The classifier *)

Section ClassifierFacts.

Variable nd_beyond_ascii : N -> bool.

Implicit Types (c : N) (t text : pystr).

Lemma contains_elem_of c t : contains c t = true <-> c ∈ t.
Proof.
  unfold contains. rewrite existsb_exists. split.
  - intros (x & Hx & ->%N.eqb_eq). by apply list_elem_of_In.
  - intros Hc. exists c. split; [by apply list_elem_of_In | apply N.eqb_refl].
Qed.

Lemma search_any_elem_of alts t :
  search_any alts t = true <-> exists c, c ∈ alts /\ c ∈ t.
Proof.
  unfold search_any. rewrite existsb_exists. split.
  - intros (c & Hc%list_elem_of_In & Halt). exists c. split; [|done].
    by apply contains_elem_of in Halt.
  - intros (c & Halt & Hc). exists c. split; [by apply list_elem_of_In|].
    by apply contains_elem_of.
Qed.



(** The classifier as one conjunction of its five tests. *)
Lemma looks_like_equation_tests text min_len require_equals :
  let n := normalize_equation_text text in
  looks_like_equation nd_beyond_ascii text min_len require_equals
  = (min_len <=? len n)
    && search_any EQUATION_HINT n
    && implb require_equals (existsb (fun ch => contains ch n) RELATIONAL)
    && negb ((16 <=? len (split n))
             && negb (existsb (fun ch => contains ch n) PROSE_EXEMPT))
    && (existsb is_ascii_letter n
        && (existsb (re_digit nd_beyond_ascii) n || contains ch_equals n)).
Proof.
  intros n. unfold looks_like_equation. fold n.
  rewrite (Z.ltb_antisym min_len (len n)).
  destruct (min_len <=? len n); [|done]. simpl negb at 1. cbv iota.
  destruct (search_any EQUATION_HINT n); [|done]. simpl negb at 1. cbv iota.
  rewrite !andb_true_l, andb_true_r.
  replace (implb require_equals (existsb (fun ch => contains ch n) RELATIONAL))
    with (negb (require_equals && negb (contains ch_equals n)
                && negb (contains ch_le n) && negb (contains ch_ge n)
                && negb (contains ch_approx n) && negb (contains ch_neq n))).
  2:{ simpl. destruct require_equals, (contains ch_equals n),
        (contains ch_le n), (contains ch_ge n), (contains ch_approx n),
        (contains ch_neq n); done. }
  destruct (require_equals && _ && _ && _ && _ && _); [done|].
  simpl negb at 1. rewrite andb_true_l.
  fold PROSE_EXEMPT.
  by destruct ((16 <=? len (split n)) && _).
Qed.

End ClassifierFacts.



(** The scenarios of the classifier that fail an early test. *)
Example looks_like_equation_prose (nd_beyond_ascii : N -> bool) :
  looks_like_equation nd_beyond_ascii
    (lit "See Figure 12 for details on the layout guidelines described in this section of the document which spans many words without symbols")
    6 true
  = false.
Proof. by rewrite looks_like_equation_tests. Qed.

Example looks_like_equation_ratio (nd_beyond_ascii : N -> bool) :
  looks_like_equation nd_beyond_ascii (lit "a/b") 3 true = false.
Proof. by rewrite looks_like_equation_tests. Qed.

(** C9: classifying a text and classifying its normal form give the
    same answer, for every minimum length and either setting of the
    relational toggle. *)
Theorem looks_like_equation_normalize_invariant (nd_beyond_ascii : N -> bool)
    (t : pystr) (m : Z) (r : bool) :
  looks_like_equation nd_beyond_ascii t m r
  = looks_like_equation nd_beyond_ascii (normalize_equation_text t) m r.
Proof.
  unfold looks_like_equation. by rewrite normalize_idempotent.
Qed.

(** ** Sorting *)

Section StableSort.

Context {A K : Type} `{EqDecision K}.
Variable lt : K -> K -> bool.
Variable key : A -> K.

Hypothesis lt_asym : forall k1 k2, lt k1 k2 = true -> lt k2 k1 = false.
Hypothesis le_trans :
  forall k1 k2 k3, lt k2 k1 = false -> lt k3 k2 = false -> lt k3 k1 = false.

Lemma lt_irrefl k : lt k k = false.
Proof. destruct (lt k k) eqn:Hk; [by rewrite (lt_asym k k Hk) in Hk | done]. Qed.

Lemma insert_by_perm x l : insert_by lt key x l ≡ₚ x :: l.
Proof.
  induction l as [|y l IH]; [done|].
  simpl. destruct (lt (key y) (key x)); [|done].
  rewrite IH. apply Permutation_swap.
Qed.

Lemma py_sorted_perm l : py_sorted lt key l ≡ₚ l.
Proof.
  induction l as [|x l IH]; [done|].
  simpl. by rewrite insert_by_perm, IH.
Qed.

Lemma insert_by_sorted x l :
  StronglySorted (in_order lt key) l -> StronglySorted (in_order lt key) (insert_by lt key x l).
Proof.
  induction 1 as [|y l Hl IH Hy]; simpl.
  - by repeat constructor.
  - destruct (lt (key y) (key x)) eqn:Hyx.
    + constructor; [done|].
      rewrite insert_by_perm. constructor; [|done].
      by apply lt_asym.
    + constructor; [by constructor|].
      constructor; [done|].
      eapply Forall_impl; [exact Hy|]. intros z Hz.
      by apply (le_trans _ (key y)).
Qed.

Lemma py_sorted_sorted l : StronglySorted (in_order lt key) (py_sorted lt key l).
Proof.
  induction l as [|x l IH]; [constructor|]. by apply insert_by_sorted.
Qed.

(** Insertion never moves [x] behind an element with its own key. *)
Lemma insert_by_filter k x l :
  filter (fun a => key a = k) (insert_by lt key x l)
  = filter (fun a => key a = k) (x :: l).
Proof.
  induction l as [|y l IH]; [done|].
  simpl. destruct (lt (key y) (key x)) eqn:Hyx; [|done].
  rewrite (filter_cons _ y), IH, !(filter_cons _ x), (filter_cons _ y).
  destruct (decide (key y = k)) as [Hy|]; [|done].
  destruct (decide (key x = k)) as [Hx|]; [|done].
  rewrite Hy, Hx, lt_irrefl in Hyx. done.
Qed.

Lemma py_sorted_stable k l :
  filter (fun a => key a = k) (py_sorted lt key l)
  = filter (fun a => key a = k) l.
Proof.
  induction l as [|x l IH]; [done|].
  simpl. by rewrite insert_by_filter, !filter_cons, IH.
Qed.

(** Two sorted lists that hold, for every key, the same elements in
    the same order are one list: the result of a stable sort does not
    depend on how it is computed. *)
Hypothesis lt_total :
  forall k1 k2, lt k1 k2 = false -> lt k2 k1 = false -> k1 = k2.

Lemma stable_sorted_unique l1 l2 :
  StronglySorted (in_order lt key) l1 -> StronglySorted (in_order lt key) l2 ->
  (forall k, filter (fun a => key a = k) l1 = filter (fun a => key a = k) l2) ->
  l1 = l2.
Proof.
  intros Hs1. revert l2.
  induction Hs1 as [|x l1 Hs1 IH Hx]; intros l2 Hs2 Hsame.
  - destruct l2 as [|y l2]; [done|].
    specialize (Hsame (key y)). rewrite filter_cons, decide_True in Hsame by done.
    done.
  - destruct Hs2 as [|y l2 Hs2 Hy].
    { specialize (Hsame (key x)).
      rewrite filter_cons, decide_True in Hsame by done. done. }
    assert (Hin : forall (a : A) (l l' : list A),
              a ∈ l ->
              filter (fun b => key b = key a) l = filter (fun b => key b = key a) l' ->
              a ∈ l').
    { intros a l l' Ha Heq.
      assert (Hf : a ∈ filter (fun b => key b = key a) l)
        by (by apply list_elem_of_filter).
      rewrite Heq in Hf. by apply list_elem_of_filter in Hf as [_ ?]. }
    assert (Hkey : key x = key y).
    { apply lt_total.
      - assert (Hxy : x ∈ y :: l2) by (apply (Hin x (x :: l1)); [left | done]).
        apply elem_of_cons in Hxy as [->|Hxy]; [apply lt_irrefl|].
        rewrite Forall_forall in Hy. by apply Hy.
      - assert (Hyx : y ∈ x :: l1)
          by (apply (Hin y (y :: l2)); [left | by rewrite Hsame]).
        apply elem_of_cons in Hyx as [->|Hyx]; [apply lt_irrefl|].
        rewrite Forall_forall in Hx. by apply Hx. }
    pose proof (Hsame (key x)) as Hhead.
    rewrite !filter_cons, decide_True, (decide_True (P := key y = key x))
      in Hhead by done.
    injection Hhead as -> Htail. f_equal. apply IH; [done|].
    intros k. destruct (decide (key y = k)) as [<-|Hne]; [done|].
    specialize (Hsame k). by rewrite !filter_cons, !decide_False in Hsame.
Qed.

Lemma py_sorted_unique l l' :
  StronglySorted (in_order lt key) l' ->
  (forall k, filter (fun a => key a = k) l' = filter (fun a => key a = k) l) ->
  l' = py_sorted lt key l.
Proof.
  intros Hs Hsame. apply stable_sorted_unique; [done | apply py_sorted_sorted|].
  intros k. by rewrite py_sorted_stable.
Qed.

End StableSort.

Lemma StronglySorted_weaken {A} (R R' : A -> A -> Prop) (l : list A) :
  (forall a b, R a b -> R' a b) -> StronglySorted R l -> StronglySorted R' l.
Proof.
  intros HR. induction 1 as [|x l Hl IH Hx]; constructor; [done|].
  eapply Forall_impl; [exact Hx | auto].
Qed.

Section PositionOrder.

Implicit Types (k : Qc * Qc).

Lemma key_lt_true k1 k2 :
  key_lt k1 k2 = true
  <-> (k1.1 < k2.1)%Qc \/ (k1.1 = k2.1 /\ (k1.2 < k2.2)%Qc).
Proof.
  unfold key_lt. destruct (decide (k1.1 = k2.1)) as [Heq|Hne];
    rewrite bool_decide_eq_true.
  - split; [by right|]. intros [Hlt|[_ ?]]; [|done].
    by apply Qclt_not_eq in Hlt.
  - split; [by left|]. by intros [?|[? _]].
Qed.

Lemma key_lt_false k1 k2 : key_lt k2 k1 = false <-> position_le k1 k2.
Proof.
  unfold position_le. rewrite <- not_true_iff_false, key_lt_true. split.
  - intros Hnot.
    destruct (Qclt_le_dec k1.1 k2.1) as [|Hle]; [by left|]. right.
    destruct (Qcle_lt_or_eq _ _ Hle) as [Hlt|Heq];
      [exfalso; apply Hnot; by left|].
    split; [done|]. apply Qcnot_lt_le. intros Hlt. apply Hnot. by right.
  - intros [Hlt|[Heq Hle]] [Hlt'|[Heq' Hlt']].
    + by apply (Qclt_not_le _ _ Hlt), Qclt_le_weak.
    + rewrite Heq' in Hlt. by apply Qclt_not_eq in Hlt.
    + rewrite Heq in Hlt'. by apply Qclt_not_eq in Hlt'.
    + by apply (Qclt_not_le _ _ Hlt').
Qed.

Lemma position_le_trans k1 k2 k3 :
  position_le k1 k2 -> position_le k2 k3 -> position_le k1 k3.
Proof.
  unfold position_le. intros [H12|[E12 H12]] [H23|[E23 H23]].
  - left. by apply (Qclt_trans _ k2.1).
  - left. by rewrite <- E23.
  - left. by rewrite E12.
  - right. split; [congruence|]. by apply (Qcle_trans _ k2.2).
Qed.

Lemma key_lt_asym k1 k2 : key_lt k1 k2 = true -> key_lt k2 k1 = false.
Proof.
  rewrite key_lt_true, key_lt_false. unfold position_le.
  intros [?|[? ?]]; [by left|]. right. split; [done|]. by apply Qclt_le_weak.
Qed.

Lemma key_le_trans k1 k2 k3 :
  key_lt k2 k1 = false -> key_lt k3 k2 = false -> key_lt k3 k1 = false.
Proof. rewrite !key_lt_false. apply position_le_trans. Qed.

Lemma key_lt_total k1 k2 :
  key_lt k1 k2 = false -> key_lt k2 k1 = false -> k1 = k2.
Proof.
  rewrite !key_lt_false. unfold position_le.
  destruct k1 as [y1 x1], k2 as [y2 x2]. simpl.
  intros [H21|[E21 H21]] [H12|[E12 H12]].
  - exfalso. apply (Qclt_not_le _ _ H21). by apply Qclt_le_weak.
  - rewrite E12 in H21. by apply Qclt_not_eq in H21.
  - rewrite E21 in H12. by apply Qclt_not_eq in H12.
  - f_equal; [done|]. by apply Qcle_antisym.
Qed.

End PositionOrder.

(** The key of the sort is [(y0, x0)] of the box of the block. *)
Lemma position_key_bbox (b : Block) : position_key b = bbox_key (block_bbox b).
Proof. unfold position_key, bbox_key. by destruct (block_bbox b) as [[[x0 y0] x1] y1]. Qed.

(** C7: the result of [sorted_blocks_by_position] is a permutation of
    its input, ordered by the top edge [y0] of the boxes and then by
    their left edge [x0]: of two blocks of the result, the one that
    comes first has the smaller [y0] or the same [y0] and an [x0] that
    is not greater.  Blocks with the same [(y0, x0)] keep the order they
    had in the input.  It is the only list that is ordered so and keeps,
    for every [(y0, x0)], the blocks with it in their input order.  A
    block whose box is [(x0, y0, x1, y1)] has the key [(y0, x0)], and two
    blocks given lower one first come back upper one first. *)
Theorem sorted_blocks_by_position_stable_sort (blocks : list Block) :
  sorted_blocks_by_position blocks ≡ₚ blocks
  /\ StronglySorted
       (fun a b =>
          ((block_bbox a).1.1.2 < (block_bbox b).1.1.2)%Qc
          \/ ((block_bbox a).1.1.2 = (block_bbox b).1.1.2
              /\ ((block_bbox a).1.1.1 <= (block_bbox b).1.1.1)%Qc))
       (sorted_blocks_by_position blocks)
  /\ (forall y0 x0 : Qc,
        filter (fun b => ((block_bbox b).1.1.2, (block_bbox b).1.1.1)
                         = (y0, x0))
          (sorted_blocks_by_position blocks)
        = filter (fun b => ((block_bbox b).1.1.2, (block_bbox b).1.1.1)
                           = (y0, x0)) blocks)
  /\ (forall blocks',
        StronglySorted
          (fun a b =>
             position_le (bbox_key (block_bbox a)) (bbox_key (block_bbox b)))
          blocks' ->
        (forall k,
           filter (fun b => bbox_key (block_bbox b) = k) blocks'
           = filter (fun b => bbox_key (block_bbox b) = k) blocks) ->
        blocks' = sorted_blocks_by_position blocks)
  /\ (forall (x0 y0 x1 y1 : Qc) (t : option pystr),
        bbox_key (block_bbox {| b_type := 0; b_bbox := Some (x0, y0, x1, y1);
                                b_text := t |})
        = (y0, x0))
  /\ sorted_blocks_by_position
       [ {| b_type := 0; b_bbox := Some (flt 10 1, flt 50 1, flt 110 1, flt 60 1);
            b_text := Some (lit "lower") |};
         {| b_type := 0; b_bbox := Some (flt 10 1, flt 20 1, flt 110 1, flt 30 1);
            b_text := Some (lit "upper") |} ]
     = [ {| b_type := 0; b_bbox := Some (flt 10 1, flt 20 1, flt 110 1, flt 30 1);
            b_text := Some (lit "upper") |};
         {| b_type := 0; b_bbox := Some (flt 10 1, flt 50 1, flt 110 1, flt 60 1);
            b_text := Some (lit "lower") |} ].
Proof.
  split; [apply py_sorted_perm|]. split.
  { eapply StronglySorted_weaken;
      [|apply (py_sorted_sorted key_lt position_key key_lt_asym key_le_trans)].
    intros a b Hab. apply key_lt_false in Hab.
    by rewrite !position_key_bbox in Hab. }
  split.
  { intros y0 x0.
    rewrite !(list_filter_iff
                (fun b => ((block_bbox b).1.1.2, (block_bbox b).1.1.1)
                          = (y0, x0))
                (fun b => position_key b = (y0, x0)))
      by (intros b; by rewrite position_key_bbox).
    apply (py_sorted_stable key_lt position_key key_lt_asym). }
  split.
  { intros blocks' Hsorted Hstable.
    apply (py_sorted_unique key_lt position_key key_lt_asym key_le_trans
             key_lt_total).
    - eapply StronglySorted_weaken; [|exact Hsorted].
      intros a b Hab. apply key_lt_false. by rewrite !position_key_bbox.
    - intros k.
      rewrite !(list_filter_iff (fun b => position_key b = k)
                  (fun b => bbox_key (block_bbox b) = k))
        by (intros b; by rewrite position_key_bbox).
      apply Hstable. }
  split; [done | by vm_compute].
Qed.

(** ** Context *)

Section Context.

Implicit Types (b : Block) (blocks : list Block) (i : nat).

Lemma py_index_nat {A} (l : list A) i : py_index l (Z.of_nat i) = l !! i.
Proof.
  unfold py_index. destruct (Z.leb_spec 0 (Z.of_nat i)); [|lia].
  by rewrite Nat2Z.id.
Qed.

Lemma join_split_normalize (text : pystr) :
  join [ch_space] (split (normalize_equation_text text))
  = normalize_equation_text text.
Proof. by rewrite split_normalize, <- normalize_words. Qed.

Lemma clip_normalize b :
  clip (normalize_equation_text (block_text b)) = snippet b.
Proof. unfold clip, snippet. by rewrite join_split_normalize. Qed.

Lemma snippet_length b : len (snippet b) <= 140.
Proof.
  unfold snippet, len.
  destruct (Z.ltb_spec 140 (Z.of_nat (length (normalize_equation_text (block_text b)))))
    as [Hlong|Hshort]; [|done].
  rewrite length_app, length_take. simpl length. lia.
Qed.

Lemma build_context_neighbours blocks i :
  (i < length blocks)%nat ->
  build_context blocks (Z.of_nat i)
  = Some (join_snippets (snippet <$> prev_neighbour blocks i)
                        (snippet <$> next_neighbour blocks i)).
Proof.
  intros Hi. unfold build_context, next_neighbour, len.
  assert (Hprev :
    (if 0 <=? Z.of_nat i - 1
     then b ← py_index blocks (Z.of_nat i - 1);
          Some (normalize_equation_text (block_text b))
     else Some [])
    = Some (default [] ((fun b => normalize_equation_text (block_text b))
                          <$> prev_neighbour blocks i))).
  { destruct i as [|j]; [done|].
    destruct (Z.leb_spec 0 (Z.of_nat (S j) - 1)); [|lia].
    replace (Z.of_nat (S j) - 1) with (Z.of_nat j) by lia.
    rewrite py_index_nat. simpl.
    destruct (lookup_lt_is_Some_2 blocks j) as [b ->]; [lia | done]. }
  assert (Hnext :
    (if Z.of_nat i + 1 <? Z.of_nat (length blocks)
     then b ← py_index blocks (Z.of_nat i + 1);
          Some (normalize_equation_text (block_text b))
     else Some [])
    = Some (default [] ((fun b => normalize_equation_text (block_text b))
                          <$> blocks !! S i))).
  { replace (Z.of_nat i + 1) with (Z.of_nat (S i)) by lia.
    rewrite py_index_nat.
    destruct (Z.ltb_spec (Z.of_nat (S i)) (Z.of_nat (length blocks))).
    - destruct (lookup_lt_is_Some_2 blocks (S i)) as [b ->]; [lia | done].
    - by rewrite lookup_ge_None_2 by lia. }
  rewrite Hprev, Hnext. simpl. f_equal.
  destruct (prev_neighbour blocks i) as [bp|], (blocks !! S i) as [bn|]; simpl;
    rewrite ?clip_normalize.
  - by destruct (snippet bp), (snippet bn).
  - by destruct (snippet bp).
  - by destruct (snippet bn).
  - done.
Qed.

End Context.

(** C4: at every position of a list of blocks [build_context] returns a
    string, also at the first and the last one. The string is made of
    the snippets of the neighbours before and after: both joined by
    " | " when both exist and are not empty, the only one otherwise, the
    empty string for a list of one block. A snippet is the normalised
    text of the neighbour, or its first 137 characters followed by "..."
    when it has more than 140, so never more than 140 characters. *)
Theorem build_context_total (blocks : list Block) (idx : Z) :
  0 <= idx < len blocks ->
  build_context blocks idx
  = Some (join_snippets
            (snippet <$> prev_neighbour blocks (Z.to_nat idx))
            (snippet <$> next_neighbour blocks (Z.to_nat idx)))
  /\ (forall b, len (snippet b) <= 140)
  /\ (forall b, build_context [b] 0 = Some []).
Proof.
  unfold len. intros Hidx. split.
  - rewrite <- (Z2Nat.id idx) at 1 by lia.
    apply build_context_neighbours. lia.
  - split; [apply snippet_length|].
    intros b. exact (build_context_neighbours [b] 0 (Nat.lt_0_succ 0)).
Qed.

Lemma build_context_total_witness :
  0 <= 1 < len [text_block "Figure 12"; text_block "VOUT = 5 V";
                text_block "where  VOUT is set"]
  /\ build_context [text_block "Figure 12"; text_block "VOUT = 5 V";
                    text_block "where  VOUT is set"] 1
     = Some (lit "Figure 12 | where VOUT is set").
Proof.
  assert (H : 0 <= 1 < len [text_block "Figure 12"; text_block "VOUT = 5 V";
                            text_block "where  VOUT is set"])
    by (unfold len; simpl; lia).
  split; [exact H|].
  exact (proj1 (build_context_total _ 1 H)).
Defined.

(** ** Deduplication *)

Section FirstOccurrences.

Context {A K : Type} `{EqDecision K}.
Variable key : A -> K.

Implicit Types (x : A) (l before : list A).

Lemma first_occurrences_from_sublist before l :
  first_occurrences_from key before l `sublist_of` l.
Proof.
  revert before. induction l as [|x l IH]; intros before; [constructor|].
  simpl. destruct (decide (key x ∈ key <$> before)); simpl.
  - by apply sublist_cons.
  - by apply sublist_skip.
Qed.

Lemma first_occurrences_from_fresh before l x :
  x ∈ first_occurrences_from key before l -> key x ∉ key <$> before.
Proof.
  revert before. induction l as [|y l IH]; intros before; [by intros ?%elem_of_nil|].
  simpl. intros [Hx|Hx]%elem_of_app.
  - destruct (decide (key y ∈ key <$> before)); [by apply elem_of_nil in Hx|].
    by apply list_elem_of_singleton in Hx as ->.
  - apply IH in Hx. rewrite fmap_app in Hx.
    intros Hb. apply Hx, elem_of_app. by left.
Qed.

Lemma first_occurrences_from_NoDup before l :
  NoDup (key <$> first_occurrences_from key before l).
Proof.
  revert before. induction l as [|x l IH]; intros before; [constructor|].
  simpl. rewrite fmap_app.
  destruct (decide (key x ∈ key <$> before)); [apply IH|].
  simpl. constructor; [|apply IH].
  intros (y & Hy & Hin)%list_elem_of_fmap.
  apply first_occurrences_from_fresh in Hin.
  rewrite fmap_app in Hin. set_solver.
Qed.


(** A kept element stands in the input behind no element with its key. *)
Lemma first_occurrences_from_first before l x :
  x ∈ first_occurrences_from key before l ->
  exists pre post,
    l = pre ++ x :: post /\ key x ∉ key <$> (before ++ pre).
Proof.
  revert before. induction l as [|y l IH]; intros before; [by intros ?%elem_of_nil|].
  simpl. intros [Hx|Hx]%elem_of_app.
  - destruct (decide (key y ∈ key <$> before)) as [|Hfresh];
      [by apply elem_of_nil in Hx|].
    apply list_elem_of_singleton in Hx as ->.
    exists [], l. by rewrite app_nil_r.
  - destruct (IH _ Hx) as (pre & post & -> & Hfresh).
    exists (y :: pre), post. split; [done|].
    by rewrite <- app_assoc in Hfresh.
Qed.


End FirstOccurrences.

Section Dedupe.

Implicit Types (item : Triple) (items before out : list Triple)
  (seen : gset Triple).

Lemma normalize_item_idemp item :
  normalize_item (normalize_item item) = normalize_item item.
Proof. destruct item as [[p t] bb]. simpl. by rewrite normalize_idempotent. Qed.

Lemma dedupe_key_normalize_item item :
  dedupe_key (normalize_item item) = dedupe_key item.
Proof. destruct item as [[p t] bb]. simpl. by rewrite normalize_idempotent. Qed.

Lemma dedupe_step_key seen out item :
  dedupe_step (seen, out) item
  = if decide (dedupe_key item ∈ seen) then (seen, out)
    else ({[ dedupe_key item ]} ∪ seen, out ++ [normalize_item item]).
Proof. by destruct item as [[page_num text] bbox]. Qed.

(** The loop of [dedupe], from a state whose [seen] holds the keys of
    the items read so far. *)
Lemma dedupe_loop items before seen out :
  (forall k, k ∈ seen <-> k ∈ dedupe_key <$> before) ->
  (fold_left dedupe_step items (seen, out)).2
  = out ++ (normalize_item <$> first_occurrences_from dedupe_key before items).
Proof.
  revert before seen out.
  induction items as [|item items IH]; intros before seen out Hseen.
  - simpl. by rewrite app_nil_r.
  - change (fold_left dedupe_step (item :: items) (seen, out))
      with (fold_left dedupe_step items (dedupe_step (seen, out) item)).
    change (first_occurrences_from dedupe_key before (item :: items))
      with ((if decide (dedupe_key item ∈ dedupe_key <$> before)
             then [] else [item])
            ++ first_occurrences_from dedupe_key (before ++ [item]) items).
    rewrite dedupe_step_key.
    destruct (decide (dedupe_key item ∈ seen)) as [Hin|Hout].
    + rewrite decide_True by (by apply Hseen).
      apply IH. intros k. rewrite fmap_app, Hseen, elem_of_app.
      split; [by left|]. intros [?|Hk]; [done|].
      apply list_elem_of_singleton in Hk as ->. by apply Hseen.
    + rewrite decide_False by (by rewrite <- Hseen).
      rewrite (IH (before ++ [item])).
      * by rewrite fmap_app, <- app_assoc.
      * intros k. rewrite fmap_app, elem_of_union, elem_of_app, Hseen,
          elem_of_singleton. simpl. rewrite list_elem_of_singleton. tauto.
Qed.

Lemma dedupe_first_occurrences items :
  dedupe items = normalize_item <$> first_occurrences dedupe_key items.
Proof.
  unfold dedupe, first_occurrences.
  rewrite (dedupe_loop items [] ∅ []); [done|]. set_solver.
Qed.

Lemma dedupe_keys items :
  dedupe_key <$> dedupe items
  = dedupe_key <$> first_occurrences dedupe_key items.
Proof.
  rewrite dedupe_first_occurrences, <- list_fmap_compose.
  apply list_fmap_ext. intros i x _. apply dedupe_key_normalize_item.
Qed.

Lemma dedupe_same_key item1 item2 :
  dedupe_key item1 = dedupe_key item2 ->
  dedupe [item1; item2] = [normalize_item item1].
Proof.
  intros Hkey. rewrite dedupe_first_occurrences.
  unfold first_occurrences.
  change (first_occurrences_from dedupe_key [] [item1; item2])
    with ((if decide (dedupe_key item1 ∈ dedupe_key <$> [])
           then [] else [item1])
          ++ (if decide (dedupe_key item2 ∈ [dedupe_key item1])
              then [] else [item2]) ++ []).
  rewrite decide_False by apply not_elem_of_nil.
  rewrite decide_True by (rewrite Hkey; left). done.
Qed.

Lemma round1_same (a b : Qc) :
  round_half_even (a * inject_Z 10) = round_half_even (b * inject_Z 10) ->
  round1 a = round1 b.
Proof. unfold round1. by intros ->. Qed.

End Dedupe.

Lemma dedupe_distinct_keys (item1 item2 : Triple) :
  dedupe_key item1 <> dedupe_key item2 ->
  dedupe [item1; item2] = [normalize_item item1; normalize_item item2].
Proof.
  intros Hkey. rewrite dedupe_first_occurrences.
  unfold first_occurrences.
  change (first_occurrences_from dedupe_key [] [item1; item2])
    with ((if decide (dedupe_key item1 ∈ dedupe_key <$> [])
           then [] else [item1])
          ++ (if decide (dedupe_key item2 ∈ [dedupe_key item1])
              then [] else [item2]) ++ []).
  rewrite decide_False by apply not_elem_of_nil.
  rewrite decide_False; [done|].
  intros Hin. by apply list_elem_of_singleton in Hin.
Qed.

Lemma dedupe_first (items : list Triple) (y : Triple) :
  y ∈ dedupe items ->
  exists pre x post,
    items = pre ++ x :: post /\ y = normalize_item x
    /\ dedupe_key x ∉ dedupe_key <$> pre.
Proof.
  rewrite dedupe_first_occurrences. intros (x & -> & Hx)%list_elem_of_fmap.
  apply first_occurrences_from_first in Hx as (pre & post & -> & Hfresh).
  by exists pre, x, post.
Qed.

Lemma dedupe_key_triple (page_num : Z) (text : pystr) (bbox : BBox) :
  dedupe_key (page_num, text, bbox)
  = (page_num, normalize_equation_text text, round_bbox bbox).
Proof. done. Qed.

Lemma round_bbox_jitter : round_bbox bbox_jitter = round_bbox bbox_exact.
Proof.
  unfold bbox_jitter, bbox_exact, round_bbox.
  rewrite (round1_same (flt 1413004383087493 140737488355328) (flt 10 1))
    by (by vm_compute).
  rewrite (round1_same (flt 5623870034678907 281474976710656) (flt 20 1))
    by (by vm_compute).
  rewrite (round1_same (flt 7038281792649953 140737488355328) (flt 50 1))
    by (by vm_compute).
  rewrite (round1_same (flt 8449878800853893 281474976710656) (flt 30 1))
    by (by vm_compute).
  done.
Qed.

(** ** Loops *)

Section Loops.

Context {S A : Type}.
Implicit Types (body : S -> A -> option S) (st : S) (l : list A).

(** A loop whose body keeps an invariant and raises on no element of
    the list runs to its end. *)
Lemma for_each_invariant (P : S -> Prop) (Q : A -> Prop) body st l :
  Forall Q l -> P st ->
  (forall st x, Q x -> P st -> exists st', body st x = Some st' /\ P st') ->
  exists st', for_each body st l = Some st' /\ P st'.
Proof.
  intros Hl Hst Hbody. revert st Hst.
  induction Hl as [|x l Hx Hl IH]; intros st Hst; [by exists st|].
  destruct (Hbody st x Hx Hst) as (st' & Hstep & Hst').
  destruct (IH st' Hst') as (st'' & Hrest & Hst'').
  exists st''. simpl. by rewrite Hstep.
Qed.

End Loops.

Lemma enumerate_bounds {A} (start : Z) (l : list A) :
  Forall (fun ib => start <= ib.1 < start + len l) (enumerate start l).
Proof.
  unfold len. revert start. induction l as [|x l IH]; intros start; [constructor|].
  simpl enumerate. constructor; [simpl; lia|].
  eapply Forall_impl; [apply IH|]. intros ib. simpl. lia.
Qed.

Lemma enumerate_fst {A} (start : Z) (l : list A) :
  fst <$> enumerate start l = py_range start (start + len l).
Proof.
  unfold py_range, len. revert start. induction l as [|x l IH]; intros start.
  - by replace (start + Z.of_nat (length (@nil A)) - start) with 0 by (simpl; lia).
  - replace (Z.to_nat (start + Z.of_nat (length (x :: l)) - start))
      with (Datatypes.S (length l)) by (simpl; lia).
    simpl enumerate. rewrite fmap_cons, IH.
    replace (Z.to_nat (start + 1 + Z.of_nat (length l) - (start + 1)))
      with (length l) by lia.
    simpl. f_equal; [lia|].
    rewrite <- seq_shift, List.map_map. apply List.map_ext. intros i. lia.
Qed.

Lemma enumerate_snd {A} (start : Z) (l : list A) :
  snd <$> enumerate start l = l.
Proof. revert start. induction l as [|x l IH]; intros start; simpl; by rewrite ?IH. Qed.

Lemma py_range_bounds (a b : Z) : Forall (fun i => a <= i < b) (py_range a b).
Proof.
  unfold py_range. apply Forall_forall. intros i Hi%list_elem_of_In.
  apply in_map_iff in Hi as (n & <- & Hn%in_seq). lia.
Qed.

Lemma elem_of_py_range (a b k : Z) : k ∈ py_range a b <-> a <= k < b.
Proof.
  unfold py_range. rewrite list_elem_of_In, in_map_iff. split.
  - intros (n & <- & Hn%in_seq). lia.
  - intros Hk. exists (Z.to_nat (k - a)). split; [lia|]. apply in_seq. lia.
Qed.

Lemma py_range_NoDup (a b : Z) : NoDup (py_range a b).
Proof.
  unfold py_range. apply NoDup_ListNoDup, Finite.Injective_map_NoDup.
  - intros i j. lia.
  - apply seq_NoDup.
Qed.

Lemma load_page_in_range (doc : list Page) (pno : Z) :
  0 <= pno < len doc -> load_page doc pno = doc !! Z.to_nat pno
                        /\ is_Some (load_page doc pno).
Proof.
  unfold load_page, len. intros Hpno.
  destruct (Z.ltb_spec pno (Z.of_nat (length doc))); [|lia].
  rewrite Z.mod_small by lia. split; [done|].
  apply lookup_lt_is_Some_2. lia.
Qed.

(** ** The numbering loop *)

Section MainFacts.

Variable nd_beyond_ascii : N -> bool.
Variable render_crop : Page -> BBox -> Qc -> ImagePath -> option unit.

Implicit Types (args : Args) (doc : list Page) (candidates : list Candidate)
  (deduped : list Triple) (ctx_map : gmap Triple pystr).

Lemma scan_block_ok args doc blocks page_index candidates (ib : Z * Block) :
  0 <= page_index < len doc ->
  0 <= ib.1 < 0 + len blocks ->
  pages_within doc candidates ->
  exists candidates',
    scan_block nd_beyond_ascii args blocks page_index candidates ib
    = Some candidates'
    /\ pages_within doc candidates'.
Proof.
  intros Hpage Hidx Hcands. destruct ib as [idx b]. simpl in Hidx.
  unfold scan_block.
  destruct (is_empty (block_text b)); [by exists candidates|].
  destruct (negb _); [by exists candidates|].
  rewrite <- (Z2Nat.id idx) by lia.
  rewrite build_context_neighbours by (unfold len in Hidx; lia).
  eexists. split; [done|].
  apply Forall_app. split; [done|]. constructor; [simpl; lia | constructor].
Qed.

Lemma scan_page_ok args doc candidates page_index :
  0 <= page_index < len doc ->
  pages_within doc candidates ->
  exists candidates',
    scan_page nd_beyond_ascii args doc candidates page_index = Some candidates'
    /\ pages_within doc candidates'.
Proof.
  intros Hpage Hcands. unfold scan_page.
  destruct (load_page_in_range doc page_index Hpage) as [_ [pg ->]]. simpl.
  apply (for_each_invariant (pages_within doc)
           (fun ib => 0 <= ib.1 < 0 + len (sorted_blocks_by_position
                                             (extract_text_blocks pg))));
    [apply enumerate_bounds | done |].
  intros st ib Hib Hst. by apply scan_block_ok.
Qed.

Lemma scan_document_ok args doc :
  exists candidates,
    scan_document nd_beyond_ascii args doc = Some candidates
    /\ pages_within doc candidates.
Proof.
  unfold scan_document.
  apply (for_each_invariant (pages_within doc) (fun i => 0 <= i < len doc));
    [apply py_range_bounds | constructor |].
  intros st i Hi Hst. by apply scan_page_ok.
Qed.

Lemma numbered_items_cons ctx_map start (d : Triple) deduped :
  numbered_items ctx_map start (d :: deduped)
  = {| eq_id := start; page := d.1.1; text := d.1.2;
       context := default [] (ctx_map !! (d.1.1, d.1.2, round_bbox d.2));
       bbox := d.2;
       image_path := {| img_page := d.1.1; img_id := start |} |}
    :: numbered_items ctx_map (start + 1) deduped.
Proof. by destruct d as [[page_num text_norm] bbox]. Qed.

(** The loop over the deduplicated candidates, from any state. *)
Lemma emit_loop args doc ctx_map deduped (eq_items : list EquationItem)
    (next_id : Z) :
  for_each (emit_item render_crop args doc ctx_map) (eq_items, next_id) deduped
  = if forallb (render_succeeds render_crop args doc)
         (enumerate next_id deduped)
    then Some (eq_items ++ numbered_items ctx_map next_id deduped,
               next_id + len deduped)
    else None.
Proof.
  unfold len. revert eq_items next_id.
  induction deduped as [|d deduped IH]; intros eq_items next_id.
  - simpl. by rewrite app_nil_r, Z.add_0_r.
  - rewrite numbered_items_cons.
    destruct d as [[page_num text_norm] bbox].
    simpl for_each. simpl enumerate. simpl forallb.
    destruct (load_page doc (page_num - 1)) as [pg|]; [|done]. simpl.
    destruct (render_crop pg bbox (arg_zoom args)
                {| img_page := page_num; img_id := next_id |}) as [[]|];
      [|done].
    rewrite bool_decide_eq_true_2 by done. simpl. rewrite IH.
    destruct (forallb _ _); [|done].
    rewrite <- app_assoc. do 2 f_equal. simpl length. lia.
Qed.

Lemma numbered_items_ids ctx_map start deduped :
  eq_id <$> numbered_items ctx_map start deduped
  = py_range start (start + len deduped).
Proof.
  unfold numbered_items. rewrite <- list_fmap_compose, <- enumerate_fst.
  apply list_fmap_ext. by intros i [n [[p t] bb]] _.
Qed.

Lemma numbered_items_triples ctx_map start deduped :
  item_triple <$> numbered_items ctx_map start deduped = deduped.
Proof.
  unfold numbered_items. rewrite <- list_fmap_compose.
  transitivity (snd <$> enumerate start deduped); [|apply enumerate_snd].
  apply list_fmap_ext. by intros i [n [[p t] bb]] _.
Qed.

Lemma deduped_pages doc candidates :
  pages_within doc candidates ->
  Forall (fun d : Triple => is_Some (load_page doc (d.1.1 - 1)))
    (dedupe (candidate_triple <$> candidates)).
Proof.
  intros Hcands. apply Forall_forall.
  intros y (pre & x & post & Hitems & -> & _)%dedupe_first.
  assert (Hx : x ∈ candidate_triple <$> candidates)
    by (rewrite Hitems, elem_of_app; right; left).
  apply list_elem_of_fmap in Hx as (c & -> & Hc).
  unfold pages_within in Hcands. rewrite Forall_forall in Hcands.
  specialize (Hcands c Hc). destruct c as [[[p t] bb] ctx]. simpl in *.
  apply load_page_in_range. lia.
Qed.

End MainFacts.

(** C3: a run of [main] first collects the candidates of all pages,
    which cannot fail, and deduplicates the whole list; only then it
    numbers the N surviving candidates, in their order, from 1. When
    every snapshot can be rendered the emitted items are these
    candidates with the identifiers 1, ..., N, without gap or repeat;
    otherwise the run ends in the renderer's exception and emits
    nothing. *)
Theorem main_identifiers_dense (nd_beyond_ascii : N -> bool)
    (render_crop : Page -> BBox -> Qc -> ImagePath -> option unit)
    (args : Args) (doc : list Page) :
  exists candidates,
    scan_document nd_beyond_ascii args doc = Some candidates
    /\ Forall (fun d : Triple => is_Some (load_page doc (d.1.1 - 1)))
         (dedupe (candidate_triple <$> candidates))
    /\ main nd_beyond_ascii render_crop args doc
       = (if forallb (render_succeeds render_crop args doc)
               (enumerate 1 (dedupe (candidate_triple <$> candidates)))
          then Some (numbered_items (context_map candidates) 1
                       (dedupe (candidate_triple <$> candidates)))
          else None)
    /\ eq_id <$> numbered_items (context_map candidates) 1
                   (dedupe (candidate_triple <$> candidates))
       = py_range 1 (1 + len (dedupe (candidate_triple <$> candidates)))
    /\ (forall k,
          k ∈ eq_id <$> numbered_items (context_map candidates) 1
                          (dedupe (candidate_triple <$> candidates))
          <-> 1 <= k <= len (dedupe (candidate_triple <$> candidates)))
    /\ NoDup (eq_id <$> numbered_items (context_map candidates) 1
                          (dedupe (candidate_triple <$> candidates)))
    /\ item_triple <$> numbered_items (context_map candidates) 1
                         (dedupe (candidate_triple <$> candidates))
       = dedupe (candidate_triple <$> candidates).
Proof.
  destruct (scan_document_ok nd_beyond_ascii args doc)
    as (candidates & Hscan & Hpages).
  exists candidates. split; [done|].
  split; [by apply deduped_pages|].
  split.
  { unfold main. rewrite Hscan. simpl. rewrite emit_loop.
    by destruct (forallb _ _). }
  rewrite numbered_items_ids.
  split; [done|].
  split; [intros k; rewrite elem_of_py_range; lia|].
  split; [apply py_range_NoDup | apply numbered_items_triples].
Qed.

(** C10: the rounded box is used in the key only. Each element of the
    result is the page, the normalised text and the bounding box, as it
    was given, of the first element of its key: the boxes of the result
    are those of the first occurrences, unrounded, also when a dropped
    duplicate had slightly different coordinates, and they are the
    boxes of the numbered items, from which the crops are rendered. *)
Theorem dedupe_emits_first_seen_bbox (items : list Triple) :
  dedupe items
  = (fun x => (x.1.1, normalize_equation_text x.1.2, x.2))
      <$> first_occurrences dedupe_key items
  /\ snd <$> dedupe items = snd <$> first_occurrences dedupe_key items
  /\ (forall y, y ∈ dedupe items ->
        exists pre x post,
          items = pre ++ x :: post
          /\ (dedupe_key x ∉ dedupe_key <$> pre)
          /\ y.1.1 = x.1.1
          /\ y.1.2 = normalize_equation_text x.1.2
          /\ y.2 = x.2)
  /\ (forall ctx_map start,
        bbox <$> numbered_items ctx_map start (dedupe items)
        = snd <$> first_occurrences dedupe_key items)
  /\ (forall page_num text,
        dedupe [(page_num, text, bbox_jitter); (page_num, text, bbox_exact)]
        = [(page_num, normalize_equation_text text, bbox_jitter)])
  /\ round_bbox bbox_jitter <> bbox_jitter.
Proof.
  assert (Hitem : forall x : Triple,
            normalize_item x = (x.1.1, normalize_equation_text x.1.2, x.2))
    by (by intros [[p t] bb]).
  assert (Hboxes : snd <$> dedupe items
                   = snd <$> first_occurrences dedupe_key items).
  { rewrite dedupe_first_occurrences, <- list_fmap_compose.
    apply list_fmap_ext. by intros i [[p t] bb] _. }
  split.
  { rewrite dedupe_first_occurrences. apply list_fmap_ext. by intros i x _. }
  split; [done|].
  split.
  { intros y (pre & x & post & -> & -> & Hfresh)%dedupe_first.
    exists pre, x, post. by rewrite Hitem. }
  split.
  { intros ctx_map start. rewrite <- Hboxes.
    rewrite <- (numbered_items_triples ctx_map start (dedupe items)) at 2.
    by rewrite <- list_fmap_compose. }
  split.
  { intros page_num text. apply dedupe_same_key.
    by rewrite !dedupe_key_triple, round_bbox_jitter. }
  intros Heq. apply (f_equal (fun bb : BBox => this bb.2)) in Heq.
  vm_compute in Heq. discriminate.
Qed.

(** A run on two pages: the repeated equation of the first page is
    numbered once, the same text on the second page again. *)
Example main_sample_run :
  List.map (fun item => (eq_id item, page item, text item, context item))
    <$> main (fun _ => false) (fun _ _ _ _ => Some ()) sample_args sample_pages
  = Some [ (1, 1, lit "VOUT = 5 V", lit "VOUT = 5 V");
           (2, 2, lit "VOUT = 5 V", lit "fSW = 440 kHz");
           (3, 2, lit "fSW = 440 kHz", lit "VOUT = 5 V") ].
Proof. by vm_compute. Qed.

(** A snapshot that cannot be rendered ends the run. *)
Example main_sample_render_failure :
  main (fun _ => false)
    (fun _ _ _ out_path => if img_id out_path =? 2 then None else Some ())
    sample_args sample_pages
  = None.
Proof. by vm_compute. Qed.

(** ** Snapshots by label *)

Section SnapshotFacts.

Variable save_pixmap : Page -> BBox -> Z -> SnapshotPath -> option unit.

Implicit Types (doc : list Page) (token : pystr) (pnos : list Z)
  (eq_to_path : gmap Z SnapshotPath).

Lemma search_pages_first_hit doc token pnos :
  Forall (fun pno => 0 <= pno < len doc) pnos ->
  search_pages doc token pnos = Some (first_hit doc token pnos).
Proof.
  unfold first_hit. induction 1 as [|pno pnos Hpno Hpnos IH]; [done|].
  destruct (load_page_in_range doc pno Hpno) as [Hload [pg Hpg]].
  simpl. rewrite Hpg. rewrite Hload in Hpg. rewrite Hpg. simpl.
  destruct (search_for pg token) as [|r rects]; [by rewrite IH | done].
Qed.

Lemma locate_equation_first_hit doc (pages_1based : Z * Z) dpi eq_to_path eq :
  1 <= pages_1based.1 -> pages_1based.2 <= len doc ->
  locate_equation save_pixmap doc pages_1based dpi eq_to_path eq
  = match first_hit doc (token_of eq)
            (py_range (pages_1based.1 - 1) pages_1based.2) with
    | None => Some eq_to_path
    | Some hit =>
        _ ← save_pixmap hit.1.2 (crop_rect hit.1.2 hit.2) dpi
              (snapshot_of eq hit);
        Some (<[eq := snapshot_of eq hit]> eq_to_path)
    end.
Proof.
  intros Hlo Hhi. unfold locate_equation.
  rewrite search_pages_first_hit.
  - simpl. by destruct (first_hit _ _ _) as [[[pno pg] r]|].
  - eapply Forall_impl; [apply py_range_bounds|]. intros pno. simpl. lia.
Qed.


Lemma extract_loop doc (pages_1based : Z * Z) dpi eqs done eq_to_path m :
  1 <= pages_1based.1 -> pages_1based.2 <= len doc ->
  mapping_of doc pages_1based done eq_to_path ->
  for_each (locate_equation save_pixmap doc pages_1based dpi) eq_to_path eqs
  = Some m ->
  mapping_of doc pages_1based (done ++ eqs) m.
Proof.
  intros Hlo Hhi. revert done eq_to_path.
  induction eqs as [|eq eqs IH]; intros done eq_to_path Hinv Hrun.
  - injection Hrun as <-. by rewrite app_nil_r.
  - simpl in Hrun. rewrite locate_equation_first_hit in Hrun by done.
    replace (done ++ eq :: eqs) with ((done ++ [eq]) ++ eqs)
      by (by rewrite <- app_assoc).
    destruct (first_hit doc (token_of eq) _) as [hit|] eqn:Hhit.
    + destruct (save_pixmap _ _ _ _) as [[]|]; [|done]. simpl in Hrun.
      eapply IH; [|exact Hrun]. intros eq'.
      destruct (decide (eq' = eq)) as [->|Hne].
      * rewrite lookup_insert_eq, decide_True, Hhit; [done|].
        apply elem_of_app. right. left.
      * rewrite lookup_insert_ne, (Hinv eq') by done.
        destruct (decide (eq' ∈ done)) as [Hin|Hout].
        -- rewrite decide_True; [done|]. apply elem_of_app. by left.
        -- rewrite decide_False; [done|].
           intros [?|Hin]%elem_of_app; [done|].
           by apply list_elem_of_singleton in Hin.
    + eapply IH; [|exact Hrun]. intros eq'. rewrite (Hinv eq').
      destruct (decide (eq' ∈ done)) as [Hin|Hout].
      * rewrite decide_True; [done|]. apply elem_of_app. by left.
      * destruct (decide (eq' ∈ done ++ [eq])) as [Hin|]; [|done].
        apply elem_of_app in Hin as [?|Hin]; [done|].
        apply list_elem_of_singleton in Hin. subst eq'. by rewrite Hhit.
Qed.

Lemma this_Qcminus (a b : Qc) : (this (a - b)%Qc == this a - this b)%Q.
Proof. unfold Qcminus, Qcplus, Qcopp. simpl. by rewrite !Qred_correct. Qed.






End SnapshotFacts.






Example extract_equation_images_sample :
  extract_equation_images (fun _ _ _ _ => Some ()) sample_doc [7; 42] (1, 2) 220
  = Some {[ 7 := {| snap_eq := 7; snap_page := 2 |} ]}.
Proof. by vm_compute. Qed.

(** * Further properties *)

(** ** Blank texts and lengths *)

Section Blank.

Implicit Types (c d : N) (s t w : pystr) (ws : list pystr).

Lemma split_nil_iff s : split s = [] <-> has_text s = false.
Proof.
  induction s as [|c s IH]; [done|].
  rewrite split_cons. unfold has_text in *. simpl existsb.
  destruct (isspace c) eqn:Hc; [done|]. simpl.
  split; [|done]. intros Hnil.
  destruct s as [|d s']; [done|].
  destruct (isspace d); [done|].
  by destruct (split (d :: s')).
Qed.

Lemma lstrip_nil_iff s : lstrip s = [] <-> has_text s = false.
Proof.
  induction s as [|c s IH]; [done|].
  unfold has_text in *. simpl. by destruct (isspace c).
Qed.

Lemma rstrip_nonspace_head c s : isspace c = false -> rstrip (c :: s) <> [].
Proof. intros Hc. simpl. rewrite Hc. by destruct (rstrip s). Qed.

Lemma strip_nil_iff s : strip s = [] <-> has_text s = false.
Proof.
  rewrite <- lstrip_nil_iff. unfold strip.
  destruct (lstrip_head s) as [->|(c & t & -> & Hc)]; [done|].
  split; [|done]. intros Hnil. by apply rstrip_nonspace_head in Hnil.
Qed.

Lemma normalize_nil_iff t :
  normalize_equation_text t = [] <-> has_text t = false.
Proof.
  rewrite normalize_words, <- split_nil_iff.
  pose proof (words_minus_to_hyphen _ (split_words t)) as Hws.
  destruct (split t) as [|w ws]; [done|].
  split; [|done]. intros Hnil.
  inversion Hws as [|? ? Hw _]; subst.
  by apply join_words_nonempty in Hnil.
Qed.

(** Joining the words of [s] with single spaces needs no more room
    than [s], and one character less when [s] starts with white space. *)
Lemma join_split_length s :
  (length (join [ch_space] (split s))
   + match s with
     | c :: _ => if isspace c then 1 else 0
     | [] => 0
     end <= length s)%nat.
Proof.
  induction s as [|c s IH]; [done|].
  rewrite split_cons. destruct (isspace c) eqn:Hc.
  - simpl length. destruct s as [|d s']; [simpl; lia|].
    destruct (isspace d); lia.
  - destruct s as [|d s']; [simpl; lia|].
    destruct (isspace d) eqn:Hd.
    + destruct (split (d :: s')) as [|w ws] eqn:Hsp; [simpl; lia|].
      change (join [ch_space] ([c] :: w :: ws))
        with (c :: ch_space :: join [ch_space] (w :: ws)).
      simpl length in *. lia.
    + destruct (split_nonspace_head d s' Hd) as (w & ws & Hsp).
      rewrite Hsp in IH |- *. rewrite join_cons_head. simpl length in *. lia.
Qed.

Lemma normalize_length t :
  len (normalize_equation_text t) <= len t.
Proof.
  unfold len. rewrite normalize_words.
  change [ch_space] with (List.map minus_to_hyphen [ch_space]).
  rewrite <- join_map, length_map.
  pose proof (join_split_length t). destruct t as [|c t]; [simpl in *; lia|].
  destruct (isspace c); lia.
Qed.

End Blank.

(** X1: normalisation gives the empty string exactly for a text that
    is all white space, never gives a longer string than it was given,
    and gives one with as many words. *)
Theorem normalize_equation_text_blank_and_length (t : pystr) :
  (normalize_equation_text t = [] <-> has_text t = false)
  /\ len (normalize_equation_text t) <= len t
  /\ len (split (normalize_equation_text t)) = len (split t).
Proof.
  split; [apply normalize_nil_iff|].
  split; [apply normalize_length|].
  unfold len. by rewrite split_normalize, length_map.
Qed.

(** ** Text blocks of a page *)

Lemma is_text_block_tests (b : RawBlock) :
  (if negb (rb_type b =? 0) then true
   else is_empty (rb_text b) || is_empty (strip (rb_text b)))
  = negb (is_text_block b).
Proof.
  unfold is_text_block. destruct (rb_type b =? 0); [|done]. simpl.
  destruct (has_text (rb_text b)) eqn:Htext.
  - destruct (rb_text b) as [|c s] eqn:Hs; [done|]. simpl.
    destruct (strip (c :: s)) eqn:Hstrip; [|done].
    apply strip_nil_iff in Hstrip. congruence.
  - apply strip_nil_iff in Htext as ->. by rewrite orb_true_r.
Qed.

Lemma extract_text_blocks_filter (pg : Page) :
  extract_text_blocks pg
  = block_of_raw <$> filter (fun b => is_text_block b = true) (page_blocks pg).
Proof.
  unfold extract_text_blocks.
  induction (page_blocks pg) as [|b bs IH]; [done|].
  rewrite filter_cons. simpl flat_map. rewrite IH.
  pose proof (is_text_block_tests b) as Htests.
  destruct (is_text_block b) eqn:Hb; simpl in Htests.
  - rewrite decide_True by done.
    destruct (negb (rb_type b =? 0)); [done|].
    by destruct (is_empty (rb_text b) || is_empty (strip (rb_text b))).
  - rewrite decide_False by done.
    destruct (negb (rb_type b =? 0)); [done|].
    by destruct (is_empty (rb_text b) || is_empty (strip (rb_text b))).
Qed.

Lemma extract_text_blocks_text (pg : Page) :
  Forall (fun b => has_text (block_text b) = true)
    (extract_text_blocks pg).
Proof.
  rewrite extract_text_blocks_filter. apply Forall_fmap, Forall_forall.
  intros b [Hb _]%list_elem_of_filter. unfold is_text_block in Hb.
  by apply andb_true_iff in Hb as [_ Htext].
Qed.

(** X2: [extract_text_blocks] keeps, in their order, exactly the
    blocks of type 0 whose text has a character that is not white
    space, and turns each into a dictionary with its four coordinates
    and its text as they are. No block it returns has an empty text or a
    text that normalises to the empty string. *)
Theorem extract_text_blocks_keeps_text_blocks (pg : Page) :
  extract_text_blocks pg
  = block_of_raw <$> filter (fun b => is_text_block b = true) (page_blocks pg)
  /\ Forall (fun b => b_type b = 0 /\ is_Some (b_bbox b) /\ is_Some (b_text b)
                      /\ block_text b <> []
                      /\ normalize_equation_text (block_text b) <> [])
       (extract_text_blocks pg)
  /\ (length (extract_text_blocks pg) <= length (page_blocks pg))%nat.
Proof.
  split; [apply extract_text_blocks_filter|]. split.
  - pose proof (extract_text_blocks_text pg) as Htext.
    rewrite extract_text_blocks_filter in Htext |- *.
    apply Forall_fmap. apply Forall_fmap in Htext.
    eapply Forall_impl; [exact Htext|]. intros b Hb. simpl in *.
    repeat split; [by eexists | by eexists | |].
    + intros Hnil. unfold block_text in *. simpl in *. by rewrite Hnil in Hb.
    + intros Hnil%normalize_nil_iff. congruence.
  - rewrite extract_text_blocks_filter, length_fmap. apply length_filter.
Qed.

(** ** Sorting once is enough *)

Lemma sorted_blocks_in_order (blocks : list Block) :
  StronglySorted
    (fun a b => position_le (position_key a) (position_key b)) blocks ->
  sorted_blocks_by_position blocks = blocks.
Proof.
  intros Hsorted. symmetry.
  apply (py_sorted_unique key_lt position_key key_lt_asym key_le_trans
           key_lt_total); [|done].
  eapply StronglySorted_weaken; [|exact Hsorted].
  intros a b. apply key_lt_false.
Qed.

(** X3: a list of blocks that is already in reading order comes back
    from [sorted_blocks_by_position] as it is, so sorting twice is
    sorting once; the number of blocks never changes. *)
Theorem sorted_blocks_by_position_idempotent (blocks : list Block) :
  sorted_blocks_by_position (sorted_blocks_by_position blocks)
  = sorted_blocks_by_position blocks
  /\ (forall blocks',
        StronglySorted
          (fun a b => position_le (position_key a) (position_key b)) blocks' ->
        sorted_blocks_by_position blocks' = blocks')
  /\ length (sorted_blocks_by_position blocks) = length blocks.
Proof.
  split; [|split; [apply sorted_blocks_in_order|]].
  - apply sorted_blocks_in_order.
    eapply StronglySorted_weaken;
      [|apply (py_sorted_sorted key_lt position_key key_lt_asym key_le_trans)].
    intros a b. apply key_lt_false.
  - apply Permutation_length, py_sorted_perm.
Qed.

(** ** Deduplicating in parts *)

Section FirstOccurrencesParts.

Context {A K : Type} `{EqDecision K}.
Variable key : A -> K.

Implicit Types (x : A) (l before : list A).

Lemma first_occurrences_from_app before l1 l2 :
  first_occurrences_from key before (l1 ++ l2)
  = first_occurrences_from key before l1
    ++ first_occurrences_from key (before ++ l1) l2.
Proof.
  revert before. induction l1 as [|x l1 IH]; intros before.
  - by rewrite app_nil_r.
  - simpl. rewrite IH, <- !app_assoc. done.
Qed.

(** What stands before the list only filters what is kept of it. *)
Lemma first_occurrences_from_filter before1 before2 l :
  first_occurrences_from key (before1 ++ before2) l
  = filter (fun x => key x ∉ key <$> before1)
      (first_occurrences_from key before2 l).
Proof.
  revert before2. induction l as [|x l IH]; intros before2; [done|].
  simpl. rewrite filter_app, <- IH, <- app_assoc. f_equal.
  rewrite fmap_app.
  destruct (decide (key x ∈ key <$> before2)) as [Hin2|Hout2].
  - rewrite decide_True by (apply elem_of_app; by right). done.
  - destruct (decide (key x ∈ key <$> before1)) as [Hin1|Hout1].
    + rewrite decide_True by (apply elem_of_app; by left).
      rewrite filter_cons, decide_False; [done|]. by intros Hnot.
    + rewrite decide_False
        by (intros [?|?]%elem_of_app; done).
      by rewrite filter_cons, decide_True.
Qed.

Lemma first_occurrences_from_distinct before l :
  NoDup (key <$> l) ->
  (forall x, x ∈ l -> key x ∉ key <$> before) ->
  first_occurrences_from key before l = l.
Proof.
  revert before. induction l as [|x l IH]; intros before Hnd Hfresh; [done|].
  rewrite fmap_cons in Hnd. apply NoDup_cons in Hnd as [Hx Hnd].
  simpl. rewrite decide_False by (apply Hfresh; left).
  simpl. f_equal. apply IH; [done|].
  intros y Hy. rewrite fmap_app. intros [Hb|Hyx]%elem_of_app.
  - apply (Hfresh y); [by right | done].
  - apply list_elem_of_singleton in Hyx. apply Hx. rewrite <- Hyx.
    by apply list_elem_of_fmap_2.
Qed.

Lemma filter_fmap_same_key (f : A -> A) (keys : list K) l :
  (forall x, key (f x) = key x) ->
  filter (fun y => key y ∉ keys) (f <$> l)
  = f <$> filter (fun x => key x ∉ keys) l.
Proof.
  intros Hf. induction l as [|x l IH]; [done|].
  rewrite fmap_cons, !filter_cons, Hf, IH. by destruct (decide (key x ∉ keys)).
Qed.

End FirstOccurrencesParts.

Lemma filter_none {A} (P : A -> Prop) `{forall x, Decision (P x)} (l : list A) :
  Forall (fun x => ~ P x) l -> filter P l = [].
Proof.
  induction 1 as [|x l Hx _ IH]; [done|].
  by rewrite filter_cons, decide_False.
Qed.

Lemma dedupe_app (items1 items2 : list Triple) :
  dedupe (items1 ++ items2)
  = dedupe items1
    ++ filter (fun y => dedupe_key y ∉ dedupe_key <$> items1) (dedupe items2).
Proof.
  rewrite !dedupe_first_occurrences. unfold first_occurrences.
  rewrite first_occurrences_from_app, fmap_app. f_equal.
  rewrite (filter_fmap_same_key dedupe_key normalize_item)
    by apply dedupe_key_normalize_item.
  f_equal. simpl.
  rewrite <- (app_nil_r items1) at 1.
  apply first_occurrences_from_filter.
Qed.

(** X4: [dedupe] can be run in parts: the result for two lists in a
    row is the result for the first followed by what the second adds,
    namely its results whose key the first list does not have. So
    reading the same candidates a second time adds nothing, and
    deduplicating a deduplicated list changes nothing. *)
Theorem dedupe_in_parts (items1 items2 : list Triple) :
  dedupe (items1 ++ items2)
  = dedupe items1
    ++ filter (fun y => dedupe_key y ∉ dedupe_key <$> items1) (dedupe items2)
  /\ dedupe (items1 ++ items1) = dedupe items1
  /\ dedupe (dedupe items1) = dedupe items1.
Proof.
  split; [apply dedupe_app|]. split.
  - rewrite dedupe_app.
    replace (filter _ (dedupe items1)) with (@nil Triple);
      [by rewrite app_nil_r|].
    symmetry. apply filter_none, Forall_forall.
    intros y (pre & x & post & -> & -> & _)%dedupe_first Hnot.
    apply Hnot. rewrite dedupe_key_normalize_item.
    apply list_elem_of_fmap_2, elem_of_app. right. left.
  - rewrite (dedupe_first_occurrences (dedupe items1)).
    unfold first_occurrences.
    rewrite first_occurrences_from_distinct.
    + rewrite dedupe_first_occurrences, <- list_fmap_compose.
      apply list_fmap_ext. intros i x _. apply normalize_item_idemp.
    + rewrite dedupe_keys. apply first_occurrences_from_NoDup.
    + intros x _. apply not_elem_of_nil.
Qed.

(** ** How far apart merged boxes can be *)

Lemma round_half_even_near (q : Q) :
  (inject_Z (round_half_even q) - q <= 1 # 2
   /\ q - inject_Z (round_half_even q) <= 1 # 2)%Q.
Proof.
  unfold round_half_even.
  pose proof (Qfloor_le q) as Hle. pose proof (Qlt_floor q) as Hlt.
  rewrite inject_Z_plus in Hlt. change (inject_Z 1) with 1%Q in Hlt.
  destruct (Qcompare (q - inject_Z (Qfloor q)) (1 # 2)) eqn:Hcmp.
  - apply Qeq_alt in Hcmp. destruct (Z.even (Qfloor q));
      rewrite ?inject_Z_plus; change (inject_Z 1) with 1%Q; lra.
  - apply Qlt_alt in Hcmp. lra.
  - apply Qgt_alt in Hcmp. rewrite inject_Z_plus.
    change (inject_Z 1) with 1%Q. lra.
Qed.

Lemma this_round1 (v : Qc) :
  (this (round1 v)
   == inject_Z (round_half_even (v * inject_Z 10)) * (1 # 10))%Q.
Proof.
  unfold round1. simpl. rewrite Qred_correct.
  unfold Qeq, Qmult, inject_Z. simpl. lia.
Qed.

(** [round(v, 1)] is within a twentieth of [v]. *)
Lemma round1_near (v : Qc) :
  (round1 v - v <= flt 1 20 /\ v - round1 v <= flt 1 20)%Qc.
Proof.
  unfold Qcle. rewrite !this_Qcminus, this_round1.
  change (this (flt 1 20)) with (1 # 20)%Q.
  destruct (round_half_even_near (v * inject_Z 10)) as [H1 H2].
  change (inject_Z 10) with (10 # 1)%Q in *.
  split; lra.
Qed.

Lemma round1_same_within_tenth (a b : Qc) :
  round1 a = round1 b -> within_tenth a b.
Proof.
  intros Hsame.
  destruct (round1_near a) as [Ha1 Ha2], (round1_near b) as [Hb1 Hb2].
  rewrite Hsame in Ha1, Ha2.
  unfold within_tenth, Qcle in *. rewrite !this_Qcminus in *.
  change (this (flt 1 20)) with (1 # 20)%Q in *.
  change (this (flt 1 10)) with (1 # 10)%Q.
  split; lra.
Qed.




(** X5: two elements that [dedupe] takes for the same one are on the
    same page, have the same normalised text, and their boxes differ by
    at most 0.1 in each coordinate. *)
Theorem dedupe_merges_only_near_boxes (item1 item2 : Triple) :
  dedupe_key item1 = dedupe_key item2 ->
  item1.1.1 = item2.1.1
  /\ normalize_equation_text item1.1.2 = normalize_equation_text item2.1.2
  /\ boxes_within_tenth item1.2 item2.2.
Proof.
  destruct item1 as [[p1 t1] [[[a1 b1] c1] d1]].
  destruct item2 as [[p2 t2] [[[a2 b2] c2] d2]].
  rewrite !dedupe_key_triple. unfold round_bbox. intros Hkey.
  pose proof (f_equal (fun k : Triple => k.1.1) Hkey) as Hp.
  pose proof (f_equal (fun k : Triple => k.1.2) Hkey) as Ht.
  pose proof (f_equal (fun k : Triple => k.2.1.1.1) Hkey) as Ha.
  pose proof (f_equal (fun k : Triple => k.2.1.1.2) Hkey) as Hb.
  pose proof (f_equal (fun k : Triple => k.2.1.2) Hkey) as Hc.
  pose proof (f_equal (fun k : Triple => k.2.2) Hkey) as Hd.
  simpl in Hp, Ht, Ha, Hb, Hc, Hd.
  split; [done|]. split; [done|].
  unfold boxes_within_tenth. simpl.
  split; [|split; [|split]]; by apply round1_same_within_tenth.
Qed.

Lemma dedupe_merges_only_near_boxes_witness :
  dedupe_key (1, lit "VOUT = 5 V", bbox_jitter)
  = dedupe_key (1, lit "VOUT  =  5 V", bbox_exact)
  /\ boxes_within_tenth bbox_jitter bbox_exact.
Proof.
  assert (Hkey : dedupe_key (1, lit "VOUT = 5 V", bbox_jitter)
                 = dedupe_key (1, lit "VOUT  =  5 V", bbox_exact))
    by (rewrite !dedupe_key_triple, round_bbox_jitter; f_equal).
  split; [exact Hkey|].
  exact (proj2 (proj2 (dedupe_merges_only_near_boxes _ _ Hkey))).
Defined.

(** Nearness is not enough: a box two hundredths away can fall on the
    other side of a rounding step and is then kept as well. *)
Example dedupe_keeps_near_box_across_step :
  boxes_within_tenth bbox_jitter bbox_drift
  /\ dedupe [(1, lit "VOUT = 5 V", bbox_jitter);
              (1, lit "VOUT = 5 V", bbox_drift)]
     = [(1, lit "VOUT = 5 V", bbox_jitter);
        (1, lit "VOUT = 5 V", bbox_drift)].
Proof.
  split.
  - unfold boxes_within_tenth, within_tenth, Qcle. simpl.
    repeat split; by vm_compute.
  - apply dedupe_distinct_keys. rewrite !dedupe_key_triple.
    intros Heq. apply (f_equal (fun k : Triple => this k.2.1.1.1)) in Heq.
    vm_compute in Heq. discriminate.
Qed.

(** ** [build_context] at any index *)

Section ContextBounds.

Implicit Types (b : Block) (blocks : list Block) (s : pystr) (idx : Z).

Lemma py_index_is_Some {A} (l : list A) (j : Z) :
  is_Some (py_index l j) <-> - len l <= j < len l.
Proof.
  unfold py_index, len.
  destruct (Z.leb_spec 0 j).
  - rewrite lookup_lt_is_Some. lia.
  - destruct (Z.leb_spec 0 (Z.of_nat (length l) + j)).
    + rewrite lookup_lt_is_Some. lia.
    + split; [by intros [? ?] | lia].
Qed.

Lemma clip_length s : len (clip s) <= 140.
Proof.
  unfold clip, len.
  destruct (Z.ltb_spec 140 (Z.of_nat (length (join [ch_space] (split s)))));
    [|done].
  rewrite length_app, length_take. simpl length. lia.
Qed.

Lemma put_together_length s1 s2 :
  len (put_together s1 s2) <= len s1 + 3 + len s2.
Proof.
  unfold put_together, len.
  destruct s1 as [|c1 s1], s2 as [|c2 s2]; simpl;
    rewrite ?length_app; simpl; lia.
Qed.

Lemma build_context_is_Some blocks idx :
  is_Some (build_context blocks idx) <-> - len blocks - 1 <= idx <= len blocks.
Proof.
  unfold build_context.
  pose proof (py_index_is_Some blocks (idx - 1)) as Hprev.
  pose proof (py_index_is_Some blocks (idx + 1)) as Hnext.
  assert (Hlen : 0 <= len blocks) by (unfold len; lia).
  destruct (Z.leb_spec 0 (idx - 1)) as [Hp|Hp];
    destruct (Z.ltb_spec (idx + 1) (len blocks)) as [Hn|Hn];
    destruct (py_index blocks (idx - 1)) as [bp|];
    destruct (py_index blocks (idx + 1)) as [bn|]; simpl;
    (split; [intros Hsome | intros Hrange]);
    repeat match goal with
           | H : is_Some (Some _) <-> _ |- _ =>
               apply proj1 in H; specialize (H (mk_is_Some _ _ eq_refl))
           | H : is_Some None <-> _ |- _ =>
               apply proj2 in H;
               assert (~ is_Some (@None Block)) by (by intros [? ?])
           | H : is_Some None |- _ => by destruct H
           end;
    try (by eexists); try lia;
    try (exfalso; match goal with
                  | Hno : ~ is_Some None, H : _ -> is_Some None |- _ =>
                      apply Hno, H; lia
                  end).
Qed.

Lemma build_context_put_together blocks idx :
  build_context blocks idx
  = prev_txt ←
      (if 0 <=? idx - 1 then
         b ← py_index blocks (idx - 1);
         Some (normalize_equation_text (block_text b))
       else Some []);
    next_txt ←
      (if idx + 1 <? len blocks then
         b ← py_index blocks (idx + 1);
         Some (normalize_equation_text (block_text b))
       else Some []);
    Some (put_together (clip prev_txt) (clip next_txt)).
Proof. done. Qed.

Lemma build_context_length blocks idx ctx :
  build_context blocks idx = Some ctx -> len ctx <= 283.
Proof.
  rewrite build_context_put_together. intros Hctx.
  destruct (if 0 <=? idx - 1 then _ else _) as [prev_txt|]; [|done].
  destruct (if idx + 1 <? len blocks then _ else _) as [next_txt|]; [|done].
  injection Hctx as <-.
  pose proof (put_together_length (clip prev_txt) (clip next_txt)).
  pose proof (clip_length prev_txt). pose proof (clip_length next_txt).
  lia.
Qed.

Lemma build_context_past_end blocks :
  build_context blocks (len blocks)
  = Some (default [] (snippet <$> last blocks)).
Proof.
  unfold build_context, len.
  destruct (Z.ltb_spec (Z.of_nat (length blocks) + 1) (Z.of_nat (length blocks)));
    [lia|].
  destruct blocks as [|b0 blocks'] using rev_ind; [done|].
  rewrite last_snoc, length_app. simpl length.
  destruct (Z.leb_spec 0 (Z.of_nat (length blocks' + 1) - 1)); [|lia].
  replace (Z.of_nat (length blocks' + 1) - 1)
    with (Z.of_nat (length blocks')) by lia.
  rewrite py_index_nat, lookup_app_r, Nat.sub_diag by done. simpl.
  rewrite clip_normalize. by destruct (snippet b0).
Qed.

End ContextBounds.

(** X6: [build_context] raises exactly for an index above the length
    of the list or below minus the length minus one. So the index one
    past the end is accepted, and gives the snippet of the last block
    alone. Whatever the index, a context has at most 283 characters. *)
Theorem build_context_index_bounds (blocks : list Block) (idx : Z) :
  (is_Some (build_context blocks idx)
   <-> - len blocks - 1 <= idx <= len blocks)
  /\ (forall ctx, build_context blocks idx = Some ctx -> len ctx <= 283)
  /\ build_context blocks (len blocks)
     = Some (default [] (snippet <$> last blocks)).
Proof.
  split; [apply build_context_is_Some|].
  split; [apply build_context_length | apply build_context_past_end].
Qed.

(** ** Where the items of a run come from *)

Lemma enumerate_lookup {A} (start : Z) (l : list A) :
  Forall (fun ib => exists i : nat,
            ib.1 = start + Z.of_nat i /\ l !! i = Some ib.2)
    (enumerate start l).
Proof.
  revert start. induction l as [|x l IH]; intros start; [constructor|].
  simpl enumerate. constructor.
  - exists 0%nat. split; [simpl; lia | done].
  - eapply Forall_impl; [apply IH|]. intros ib (i & Hi & Hl).
    exists (Datatypes.S i). split; [lia | done].
Qed.

Lemma enumerate_elem {A} (start : Z) (l : list A) (x : A) :
  x ∈ l <-> exists i, (i, x) ∈ enumerate start l.
Proof.
  rewrite <- (enumerate_snd start l) at 1. rewrite list_elem_of_fmap. split.
  - intros ([i y] & -> & Hin). by exists i.
  - intros [i Hin]. by exists (i, x).
Qed.

Lemma first_occurrences_from_fmap {A B K} `{EqDecision K}
    (key : B -> K) (f : A -> B) (before l : list A) :
  first_occurrences_from key (f <$> before) (f <$> l)
  = f <$> first_occurrences_from (fun x => key (f x)) before l.
Proof.
  revert before. induction l as [|x l IH]; intros before; [done|].
  rewrite fmap_cons. simpl first_occurrences_from.
  rewrite fmap_app, <- IH, fmap_app, <- !list_fmap_compose. simpl.
  by destruct (decide (key (f x) ∈ _)).
Qed.

Section Provenance.

Variable nd_beyond_ascii : N -> bool.
Variable render_crop : Page -> BBox -> Qc -> ImagePath -> option unit.

Implicit Types (args : Args) (doc : list Page) (candidates : list Candidate)
  (c : Candidate) (key : Triple).

Lemma scan_block_from args doc pg page_index candidates (ib : Z * Block) :
  0 <= page_index < len doc ->
  doc !! Z.to_nat page_index = Some pg ->
  (exists i : nat,
     ib.1 = 0 + Z.of_nat i
     /\ sorted_blocks_by_position (extract_text_blocks pg) !! i = Some ib.2) ->
  Forall (candidate_from nd_beyond_ascii args doc) candidates ->
  exists candidates',
    scan_block nd_beyond_ascii args
      (sorted_blocks_by_position (extract_text_blocks pg))
      page_index candidates ib = Some candidates'
    /\ Forall (candidate_from nd_beyond_ascii args doc) candidates'.
Proof.
  intros Hpage Hpg (i & Hidx & Hb) Hcands. destruct ib as [idx b].
  simpl in Hidx, Hb. subst idx. unfold scan_block.
  destruct (is_empty (block_text b)); [by exists candidates|].
  destruct (looks_like_equation _ _ _ _) eqn:Heq; [|by exists candidates].
  simpl negb. cbv iota.
  replace (0 + Z.of_nat i) with (Z.of_nat i) by lia.
  rewrite build_context_neighbours by (by eapply lookup_lt_Some).
  eexists. split; [done|].
  apply Forall_app. split; [done|]. constructor; [|constructor].
  exists pg, i, b. simpl.
  replace (page_index + 1 - 1) with page_index by lia.
  repeat split; [lia | done..].
Qed.

Lemma scan_page_from args doc candidates page_index :
  0 <= page_index < len doc ->
  Forall (candidate_from nd_beyond_ascii args doc) candidates ->
  exists candidates',
    scan_page nd_beyond_ascii args doc candidates page_index = Some candidates'
    /\ Forall (candidate_from nd_beyond_ascii args doc) candidates'.
Proof.
  intros Hpage Hcands. unfold scan_page.
  destruct (load_page_in_range doc page_index Hpage) as [Hload [pg Hpg]].
  rewrite Hpg. rewrite Hload in Hpg. simpl.
  apply (for_each_invariant
           (Forall (candidate_from nd_beyond_ascii args doc))
           (fun ib => exists i : nat,
              ib.1 = 0 + Z.of_nat i
              /\ sorted_blocks_by_position (extract_text_blocks pg) !! i
                 = Some ib.2));
    [apply enumerate_lookup | done |].
  intros st ib Hib Hst. by apply scan_block_from.
Qed.

Lemma scan_document_from args doc :
  exists candidates,
    scan_document nd_beyond_ascii args doc = Some candidates
    /\ Forall (candidate_from nd_beyond_ascii args doc) candidates.
Proof.
  unfold scan_document.
  apply (for_each_invariant
           (Forall (candidate_from nd_beyond_ascii args doc))
           (fun i => 0 <= i < len doc));
    [apply py_range_bounds | constructor |].
  intros st i Hi Hst. by apply scan_page_from.
Qed.

(** The dictionary of contexts keeps, for every key, the context of
    the first candidate that has it. *)
Lemma context_map_loop candidates (ctx_map : gmap Triple pystr) key :
  fold_left
    (fun ctx_map c =>
       let '(p, t, bb, ctx) := c in
       let key := (p, normalize_equation_text t, round_bbox bb) in
       match ctx_map !! key with
       | Some _ => ctx_map
       | None => <[key := ctx]> ctx_map
       end)
    candidates ctx_map !! key
  = match ctx_map !! key with
    | Some ctx => Some ctx
    | None => first_context key candidates
    end.
Proof.
  unfold first_context. revert ctx_map.
  induction candidates as [|[[[p t] bb] ctx] candidates IH]; intros ctx_map.
  - simpl. by destruct (ctx_map !! key).
  - simpl fold_left. rewrite IH, filter_cons.
    change (candidate_key (p, t, bb, ctx))
      with (p, normalize_equation_text t, round_bbox bb).
    destruct (decide ((p, normalize_equation_text t, round_bbox bb) = key))
      as [<-|Hne].
    + destruct (ctx_map !! (p, normalize_equation_text t, round_bbox bb))
        as [ctx0|] eqn:Hctx.
      * by rewrite Hctx.
      * by rewrite lookup_insert_eq.
    + destruct (ctx_map !! (p, normalize_equation_text t, round_bbox bb));
        [done|].
      by rewrite lookup_insert_ne.
Qed.

Lemma context_map_first_context candidates key :
  context_map candidates !! key = first_context key candidates.
Proof. unfold context_map. by rewrite context_map_loop, lookup_empty. Qed.

Lemma first_context_first_occurrence candidates c :
  c ∈ first_occurrences candidate_key candidates ->
  first_context (candidate_key c) candidates = Some c.2.
Proof.
  intros (pre & post & -> & Hfresh)%first_occurrences_from_first.
  unfold first_context. rewrite filter_app, filter_cons, decide_True by done.
  rewrite filter_none; [done|].
  apply Forall_forall. intros c' Hc' Hkey. apply Hfresh.
  rewrite <- Hkey. by apply list_elem_of_fmap_2.
Qed.

Lemma numbered_items_first_seen ctx_map start (kept : list Candidate) :
  Forall (fun c => ctx_map !! candidate_key c = Some c.2) kept ->
  numbered_items ctx_map start (normalize_item <$> (candidate_triple <$> kept))
  = (fun numbered : Z * Candidate =>
       let '(eq_id, (page_num, txt, bbox, ctx)) := numbered in
       {| eq_id := eq_id; page := page_num;
          text := normalize_equation_text txt;
          context := ctx; bbox := bbox;
          image_path := {| img_page := page_num; img_id := eq_id |} |})
    <$> enumerate start kept.
Proof.
  intros Hkept. revert start.
  induction Hkept as [|[[[p t] bb] ctx] kept Hc _ IH]; intros start; [done|].
  rewrite !fmap_cons. simpl enumerate. rewrite fmap_cons, <- IH.
  change (normalize_item (candidate_triple (p, t, bb, ctx)))
    with (p, normalize_equation_text t, bb).
  rewrite numbered_items_cons. simpl.
  change (p, normalize_equation_text t, round_bbox bb)
    with (candidate_key (p, t, bb, ctx)).
  by rewrite Hc.
Qed.

Lemma numbered_items_of_candidates candidates start :
  numbered_items (context_map candidates) start
    (dedupe (candidate_triple <$> candidates))
  = first_seen_items start candidates.
Proof.
  rewrite dedupe_first_occurrences. unfold first_occurrences.
  rewrite (first_occurrences_from_fmap dedupe_key candidate_triple []).
  apply numbered_items_first_seen, Forall_forall. intros c Hc.
  rewrite context_map_first_context.
  by apply first_context_first_occurrence.
Qed.

Lemma main_first_seen args doc items :
  main nd_beyond_ascii render_crop args doc = Some items ->
  exists candidates,
    scan_document nd_beyond_ascii args doc = Some candidates
    /\ Forall (candidate_from nd_beyond_ascii args doc) candidates
    /\ items = first_seen_items 1 candidates.
Proof.
  destruct (scan_document_from args doc) as (candidates & Hscan & Hfrom).
  unfold main. rewrite Hscan. simpl. rewrite emit_loop.
  destruct (forallb _ _); [|done]. simpl. intros [= <-].
  exists candidates. split; [done|]. split; [done|].
  apply numbered_items_of_candidates.
Qed.

Lemma first_seen_items_elem start candidates item :
  item ∈ first_seen_items start candidates ->
  exists c,
    c ∈ candidates
    /\ page item = c.1.1.1
    /\ text item = normalize_equation_text c.1.1.2
    /\ bbox item = c.1.2
    /\ context item = c.2
    /\ image_path item = {| img_page := page item; img_id := eq_id item |}.
Proof.
  unfold first_seen_items.
  intros ([n [[[p t] bb] ctx]] & -> & Hin)%list_elem_of_fmap.
  exists (p, t, bb, ctx). split; [|done].
  assert (Hc : (p, t, bb, ctx) ∈ snd <$> enumerate start
                 (first_occurrences candidate_key candidates))
    by (by apply (list_elem_of_fmap_2 snd) in Hin).
  rewrite enumerate_snd in Hc.
  eapply elem_of_sublist; [exact Hc | apply first_occurrences_from_sublist].
Qed.

End Provenance.

Lemma main_sample_items :
  main (fun _ => false) (fun _ _ _ _ => Some ()) sample_args sample_pages
  = Some sample_items.
Proof. by vm_compute. Qed.

(** X7: in a run that ends well, the items are the first candidates of
    their keys, in the order found and numbered from 1, each with its
    normalised text and with the context found for that very candidate:
    the dictionary of contexts has an entry for every item, so the
    empty default of the lookup is never used. *)
Theorem main_items_first_seen (nd_beyond_ascii : N -> bool)
    (render_crop : Page -> BBox -> Qc -> ImagePath -> option unit)
    (args : Args) (doc : list Page) (items : list EquationItem) :
  main nd_beyond_ascii render_crop args doc = Some items ->
  exists candidates,
    scan_document nd_beyond_ascii args doc = Some candidates
    /\ items = first_seen_items 1 candidates
    /\ Forall (fun c => context_map candidates !! candidate_key c = Some c.2)
         (first_occurrences candidate_key candidates).
Proof.
  intros (candidates & Hscan & _ & ->)%main_first_seen.
  exists candidates. split; [done|]. split; [done|].
  apply Forall_forall. intros c Hc.
  rewrite context_map_first_context. by apply first_context_first_occurrence.
Qed.

Lemma main_items_first_seen_witness :
  main (fun _ => false) (fun _ _ _ _ => Some ()) sample_args sample_pages
  = Some sample_items
  /\ exists candidates,
       scan_document (fun _ => false) sample_args sample_pages
       = Some candidates
       /\ sample_items = first_seen_items 1 candidates
       /\ Forall (fun c => context_map candidates !! candidate_key c
                           = Some c.2)
            (first_occurrences candidate_key candidates).
Proof.
  split; [exact main_sample_items|].
  exact (main_items_first_seen _ _ _ _ _ main_sample_items).
Defined.

Section ItemFacts.

Variable nd_beyond_ascii : N -> bool.

Implicit Types (args : Args) (doc : list Page) (c : Candidate) (b : Block).

Lemma looks_like_equation_normalized (t : pystr) (m : Z) (r : bool) :
  looks_like_equation nd_beyond_ascii (normalize_equation_text t) m r
  = looks_like_equation nd_beyond_ascii t m r.
Proof. unfold looks_like_equation. by rewrite normalize_idempotent. Qed.

Lemma sorted_blocks_text (pg : Page) (i : nat) b :
  sorted_blocks_by_position (extract_text_blocks pg) !! i = Some b ->
  b ∈ extract_text_blocks pg /\ has_text (block_text b) = true.
Proof.
  intros Hb%list_elem_of_lookup_2.
  assert (Hin : b ∈ extract_text_blocks pg).
  { unfold sorted_blocks_by_position in Hb. by rewrite py_sorted_perm in Hb. }
  split; [done|].
  pose proof (extract_text_blocks_text pg) as Htext.
  rewrite Forall_forall in Htext. by apply Htext.
Qed.

Lemma snippet_nonempty b : has_text (block_text b) = true -> snippet b <> [].
Proof.
  intros Htext. unfold snippet.
  destruct (140 <? len (normalize_equation_text (block_text b))).
  - intros Hnil. apply (f_equal length) in Hnil.
    rewrite length_app in Hnil. simpl in Hnil. lia.
  - intros Hnil%normalize_nil_iff. congruence.
Qed.

Lemma join_snippets_nil (prev next : option Block) :
  (forall b, prev = Some b -> has_text (block_text b) = true) ->
  (forall b, next = Some b -> has_text (block_text b) = true) ->
  join_snippets (snippet <$> prev) (snippet <$> next) = []
  <-> prev = None /\ next = None.
Proof.
  intros Hprev Hnext. split; [|by intros [-> ->]].
  destruct prev as [bp|], next as [bn|]; simpl; [| | |done].
  - pose proof (snippet_nonempty bp (Hprev bp eq_refl)).
    pose proof (snippet_nonempty bn (Hnext bn eq_refl)).
    by destruct (snippet bp), (snippet bn).
  - intros Hnil. by apply snippet_nonempty in Hnil; [|apply Hprev].
  - intros Hnil. by apply snippet_nonempty in Hnil; [|apply Hnext].
Qed.

Lemma candidate_context_nil args doc c :
  candidate_from nd_beyond_ascii args doc c ->
  exists pg,
    doc !! Z.to_nat (c.1.1.1 - 1) = Some pg
    /\ (c.2 = [] <-> length (extract_text_blocks pg) = 1%nat).
Proof.
  intros (pg & i & b & _ & Hpg & Hb & _ & _ & _ & ->).
  exists pg. split; [done|].
  set (blocks := sorted_blocks_by_position (extract_text_blocks pg)) in *.
  assert (Hlen : length blocks = length (extract_text_blocks pg))
    by apply Permutation_length, py_sorted_perm.
  rewrite <- Hlen.
  pose proof (lookup_lt_Some _ _ _ Hb) as Hi.
  rewrite join_snippets_nil.
  - unfold next_neighbour. rewrite lookup_ge_None. split.
    + intros [Hprev Hnext]. destruct i as [|j]; [lia|].
      simpl in Hprev. apply lookup_ge_None in Hprev. lia.
    + intros Hone. destruct i as [|j]; [split; [done | lia] | lia].
  - intros bp Hbp. destruct i as [|j]; [done|].
    by apply (sorted_blocks_text pg j).
  - intros bn Hbn. by apply (sorted_blocks_text pg (Datatypes.S i)).
Qed.

End ItemFacts.

(** X8: every item of a run that ends well is an equation for the
    classifier with the thresholds of the run, its text is in normal
    form, and it can be traced: its page is a page of the document, and
    its text and box are the normalised text and the box of a text block
    of that page. *)
Theorem main_items_are_equations (nd_beyond_ascii : N -> bool)
    (render_crop : Page -> BBox -> Qc -> ImagePath -> option unit)
    (args : Args) (doc : list Page) (items : list EquationItem) :
  main nd_beyond_ascii render_crop args doc = Some items ->
  Forall (fun item =>
            looks_like_equation nd_beyond_ascii (text item)
              (arg_min_len args) (arg_require_equals args) = true
            /\ normalize_equation_text (text item) = text item
            /\ exists pg b,
                 1 <= page item <= len doc
                 /\ doc !! Z.to_nat (page item - 1) = Some pg
                 /\ b ∈ extract_text_blocks pg
                 /\ text item = normalize_equation_text (block_text b)
                 /\ bbox item = block_bbox b)
    items.
Proof.
  intros (candidates & _ & Hfrom & ->)%main_first_seen.
  apply Forall_forall. intros item Hitem.
  apply first_seen_items_elem in Hitem
    as (c & Hc & Hpage & Htext & Hbbox & _ & _).
  rewrite Forall_forall in Hfrom.
  destruct (Hfrom c Hc)
    as (pg & i & b & Hp & Hpg & Hb & Hct & Hcb & Heq & _).
  rewrite Htext, Hct, looks_like_equation_normalized, normalize_idempotent.
  split; [done|]. split; [done|].
  exists pg, b. rewrite Hpage, Hbbox.
  split.
  { apply lookup_lt_Some in Hpg. unfold len. lia. }
  split; [done|]. split; [|done].
  by apply (sorted_blocks_text pg i).
Qed.

Lemma main_items_are_equations_witness :
  main (fun _ => false) (fun _ _ _ _ => Some ()) sample_args sample_pages
  = Some sample_items
  /\ Forall (fun item =>
               looks_like_equation (fun _ => false) (text item)
                 (arg_min_len sample_args) (arg_require_equals sample_args)
               = true
               /\ normalize_equation_text (text item) = text item
               /\ exists pg b,
                    1 <= page item <= len sample_pages
                    /\ sample_pages !! Z.to_nat (page item - 1) = Some pg
                    /\ b ∈ extract_text_blocks pg
                    /\ text item = normalize_equation_text (block_text b)
                    /\ bbox item = block_bbox b)
       sample_items.
Proof.
  split; [exact main_sample_items|].
  exact (main_items_are_equations _ _ _ _ _ main_sample_items).
Defined.

(** X9: in a run that ends well, the context of an item is empty
    exactly when the item's page has a single text block: with two text
    blocks or more it always holds the text of a neighbour. *)
Theorem main_context_empty_iff_alone (nd_beyond_ascii : N -> bool)
    (render_crop : Page -> BBox -> Qc -> ImagePath -> option unit)
    (args : Args) (doc : list Page) (items : list EquationItem) :
  main nd_beyond_ascii render_crop args doc = Some items ->
  Forall (fun item =>
            exists pg,
              doc !! Z.to_nat (page item - 1) = Some pg
              /\ (context item = []
                  <-> length (extract_text_blocks pg) = 1%nat))
    items.
Proof.
  intros (candidates & _ & Hfrom & ->)%main_first_seen.
  apply Forall_forall. intros item Hitem.
  apply first_seen_items_elem in Hitem
    as (c & Hc & Hpage & _ & _ & Hctx & _).
  rewrite Forall_forall in Hfrom.
  destruct (candidate_context_nil nd_beyond_ascii args doc c (Hfrom c Hc))
    as (pg & Hpg & Hnil).
  exists pg. by rewrite Hpage, Hctx.
Qed.

Lemma main_context_empty_iff_alone_witness :
  main (fun _ => false) (fun _ _ _ _ => Some ()) sample_args sample_pages
  = Some sample_items
  /\ Forall (fun item =>
               exists pg,
                 sample_pages !! Z.to_nat (page item - 1) = Some pg
                 /\ (context item = []
                     <-> length (extract_text_blocks pg) = 1%nat))
       sample_items.
Proof.
  split; [exact main_sample_items|].
  exact (main_context_empty_iff_alone _ _ _ _ _ main_sample_items).
Defined.

Lemma first_seen_items_keys start candidates :
  item_key <$> first_seen_items start candidates
  = candidate_key <$> first_occurrences candidate_key candidates.
Proof.
  unfold first_seen_items. rewrite <- list_fmap_compose.
  rewrite <- (enumerate_snd start
                (first_occurrences candidate_key candidates)) at 2.
  rewrite <- list_fmap_compose.
  apply list_fmap_ext. by intros i [n [[[p t] bb] ctx]] _.
Qed.

Lemma first_seen_items_ids start candidates :
  eq_id <$> first_seen_items start candidates
  = py_range start
      (start + len (first_occurrences candidate_key candidates)).
Proof.
  unfold first_seen_items. rewrite <- list_fmap_compose, <- enumerate_fst.
  apply list_fmap_ext. by intros i [n [[[p t] bb] ctx]] _.
Qed.

(** X10: in a run that ends well no two items have the same key (page,
    text, box rounded to one decimal) and no two have the same snapshot
    file: no snapshot is written over by another item's. *)
Theorem main_items_distinct (nd_beyond_ascii : N -> bool)
    (render_crop : Page -> BBox -> Qc -> ImagePath -> option unit)
    (args : Args) (doc : list Page) (items : list EquationItem) :
  main nd_beyond_ascii render_crop args doc = Some items ->
  NoDup (item_key <$> items) /\ NoDup (image_path <$> items).
Proof.
  intros (candidates & _ & Hfrom & ->)%main_first_seen. split.
  - rewrite first_seen_items_keys. apply first_occurrences_from_NoDup.
  - apply (NoDup_fmap_1 img_id). rewrite <- list_fmap_compose.
    replace (img_id ∘ image_path <$> first_seen_items 1 candidates)
      with (eq_id <$> first_seen_items 1 candidates).
    + rewrite first_seen_items_ids. apply py_range_NoDup.
    + apply list_fmap_ext. intros i item Hitem.
      apply list_elem_of_lookup_2, first_seen_items_elem in Hitem
        as (c & _ & _ & _ & _ & _ & Hpath).
      simpl. by rewrite Hpath.
Qed.

Lemma main_items_distinct_witness :
  main (fun _ => false) (fun _ _ _ _ => Some ()) sample_args sample_pages
  = Some sample_items
  /\ NoDup (item_key <$> sample_items)
  /\ NoDup (image_path <$> sample_items).
Proof.
  split; [exact main_sample_items|].
  exact (main_items_distinct _ _ _ _ _ main_sample_items).
Defined.

(** ** Reading order *)

Lemma for_each_append {A B} (body : list B -> A -> option (list B))
    (f : A -> list B) (Q : A -> Prop) (st : list B) (l : list A) :
  Forall Q l ->
  (forall st' x, Q x -> body st' x = Some (st' ++ f x)) ->
  for_each body st l = Some (st ++ mjoin (f <$> l)).
Proof.
  intros Hl Hbody. revert st.
  induction Hl as [|x l Hx Hl IH]; intros st.
  { simpl. by rewrite app_nil_r. }
  simpl. rewrite (Hbody st x Hx). simpl. rewrite IH. by rewrite <- app_assoc.
Qed.

Lemma StronglySorted_sublist {A} (R : A -> A -> Prop) (l1 l2 : list A) :
  l1 `sublist_of` l2 -> StronglySorted R l2 -> StronglySorted R l1.
Proof.
  induction 1 as [|x l1 l2 Hsub IH|x l1 l2 Hsub IH]; intros Hsorted.
  - constructor.
  - apply StronglySorted_inv in Hsorted as [Hsorted Hx].
    constructor; [by apply IH|].
    apply Forall_forall. intros y Hy. rewrite Forall_forall in Hx.
    apply Hx. by eapply elem_of_sublist.
  - apply StronglySorted_inv in Hsorted as [Hsorted _]. by apply IH.
Qed.

Lemma StronglySorted_enumerate {A} (R : A -> A -> Prop) (start : Z)
    (l : list A) :
  StronglySorted R l ->
  StronglySorted (fun a b : Z * A => R a.2 b.2) (enumerate start l).
Proof.
  intros Hsorted. revert start.
  induction Hsorted as [|x l Hl IH Hx]; intros start; [constructor|].
  simpl. constructor; [apply IH|].
  apply Forall_forall. intros [i y] Hy. simpl.
  rewrite Forall_forall in Hx. apply Hx, (enumerate_elem (start + 1)).
  by exists i.
Qed.

Lemma StronglySorted_mjoin {A B} (Q : A -> A -> Prop) (R : B -> B -> Prop)
    (f : A -> list B) (l : list A) :
  StronglySorted Q l ->
  (forall a, a ∈ l -> StronglySorted R (f a)) ->
  (forall a1 a2 b1 b2, a1 ∈ l -> a2 ∈ l -> Q a1 a2 ->
                       b1 ∈ f a1 -> b2 ∈ f a2 -> R b1 b2) ->
  StronglySorted R (mjoin (f <$> l)).
Proof.
  induction 1 as [|a l Hl IH Ha]; intros Hin Hacross; [constructor|].
  simpl. apply StronglySorted_app_2.
  - intros b1 b2 Hb1 Hb2.
    apply list_elem_of_join in Hb2 as (bs & Hb2 & Hbs).
    apply list_elem_of_fmap in Hbs as (a2 & -> & Ha2).
    rewrite Forall_forall in Ha.
    apply (Hacross a a2); [by left | by right | by apply Ha | done | done].
  - apply Hin. by left.
  - apply IH.
    + intros a' Ha'. apply Hin. by right.
    + intros a1 a2 b1 b2 Ha1 Ha2. apply Hacross; by right.
Qed.

Lemma py_range_increasing (a b : Z) : StronglySorted Z.lt (py_range a b).
Proof.
  unfold py_range. generalize (Z.to_nat (b - a)) as n. intros n.
  apply (StronglySorted_fmap _ lt); [intros i j; lia|].
  generalize 0%nat as s. induction n as [|n IH]; intros s; [constructor|].
  simpl. constructor; [apply IH|].
  apply Forall_forall. intros i Hi%list_elem_of_In%in_seq. lia.
Qed.

Section ReadingOrder.

Variable nd_beyond_ascii : N -> bool.

Implicit Types (args : Args) (doc : list Page) (c : Candidate).

Lemma scan_block_candidates args (blocks : list Block) (page_index : Z)
    (candidates : list Candidate) (ib : Z * Block) :
  is_Some (build_context blocks ib.1) ->
  scan_block nd_beyond_ascii args blocks page_index candidates ib
  = Some (candidates
          ++ block_candidates nd_beyond_ascii args blocks page_index ib).
Proof.
  intros [ctx Hctx]. destruct ib as [idx b]. simpl in Hctx.
  unfold scan_block, block_candidates. simpl.
  destruct (is_empty (block_text b)); [by rewrite app_nil_r|].
  destruct (looks_like_equation _ _ _ _); simpl; [|by rewrite app_nil_r].
  by rewrite Hctx.
Qed.

Lemma scan_page_candidates args doc (candidates : list Candidate)
    (page_index : Z) :
  0 <= page_index < len doc ->
  scan_page nd_beyond_ascii args doc candidates page_index
  = Some (candidates ++ page_candidates nd_beyond_ascii args doc page_index).
Proof.
  intros Hpage. unfold scan_page, page_candidates.
  destruct (load_page_in_range doc page_index Hpage) as [_ [pg ->]]. simpl.
  apply (for_each_append _ _
           (fun ib => exists i : nat,
              ib.1 = 0 + Z.of_nat i
              /\ sorted_blocks_by_position (extract_text_blocks pg) !! i
                 = Some ib.2)); [apply enumerate_lookup|].
  intros st ib (i & Hi & Hb). apply scan_block_candidates.
  rewrite Hi, Z.add_0_l, build_context_neighbours; [by eexists|].
  by eapply lookup_lt_Some.
Qed.

Lemma scan_document_candidates args doc :
  scan_document nd_beyond_ascii args doc
  = Some (mjoin (page_candidates nd_beyond_ascii args doc
                 <$> py_range 0 (len doc))).
Proof.
  unfold scan_document.
  rewrite (for_each_append _ (page_candidates nd_beyond_ascii args doc)
             (fun i => 0 <= i < len doc)); [done | apply py_range_bounds|].
  intros st i Hi. by apply scan_page_candidates.
Qed.

Lemma block_candidates_place args blocks page_index (ib : Z * Block) c :
  c ∈ block_candidates nd_beyond_ascii args blocks page_index ib ->
  candidate_place c = (page_index + 1, block_bbox ib.2).
Proof.
  unfold block_candidates.
  destruct (is_empty _); [by intros ?%elem_of_nil|].
  destruct (looks_like_equation _ _ _ _); [|by intros ?%elem_of_nil].
  destruct (build_context blocks ib.1) as [ctx|]; simpl;
    [|by intros ?%elem_of_nil].
  by intros ->%list_elem_of_singleton.
Qed.

Lemma block_candidates_sorted args blocks page_index (ib : Z * Block) :
  StronglySorted (fun c1 c2 => reading_order (candidate_place c1)
                                 (candidate_place c2))
    (block_candidates nd_beyond_ascii args blocks page_index ib).
Proof.
  unfold block_candidates.
  destruct (is_empty _); [constructor|].
  destruct (looks_like_equation _ _ _ _); [|constructor].
  destruct (build_context blocks ib.1) as [ctx|]; simpl; repeat constructor.
Qed.

Lemma page_candidates_page args doc page_index c :
  c ∈ page_candidates nd_beyond_ascii args doc page_index ->
  c.1.1.1 = page_index + 1.
Proof.
  unfold page_candidates. destruct (load_page doc page_index) as [pg|];
    [|by intros ?%elem_of_nil].
  intros (cs & Hc & Hcs)%list_elem_of_join.
  apply list_elem_of_fmap in Hcs as (ib & -> & _).
  apply block_candidates_place in Hc. by injection Hc.
Qed.

Lemma page_candidates_sorted args doc page_index :
  StronglySorted (fun c1 c2 => reading_order (candidate_place c1)
                                 (candidate_place c2))
    (page_candidates nd_beyond_ascii args doc page_index).
Proof.
  unfold page_candidates. destruct (load_page doc page_index) as [pg|];
    [|constructor].
  cbv zeta. set (blocks := sorted_blocks_by_position (extract_text_blocks pg)).
  apply (StronglySorted_mjoin
           (fun a b : Z * Block =>
              position_le (position_key a.2) (position_key b.2))).
  - apply (StronglySorted_enumerate
             (fun a b => position_le (position_key a) (position_key b))).
    eapply StronglySorted_weaken;
      [|apply (py_sorted_sorted key_lt position_key key_lt_asym key_le_trans)].
    intros a b Hab. by apply key_lt_false.
  - intros ib _. apply block_candidates_sorted.
  - intros ib1 ib2 c1 c2 _ _ Hle Hc1 Hc2.
    apply block_candidates_place in Hc1, Hc2. rewrite Hc1, Hc2.
    right. split; [done|]. simpl. by rewrite <- !position_key_bbox.
Qed.

Lemma scan_document_sorted args doc (candidates : list Candidate) :
  scan_document nd_beyond_ascii args doc = Some candidates ->
  StronglySorted (fun c1 c2 => reading_order (candidate_place c1)
                                 (candidate_place c2)) candidates.
Proof.
  rewrite scan_document_candidates. intros [= <-].
  apply (StronglySorted_mjoin Z.lt); [apply py_range_increasing | |].
  - intros i _. apply page_candidates_sorted.
  - intros i j c1 c2 _ _ Hij Hc1 Hc2.
    apply page_candidates_page in Hc1, Hc2. left.
    unfold candidate_place. simpl. lia.
Qed.

End ReadingOrder.

Lemma first_seen_items_sorted (start : Z) (candidates : list Candidate) :
  StronglySorted (fun c1 c2 => reading_order (candidate_place c1)
                                 (candidate_place c2)) candidates ->
  StronglySorted (fun a b => reading_order (item_place a) (item_place b))
    (first_seen_items start candidates).
Proof.
  intros Hsorted. unfold first_seen_items.
  apply (StronglySorted_fmap _
           (fun a b : Z * Candidate =>
              reading_order (candidate_place a.2) (candidate_place b.2))).
  { by intros [i [[[p1 t1] bb1] ctx1]] [j [[[p2 t2] bb2] ctx2]]. }
  apply (StronglySorted_enumerate
           (fun c1 c2 => reading_order (candidate_place c1)
                           (candidate_place c2))).
  eapply StronglySorted_sublist; [|exact Hsorted].
  apply first_occurrences_from_sublist.
Qed.

Lemma StronglySorted_lookup {A} (R : A -> A -> Prop) (l : list A)
    (i j : nat) (a b : A) :
  StronglySorted R l -> l !! i = Some a -> l !! j = Some b -> (i < j)%nat ->
  R a b.
Proof.
  intros Hsorted. revert i j.
  induction Hsorted as [|x l Hl IH Hx]; intros i j Ha Hb Hij; [done|].
  destruct j as [|j]; [lia|]. simpl in Hb. destruct i as [|i].
  - injection Ha as <-. rewrite Forall_forall in Hx.
    by eapply Hx, list_elem_of_lookup_2.
  - simpl in Ha. apply (IH i j); [done | done | lia].
Qed.

Lemma py_range_lookup (a b : Z) (i : nat) (k : Z) :
  py_range a b !! i = Some k -> k = a + Z.of_nat i.
Proof.
  unfold py_range. rewrite list_lookup_fmap.
  destruct (seq 0 (Z.to_nat (b - a)) !! i) as [n|] eqn:Hn; [|done].
  apply lookup_seq in Hn as [-> _]. by intros [= <-].
Qed.

Lemma first_seen_items_id (start : Z) (candidates : list Candidate)
    (i : nat) (item : EquationItem) :
  first_seen_items start candidates !! i = Some item ->
  eq_id item = start + Z.of_nat i.
Proof.
  intros Hitem. apply (py_range_lookup start
    (start + len (first_occurrences candidate_key candidates))).
  by rewrite <- first_seen_items_ids, list_lookup_fmap, Hitem.
Qed.

(** X22: the items of a run come in reading order.  Of two items, the
    one with the smaller identifier is on an earlier page or, on the
    same page, comes first by the top edge of its box and then by its
    left edge. *)
Theorem main_items_in_reading_order (nd_beyond_ascii : N -> bool)
    (render_crop : Page -> BBox -> Qc -> ImagePath -> option unit)
    (args : Args) (doc : list Page) (items : list EquationItem) :
  main nd_beyond_ascii render_crop args doc = Some items ->
  StronglySorted (fun a b => reading_order (item_place a) (item_place b))
    items
  /\ (forall a b,
        a ∈ items -> b ∈ items -> eq_id a < eq_id b ->
        page a < page b
        \/ (page a = page b
            /\ position_le (bbox_key (bbox a)) (bbox_key (bbox b)))).
Proof.
  intros (candidates & Hscan & _ & ->)%main_first_seen.
  assert (Hsorted :
    StronglySorted (fun a b => reading_order (item_place a) (item_place b))
      (first_seen_items 1 candidates)).
  { by eapply first_seen_items_sorted, scan_document_sorted. }
  split; [done|].
  intros a b (i & Ha)%list_elem_of_lookup_1 (j & Hb)%list_elem_of_lookup_1 Hid.
  rewrite (first_seen_items_id 1 candidates i a Ha),
    (first_seen_items_id 1 candidates j b Hb) in Hid.
  apply (StronglySorted_lookup _ _ i j a b Hsorted Ha Hb). lia.
Qed.

Lemma main_items_in_reading_order_witness :
  main (fun _ => false) (fun _ _ _ _ => Some ()) sample_args sample_pages
  = Some sample_items
  /\ StronglySorted (fun a b => reading_order (item_place a) (item_place b))
       sample_items
  /\ (forall a b,
        a ∈ sample_items -> b ∈ sample_items -> eq_id a < eq_id b ->
        page a < page b
        \/ (page a = page b
            /\ position_le (bbox_key (bbox a)) (bbox_key (bbox b)))).
Proof.
  split; [exact main_sample_items|].
  exact (main_items_in_reading_order _ _ _ _ _ main_sample_items).
Defined.

(** ** The thresholds of the classifier *)

(** X11: the two thresholds of the classifier only ever make it
    stricter: a text accepted with a minimum length is accepted with
    every smaller one, and a text accepted when a relational operator is
    required is accepted when none is.  Whatever the thresholds, a text
    that is accepted has two characters or more after normalisation. *)
Theorem looks_like_equation_monotone (nd_beyond_ascii : N -> bool)
    (text : pystr) (min_len min_len' : Z) (require_equals : bool) :
  looks_like_equation nd_beyond_ascii text min_len require_equals = true ->
  min_len' <= min_len ->
  looks_like_equation nd_beyond_ascii text min_len' require_equals = true
  /\ looks_like_equation nd_beyond_ascii text min_len' false = true
  /\ 2 <= len (normalize_equation_text text).
Proof.
  rewrite !looks_like_equation_tests. cbv zeta.
  set (n := normalize_equation_text text).
  rewrite !andb_true_iff, !Z.leb_le.
  intros [[[[Hlen Hhint] Hrel] Hprose] [Hletter Hrest]] Hle.
  split; [|split].
  - repeat split; try done. lia.
  - repeat split; try done. lia.
  - apply search_any_elem_of in Hhint as (h & Hh & Hhn).
    apply existsb_exists in Hletter as (c & Hc%list_elem_of_In & Hletter).
    assert (Hne : c <> h).
    { intros ->. unfold EQUATION_HINT in Hh.
      repeat (apply elem_of_cons in Hh as [->|Hh]; [by vm_compute in Hletter|]).
      by apply elem_of_nil in Hh. }
    unfold len. destruct n as [|a [|b n']]; simpl; [| |lia].
    + by apply elem_of_nil in Hc.
    + apply list_elem_of_singleton in Hc, Hhn. congruence.
Qed.

Lemma looks_like_equation_monotone_witness :
  looks_like_equation (fun _ => false) (lit "VOUT = 5 V") 6 true = true
  /\ 3 <= 6
  /\ looks_like_equation (fun _ => false) (lit "VOUT = 5 V") 3 true = true
  /\ looks_like_equation (fun _ => false) (lit "VOUT = 5 V") 3 false = true
  /\ 2 <= len (normalize_equation_text (lit "VOUT = 5 V")).
Proof.
  assert (H1 : looks_like_equation (fun _ => false) (lit "VOUT = 5 V") 6 true
               = true) by (by vm_compute).
  assert (H2 : 3 <= 6) by lia.
  split; [exact H1|]. split; [exact H2|].
  exact (looks_like_equation_monotone _ _ _ _ _ H1 H2).
Defined.

(** ** [_clamp] *)

(** X12: with bounds in order, [_clamp] returns a value between the
    bounds: its argument when that lies between them, and the nearer
    bound when it does not. *)
Theorem clamp_between_bounds (x lo hi : Qc) :
  (lo <= hi)%Qc ->
  (lo <= _clamp x lo hi <= hi)%Qc
  /\ ((lo <= x <= hi)%Qc -> _clamp x lo hi = x)
  /\ ((x < lo)%Qc -> _clamp x lo hi = lo)
  /\ ((hi < x)%Qc -> _clamp x lo hi = hi).
Proof.
  intros Hbounds. unfold _clamp, py_max, py_min.
  destruct (bool_decide (x < hi)%Qc) eqn:Hmin;
    [apply bool_decide_eq_true in Hmin | apply bool_decide_eq_false in Hmin];
    (destruct (bool_decide (lo < _)%Qc) eqn:Hmax;
     [apply bool_decide_eq_true in Hmax | apply bool_decide_eq_false in Hmax]);
    unfold Qcle, Qclt in *;
    repeat split; intros; try apply Qc_is_canon; lra.
Qed.

Lemma clamp_between_bounds_witness :
  (0 <= flt 19 20)%Qc
  /\ (0 <= _clamp (flt 5 12) 0 (flt 19 20) <= flt 19 20)%Qc
  /\ ((0 <= flt 5 12 <= flt 19 20)%Qc
      -> _clamp (flt 5 12) 0 (flt 19 20) = flt 5 12)
  /\ ((flt 5 12 < 0)%Qc -> _clamp (flt 5 12) 0 (flt 19 20) = 0%Qc)
  /\ ((flt 19 20 < flt 5 12)%Qc
      -> _clamp (flt 5 12) 0 (flt 19 20) = flt 19 20).
Proof.
  assert (H : (0 <= flt 19 20)%Qc) by (by vm_compute).
  split; [exact H|]. exact (clamp_between_bounds _ _ _ H).
Defined.

(** ** Snapshots: the page range and the order of the labels *)

Lemma for_each_raises {S A} (body : S -> A -> option S) (st : S) (l : list A)
    (x : A) :
  x ∈ l -> (forall st', body st' x = None) -> for_each body st l = None.
Proof.
  intros Hx Hraise. revert st.
  induction l as [|y l IH]; intros st; [by apply elem_of_nil in Hx|].
  apply elem_of_cons in Hx as [<-|Hx]; simpl.
  - by rewrite Hraise.
  - destruct (body st y) as [st'|]; [by apply IH | done].
Qed.

Lemma load_page_past_end (doc : list Page) (pno : Z) :
  len doc <= pno -> load_page doc pno = None.
Proof.
  intros Hpno. unfold load_page.
  by destruct (Z.ltb_spec pno (len doc)); [lia|].
Qed.

Lemma search_pages_past_end (doc : list Page) (token : pystr) (pnos : list Z) :
  (exists pno, pno ∈ pnos /\ len doc <= pno) ->
  (forall pno pg, pno ∈ pnos -> load_page doc pno = Some pg ->
                  search_for pg token = []) ->
  search_pages doc token pnos = None.
Proof.
  induction pnos as [|pno pnos IH]; intros (far & Hfar & Hpast) Hmiss.
  { by apply elem_of_nil in Hfar. }
  simpl. destruct (load_page doc pno) as [pg|] eqn:Hload; [|done]. simpl.
  rewrite (Hmiss pno pg) by (done || by left).
  apply IH.
  - apply elem_of_cons in Hfar as [->|Hfar]; [|by exists far].
    by rewrite load_page_past_end in Hload.
  - intros pno' pg' Hin. apply Hmiss. by right.
Qed.

Lemma first_hit_elem (doc : list Page) (token : pystr) (pnos : list Z)
    (hit : Z * Page * BBox) :
  first_hit doc token pnos = Some hit -> hit.1.1 ∈ pnos.
Proof.
  unfold first_hit.
  intros (pno & Hpno & Hhit)%head_Some_elem_of%list_elem_of_omap.
  destruct (doc !! Z.to_nat pno) as [pg|]; [|done]. simpl in Hhit.
  destruct (head (search_for pg token)) as [r|]; [|done].
  injection Hhit as <-. done.
Qed.

(** X13: the soft miss ends where the document ends.  When the page
    range reaches past the last page, a requested label that is found on
    none of the pages before makes [extract_equation_images] raise, at
    the first page that does not exist: nothing is returned, not even
    the snapshots of the other labels. *)
Theorem extract_equation_images_past_end
    (save_pixmap : Page -> BBox -> Z -> SnapshotPath -> option unit)
    (doc : list Page) (equation_numbers : list Z) (pages_1based : Z * Z)
    (dpi : Z) (eq : Z) :
  pages_1based.1 - 1 < pages_1based.2 ->
  len doc < pages_1based.2 ->
  eq ∈ equation_numbers ->
  (forall pno pg,
     pno ∈ py_range (pages_1based.1 - 1) pages_1based.2 ->
     load_page doc pno = Some pg -> search_for pg (token_of eq) = []) ->
  extract_equation_images save_pixmap doc equation_numbers pages_1based dpi
  = None.
Proof.
  intros Hrange Hpast Heq Hmiss. unfold extract_equation_images.
  apply (for_each_raises _ _ _ eq Heq). intros st.
  unfold locate_equation. rewrite search_pages_past_end; [done| |done].
  exists (Z.max (pages_1based.1 - 1) (len doc)). split; [|lia].
  apply elem_of_py_range. lia.
Qed.

Lemma extract_equation_images_past_end_witness :
  (36, 39).1 - 1 < (36, 39).2
  /\ len sample_doc < (36, 39).2
  /\ 7 ∈ [7]
  /\ extract_equation_images (fun _ _ _ _ => Some ()) sample_doc [7]
       (36, 39) 220 = None.
Proof.
  assert (H1 : (36, 39).1 - 1 < (36, 39).2) by (simpl; lia).
  assert (H2 : len sample_doc < (36, 39).2) by (unfold len; simpl; lia).
  assert (H3 : 7 ∈ [7]) by (by left).
  split; [exact H1|]. split; [exact H2|]. split; [exact H3|].
  apply (extract_equation_images_past_end _ _ _ _ _ 7 H1 H2 H3).
  intros pno pg Hpno%elem_of_py_range Hload. unfold load_page in Hload.
  destruct (Z.ltb_spec pno (len sample_doc)) as [Hlt|]; [|done].
  unfold len in Hlt. simpl in Hpno, Hlt. lia.
Defined.

Lemma extract_mapping
    (save_pixmap : Page -> BBox -> Z -> SnapshotPath -> option unit)
    (doc : list Page) (eqs : list Z) (pages_1based : Z * Z) (dpi : Z)
    (m : gmap Z SnapshotPath) :
  1 <= pages_1based.1 -> pages_1based.2 <= len doc ->
  extract_equation_images save_pixmap doc eqs pages_1based dpi = Some m ->
  mapping_of doc pages_1based eqs m.
Proof.
  intros Hlo Hhi Hrun.
  apply (extract_loop save_pixmap doc pages_1based dpi eqs [] ∅ m Hlo Hhi);
    [|done].
  intros eq. by rewrite lookup_empty, decide_False by apply not_elem_of_nil.
Qed.

(** X14: for a page range inside the document, every entry of the
    mapping returned by [extract_equation_images] belongs to a requested
    label, and its file name carries that label and a page of the range.
    The mapping depends on which labels are requested only: their order
    and their repetitions change nothing. *)
Theorem extract_equation_images_entries
    (save_pixmap : Page -> BBox -> Z -> SnapshotPath -> option unit)
    (doc : list Page) (equation_numbers : list Z) (pages_1based : Z * Z)
    (dpi : Z) (eq_to_path : gmap Z SnapshotPath) :
  1 <= pages_1based.1 -> pages_1based.2 <= len doc ->
  extract_equation_images save_pixmap doc equation_numbers pages_1based dpi
  = Some eq_to_path ->
  (forall eq path,
     eq_to_path !! eq = Some path ->
     eq ∈ equation_numbers
     /\ snap_eq path = eq
     /\ pages_1based.1 <= snap_page path <= pages_1based.2)
  /\ (forall others eq_to_path',
        (forall eq, eq ∈ others <-> eq ∈ equation_numbers) ->
        extract_equation_images save_pixmap doc others pages_1based dpi
        = Some eq_to_path' ->
        eq_to_path' = eq_to_path).
Proof.
  intros Hlo Hhi Hrun.
  pose proof (extract_mapping _ _ _ _ _ _ Hlo Hhi Hrun) as Hmap.
  split.
  - intros eq path Hpath. rewrite Hmap in Hpath.
    destruct (decide (eq ∈ equation_numbers)) as [Hin|]; [|done].
    split; [done|].
    destruct (first_hit _ _ _) as [hit|] eqn:Hhit; [|done].
    injection Hpath as <-. split; [done|]. simpl.
    apply first_hit_elem, elem_of_py_range in Hhit. lia.
  - intros others eq_to_path' Hsame Hrun'.
    pose proof (extract_mapping _ _ _ _ _ _ Hlo Hhi Hrun') as Hmap'.
    apply map_eq. intros eq. rewrite Hmap, Hmap'.
    destruct (decide (eq ∈ others)) as [Hin|Hout];
      destruct (decide (eq ∈ equation_numbers)) as [Hin'|Hout'];
      try done; by apply Hsame in Hin || by apply Hsame in Hin'.
Qed.

Lemma extract_equation_images_entries_witness :
  1 <= (1, 2).1 /\ (1, 2).2 <= len sample_doc
  /\ extract_equation_images (fun _ _ _ _ => Some ()) sample_doc [7; 42]
       (1, 2) 220
     = Some {[ 7 := {| snap_eq := 7; snap_page := 2 |} ]}
  /\ (forall eq path,
        ({[ 7 := {| snap_eq := 7; snap_page := 2 |} ]} : gmap Z SnapshotPath)
          !! eq = Some path ->
        eq ∈ [7; 42]
        /\ snap_eq path = eq
        /\ (1, 2).1 <= snap_page path <= (1, 2).2)
  /\ (forall others eq_to_path',
        (forall eq, eq ∈ others <-> eq ∈ [7; 42]) ->
        extract_equation_images (fun _ _ _ _ => Some ()) sample_doc others
          (1, 2) 220 = Some eq_to_path' ->
        eq_to_path' = {[ 7 := {| snap_eq := 7; snap_page := 2 |} ]}).
Proof.
  assert (Hlo : 1 <= (1, 2).1) by (simpl; lia).
  assert (Hhi : (1, 2).2 <= len sample_doc) by (unfold len; simpl; lia).
  assert (Hrun : extract_equation_images (fun _ _ _ _ => Some ()) sample_doc
                   [7; 42] (1, 2) 220
                 = Some {[ 7 := {| snap_eq := 7; snap_page := 2 |} ]})
    by (by vm_compute).
  split; [exact Hlo|]. split; [exact Hhi|]. split; [exact Hrun|].
  exact (extract_equation_images_entries _ _ _ _ _ _ Hlo Hhi Hrun).
Defined.

(** ** Reading the JSON export *)

Section QuickstartFacts.

Variable float : Type.
Variable float_of_int : Z -> option float.
Variable float_of_str : pystr -> option float.
Variable is_zero : float -> bool.
Variable truediv : float -> float -> float.
Variable f1000 : float.

Abbreviation value := (value float).
Abbreviation py_float := (py_float float float_of_int float_of_str).
Abbreviation fill_quickstart :=
  (fill_quickstart float float_of_int float_of_str truediv f1000).
Abbreviation _load_inputs_from_webapp_json :=
  (_load_inputs_from_webapp_json float float_of_int float_of_str is_zero).
Abbreviation fill_quickstart_excel :=
  (fill_quickstart_excel float float_of_int float_of_str is_zero truediv f1000).
Abbreviation read_inputs :=
  (read_inputs float float_of_int float_of_str truediv f1000).
Abbreviation float_at := (float_at float float_of_int float_of_str).

Implicit Types (payload v : value) (d m : gmap pystr value) (k : pystr).

Lemma returned_bind {A B} (r : result A) (f : A -> result B) :
  returned (r ≫= f) = returned r ≫= (fun a => returned (f a)).
Proof. by destruct r. Qed.

Lemma returned_get_float d k :
  returned (dict_get (VDict d) k VNone ≫= py_float) = float_at d k.
Proof.
  unfold float_at, dict_get. simpl.
  destruct (d !! k) as [v|]; simpl; [by destruct (py_float v) | done].
Qed.

Lemma returned_subscript_float d k :
  returned (subscript (VDict d) k ≫= py_float) = float_at d k.
Proof.
  unfold float_at, subscript. simpl.
  destruct (d !! k) as [v|]; simpl; [by destruct (py_float v) | done].
Qed.

Ltac outcome_cases :=
  unfold mbind, result_bind, mret, result_ret, option_bind;
  cbv beta iota delta [from_option id returned];
  repeat (case_match; simplify_eq/=; try done).

Lemma fill_quickstart_returned m d :
  m !! lit "inputs" = Some (VDict d) ->
  returned (fill_quickstart (VDict m)) = read_inputs d.
Proof.
  intros Hm. unfold fill_quickstart, read_inputs, float_at, dict_get.
  unfold mbind at 1. unfold result_bind at 1. rewrite Hm.
  cbv beta iota delta [from_option id].
  outcome_cases.
Qed.

Lemma fill_quickstart_raises payload :
  (forall m d, payload = VDict m -> m !! lit "inputs" <> Some (VDict d)) ->
  returned (fill_quickstart payload) = None.
Proof.
  intros Hno. unfold fill_quickstart, dict_get.
  destruct payload as [| | | | | |m]; try done.
  destruct (m !! lit "inputs") as [v|] eqn:Hm.
  - destruct v as [| | | | | |d]; try done. by destruct (Hno m d).
  - unfold mbind, result_bind. cbv beta iota delta [from_option id].
    by rewrite !lookup_empty.
Qed.

Lemma truthy_dict d : truthy float is_zero (VDict d) = false -> d = ∅.
Proof.
  simpl. destruct (map_to_list d) eqn:Hd; [|done].
  intros _. by apply map_to_list_empty_iff.
Qed.

Lemma load_inputs_returned m d :
  m !! lit "inputs" = Some (VDict d) ->
  returned (_load_inputs_from_webapp_json (VDict m))
  = (vin_nom ← float_at d (lit "vinNom");
     vin_min ← match d !! lit "vinMin" with
               | Some _ => float_at d (lit "vinMin")
               | None => Some vin_nom
               end;
     vin_max ← float_at d (lit "vinMax");
     vout ← float_at d (lit "vout");
     iout ← float_at d (lit "iout");
     fsw ← float_at d (lit "fsw");
     Some {| vin_min_v := vin_min; vin_nom_v := vin_nom;
             vin_max_v := vin_max; vout_v := vout; iout_a := iout;
             fsw_hz := fsw |}).
Proof.
  intros Hm. unfold _load_inputs_from_webapp_json, dict_get.
  unfold mbind at 1. unfold result_bind at 1. rewrite Hm.
  cbv beta iota delta [from_option id].
  destruct (truthy float is_zero (VDict d)) eqn:Htruthy.
  - unfold float_at, subscript. outcome_cases.
  - apply truthy_dict in Htruthy as ->.
    unfold float_at, subscript.
    unfold mbind, result_bind, option_bind.
    by rewrite !lookup_empty.
Qed.

Lemma load_inputs_raises payload :
  (forall m d, payload = VDict m -> m !! lit "inputs" <> Some (VDict d)) ->
  returned (_load_inputs_from_webapp_json payload) = None.
Proof.
  intros Hno. unfold _load_inputs_from_webapp_json, dict_get.
  destruct payload as [| | | | | |m]; try done.
  unfold mbind at 1. unfold result_bind at 1.
  destruct (m !! lit "inputs") as [v|] eqn:Hm;
    cbv beta iota delta [from_option id].
  - destruct v as [| | | | | |d]; try (by destruct (Hno m d));
      (destruct (truthy _ _ _); unfold subscript, mbind, result_bind;
       [done | by rewrite lookup_empty]).
  - simpl truthy. cbv iota. unfold subscript, mbind, result_bind.
    by rewrite lookup_empty.
Qed.

Lemma returned_Some {A} (r : result A) (a : A) :
  returned r = Some a <-> r = Return a.
Proof. destruct r; simpl; split; congruence. Qed.

Lemma inputs_dict_dec payload :
  (exists m d, payload = VDict m /\ m !! lit "inputs" = Some (VDict d))
  \/ (forall m d, payload = VDict m -> m !! lit "inputs" <> Some (VDict d)).
Proof.
  destruct payload as [| | | | | |m]; try (by right).
  destruct (m !! lit "inputs") as [[| | | | | |d]|] eqn:Hm;
    try (right; intros m' d' [= <-]; congruence).
  left. by exists m, d.
Qed.

Lemma read_inputs_cells d cells :
  read_inputs d = Some cells ->
  exists vin_min vin_nom vin_max vout iout fsw,
    cells = cell_values vin_min vin_nom vin_max vout iout (truediv fsw f1000)
    /\ float_at d (lit "vinNom") = Some vin_nom
    /\ float_at d (lit "vinMax") = Some vin_max
    /\ float_at d (lit "vout") = Some vout
    /\ float_at d (lit "iout") = Some iout
    /\ float_at d (lit "fsw") = Some fsw
    /\ (is_Some (d !! lit "vinMin") ->
        float_at d (lit "vinMin") = Some vin_min)
    /\ (d !! lit "vinMin" = None -> vin_min = vin_nom).
Proof.
  unfold read_inputs. intros Hread.
  destruct (float_at d (lit "vinNom")) as [vin_nom|]; [|done].
  simpl in Hread.
  destruct (match d !! lit "vinMin" with
            | Some _ => float_at d (lit "vinMin")
            | None => Some vin_nom
            end) as [vin_min|] eqn:Hmin; [|done].
  simpl in Hread.
  destruct (float_at d (lit "vinMax")) as [vin_max|]; [|done].
  simpl in Hread.
  destruct (float_at d (lit "vout")) as [vout|]; [|done].
  simpl in Hread.
  destruct (float_at d (lit "iout")) as [iout|]; [|done].
  simpl in Hread.
  destruct (float_at d (lit "fsw")) as [fsw|]; [|done].
  simpl in Hread. injection Hread as <-.
  exists vin_min, vin_nom, vin_max, vout, iout, fsw.
  repeat (split; [done|]).
  destruct (d !! lit "vinMin"); split; try done;
    try (by intros [? [=]]); intros _; congruence.
Qed.

(** X15: the two fillers read a JSON export alike.  Whatever the file
    holds, [fill_quickstart_excel] (with pywin32 and a template that is
    no lock file) and [fill_quickstart] either both raise or set the six
    cells to the same values; and the check of [load_payload] rejects no
    file that [fill_quickstart] would have taken. *)
Theorem quickstart_fillers_agree payload (template_name : pystr) :
  startswith template_name (lit "~$") = false ->
  returned (fill_quickstart_excel true template_name payload)
  = returned (fill_quickstart payload)
  /\ returned (load_payload payload ≫= fill_quickstart)
     = returned (fill_quickstart payload).
Proof.
  intros Hname. unfold fill_quickstart_excel. rewrite Hname.
  cbv beta iota delta [negb]. rewrite !returned_bind.
  destruct (inputs_dict_dec payload) as [(m & d & -> & Hm)|Hno].
  - rewrite (load_inputs_returned m d Hm), (fill_quickstart_returned m d Hm).
    split.
    + unfold read_inputs.
      destruct (float_at d (lit "vinNom")) as [vin_nom|]; [|done]. simpl.
      destruct (match d !! lit "vinMin" with
                | Some _ => float_at d (lit "vinMin")
                | None => Some vin_nom
                end) as [vin_min|]; [|done]. simpl.
      destruct (float_at d (lit "vinMax")) as [vin_max|]; [|done]. simpl.
      destruct (float_at d (lit "vout")) as [vout|]; [|done]. simpl.
      destruct (float_at d (lit "iout")) as [iout|]; [|done]. simpl.
      by destruct (float_at d (lit "fsw")) as [fsw|].
    + unfold load_payload. rewrite bool_decide_eq_false_2 by congruence.
      simpl. by rewrite (fill_quickstart_returned m d Hm).
  - rewrite load_inputs_raises, fill_quickstart_raises by done.
    split; [done|].
    destruct (returned (load_payload payload)) as [p|] eqn:Hload; [|done].
    simpl. apply returned_Some in Hload.
    assert (p = payload) as ->.
    { unfold load_payload in Hload.
      destruct payload; try done. case_bool_decide; congruence. }
    by apply fill_quickstart_raises.
Qed.

(** X16: [fill_quickstart] returns exactly when the file holds a dict
    whose "inputs" is a dict in which "vinNom", "vinMax", "vout", "iout"
    and "fsw" are present with values [float] takes, and "vinMin" is
    absent or has such a value.  It then sets E6 to E11, in this order,
    to the minimum, nominal and maximum input voltage, the output
    voltage, the output current and the frequency divided by 1000; an
    absent "vinMin" is given the nominal voltage. *)
Theorem fill_quickstart_reads payload (cells : list (pystr * float)) :
  fill_quickstart payload = Return cells
  <-> exists m d vin_min vin_nom vin_max vout iout fsw,
        payload = VDict m
        /\ m !! lit "inputs" = Some (VDict d)
        /\ cells = [ (lit "E6", vin_min); (lit "E7", vin_nom);
                     (lit "E8", vin_max); (lit "E9", vout);
                     (lit "E10", iout); (lit "E11", truediv fsw f1000) ]
        /\ float_at d (lit "vinNom") = Some vin_nom
        /\ float_at d (lit "vinMax") = Some vin_max
        /\ float_at d (lit "vout") = Some vout
        /\ float_at d (lit "iout") = Some iout
        /\ float_at d (lit "fsw") = Some fsw
        /\ match d !! lit "vinMin" with
           | Some _ => float_at d (lit "vinMin") = Some vin_min
           | None => vin_min = vin_nom
           end.
Proof.
  rewrite <- returned_Some. split.
  - intros Hret.
    destruct (inputs_dict_dec payload) as [(m & d & -> & Hm)|Hno];
      [|by rewrite fill_quickstart_raises in Hret].
    rewrite (fill_quickstart_returned m d Hm) in Hret.
    apply read_inputs_cells in Hret
      as (vin_min & vin_nom & vin_max & vout & iout & fsw & -> & Hnom
          & Hmax & Hvout & Hiout & Hfsw & Hmin & Hdefault).
    exists m, d, vin_min, vin_nom, vin_max, vout, iout, fsw.
    repeat (split; [done|]).
    destruct (d !! lit "vinMin"); [by apply Hmin | by apply Hdefault].
  - intros (m & d & vin_min & vin_nom & vin_max & vout & iout & fsw & ->
            & Hm & -> & Hnom & Hmax & Hvout & Hiout & Hfsw & Hmin).
    rewrite (fill_quickstart_returned m d Hm). unfold read_inputs.
    rewrite Hnom. simpl.
    destruct (d !! lit "vinMin");
      [rewrite Hmin | rewrite Hmin]; simpl;
      by rewrite Hmax, Hvout, Hiout, Hfsw.
Qed.

(** X17: what is typed into the web application reaches the cells.
    On the payload that [lm5148_streamlit_app.py] builds from its six
    numbers, both fillers return, whatever the results beside them, and
    set E6 to E10 to the numbers as entered and E11 to the frequency
    divided by 1000. *)
Theorem webapp_payload_read_back
    (vin_min vin_nom vin_max vout iout fsw : float) (results : value) :
  _load_inputs_from_webapp_json
    (webapp_payload vin_min vin_nom vin_max vout iout fsw results)
  = Return {| vin_min_v := vin_min; vin_nom_v := vin_nom;
              vin_max_v := vin_max; vout_v := vout; iout_a := iout;
              fsw_hz := fsw |}
  /\ fill_quickstart
       (webapp_payload vin_min vin_nom vin_max vout iout fsw results)
     = Return [ (lit "E6", vin_min); (lit "E7", vin_nom);
                (lit "E8", vin_max); (lit "E9", vout); (lit "E10", iout);
                (lit "E11", truediv fsw f1000) ]
  /\ (forall template_name : pystr,
        startswith template_name (lit "~$") = false ->
        fill_quickstart_excel true template_name
          (webapp_payload vin_min vin_nom vin_max vout iout fsw results)
        = Return [ (lit "E6", vin_min); (lit "E7", vin_nom);
                   (lit "E8", vin_max); (lit "E9", vout); (lit "E10", iout);
                   (lit "E11", truediv fsw f1000) ]).
Proof.
  assert (Hload :
    _load_inputs_from_webapp_json
      (webapp_payload vin_min vin_nom vin_max vout iout fsw results)
    = Return {| vin_min_v := vin_min; vin_nom_v := vin_nom;
                vin_max_v := vin_max; vout_v := vout; iout_a := iout;
                fsw_hz := fsw |}) by (by vm_compute).
  split; [done|]. split; [by vm_compute|].
  intros template_name Hname. unfold fill_quickstart_excel.
  by rewrite Hname, Hload.
Qed.

End QuickstartFacts.

Lemma quickstart_fillers_agree_witness :
  startswith (lit "quickstart.xlsm") (lit "~$") = false
  /\ returned (fill_quickstart_excel Qc sample_float_of_int
                 sample_float_of_str (fun x => bool_decide (x = 0%Qc))
                 Qcdiv (flt 1000 1) true (lit "quickstart.xlsm")
                 sample_payload)
     = returned (fill_quickstart Qc sample_float_of_int sample_float_of_str
                   Qcdiv (flt 1000 1) sample_payload)
  /\ returned (load_payload sample_payload
               ≫= fill_quickstart Qc sample_float_of_int sample_float_of_str
                    Qcdiv (flt 1000 1))
     = returned (fill_quickstart Qc sample_float_of_int sample_float_of_str
                   Qcdiv (flt 1000 1) sample_payload).
Proof.
  assert (Hname : startswith (lit "quickstart.xlsm") (lit "~$") = false)
    by (by vm_compute).
  split; [exact Hname|].
  exact (quickstart_fillers_agree Qc sample_float_of_int sample_float_of_str
           (fun x => bool_decide (x = 0%Qc)) Qcdiv (flt 1000 1)
           sample_payload (lit "quickstart.xlsm") Hname).
Defined.

(** ** The results workbook *)

Lemma str_lt_asym (s t : pystr) : str_lt s t = true -> str_lt t s = false.
Proof.
  revert t. induction s as [|a s IH]; intros [|b t]; simpl; try done.
  destruct (N.ltb_spec a b), (N.ltb_spec b a); try done; try lia.
  apply IH.
Qed.

Lemma str_le_trans (s t u : pystr) :
  str_lt t s = false -> str_lt u t = false -> str_lt u s = false.
Proof.
  revert t u. induction s as [|a s IH]; intros [|b t] [|c u]; simpl;
    try done.
  destruct (N.ltb_spec b a), (N.ltb_spec a b), (N.ltb_spec c b),
    (N.ltb_spec b c), (N.ltb_spec c a), (N.ltb_spec a c);
    try done; try lia.
  apply IH.
Qed.

Lemma str_lt_total (s t : pystr) :
  str_lt s t = false -> str_lt t s = false -> s = t.
Proof.
  revert t. induction s as [|a s IH]; intros [|b t]; simpl; try done.
  destruct (N.ltb_spec a b), (N.ltb_spec b a); try done.
  intros Hst Hts. f_equal; [lia | by apply IH].
Qed.

Section SortedKeys.

Context {V : Type}.

Implicit Types (d : gmap pystr V) (k : pystr).

Lemma sorted_keys_perm d : sorted_keys d ≡ₚ (map_to_list d).*1.
Proof. apply py_sorted_perm. Qed.

Lemma sorted_keys_elem d k : k ∈ sorted_keys d <-> is_Some (d !! k).
Proof.
  rewrite sorted_keys_perm, list_elem_of_fmap. split.
  - intros ([k' v] & -> & Hkv%elem_of_map_to_list). by exists v.
  - intros [v Hv]. exists (k, v). split; [done|].
    by apply elem_of_map_to_list.
Qed.

Lemma sorted_keys_NoDup d : NoDup (sorted_keys d).
Proof. rewrite sorted_keys_perm. apply NoDup_fst_map_to_list. Qed.

Lemma sorted_keys_length d : length (sorted_keys d) = size d.
Proof.
  rewrite sorted_keys_perm, length_fmap. apply length_map_to_list.
Qed.

Lemma sorted_keys_increasing d :
  StronglySorted (fun s t => str_lt s t = true) (sorted_keys d).
Proof.
  pose proof (sorted_keys_NoDup d) as Hnodup.
  pose proof (py_sorted_sorted str_lt id str_lt_asym str_le_trans
                (map_to_list d).*1) as Hsorted.
  fold (sorted_keys d) in Hsorted.
  induction Hsorted as [|s l Hl IH Hs]; [constructor|].
  apply NoDup_cons in Hnodup as [Hfresh Hnodup].
  constructor; [by apply IH|].
  apply Forall_forall. intros t Ht.
  rewrite Forall_forall in Hs. specialize (Hs t Ht).
  unfold in_order in Hs. simpl in Hs.
  destruct (str_lt s t) eqn:Hst; [done|].
  assert (s = t) as -> by (by apply str_lt_total). done.
Qed.

End SortedKeys.

Section ReportFacts.

Variable float : Type.
Variable float_of_int : Z -> option float.
Variable float_of_str : pystr -> option float.
Variable py_str : value float -> pystr.
Variable refused : float -> bool.
Variable write_raises : pystr -> bool.
Variable close_raises : list (ws_call float) -> bool.

Abbreviation write_entry :=
  (write_entry float float_of_int float_of_str py_str refused write_raises).
Abbreviation build_results_xlsx_bytes :=
  (build_results_xlsx_bytes float float_of_int float_of_str py_str refused
     write_raises close_raises).
Abbreviation value_call :=
  (value_call float float_of_int float_of_str py_str refused write_raises).
Abbreviation entry_calls :=
  (entry_calls float float_of_int float_of_str py_str refused write_raises).
Abbreviation section_calls :=
  (section_calls float float_of_int float_of_str py_str refused write_raises).

Implicit Types (d inputs results : gmap pystr (value float)) (k : pystr)
  (calls : list (ws_call float)).

Lemma write_entry_returned d (row : Z) calls k :
  returned (write_entry d (row, calls) k)
  = (new ← entry_calls d row k; Some (row + 1, calls ++ new)).
Proof.
  unfold write_entry, entry_calls, value_call, write_string.
  destruct (d !! k) as [v|]; [|done]. simpl.
  destruct (write_raises k); [done|]. simpl.
  destruct (is_number v); simpl.
  - destruct (py_float _ _ _ v) as [x|]; [|done]. simpl.
    destruct (refused x); [done|]. simpl. by rewrite <- app_assoc.
  - destruct (write_raises (py_str v)); [done|]. simpl.
    by rewrite <- app_assoc.
Qed.

Lemma write_entries_returned d (row : Z) calls (ks : list pystr) :
  returned (for_each_result (write_entry d) (row, calls) ks)
  = (new ← mjoin <$> mapM (fun numbered : Z * pystr =>
                             entry_calls d numbered.1 numbered.2)
                       (enumerate row ks);
     Some (row + len ks, calls ++ new)).
Proof.
  revert row calls. induction ks as [|k ks IH]; intros row calls.
  { simpl. by rewrite Z.add_0_r, app_nil_r. }
  cbn [for_each_result enumerate]. rewrite returned_bind, write_entry_returned.
  cbn [mapM fst snd].
  destruct (entry_calls d row k) as [new|]; [|done]. simpl.
  rewrite IH.
  destruct (mapM _ (enumerate (row + 1) ks)) as [rest|]; [|done]. simpl.
  rewrite <- app_assoc.
  replace (row + len (k :: ks)) with (row + 1 + len ks); [done|].
  unfold len. simpl length. lia.
Qed.

(** What xlsxwriter has to take of a value. *)
Lemma value_call_is_Some (row : Z) (v : value float) :
  is_Some (value_call row v)
  <-> if is_number v
      then exists x, py_float float float_of_int float_of_str v = Return x
                     /\ refused x = false
      else write_raises (py_str v) = false.
Proof.
  unfold value_call. destruct (is_number v).
  - destruct (py_float _ _ _ v) as [x|e]; simpl.
    + destruct (refused x) eqn:Hx; split.
      * by intros [? [=]].
      * intros (x' & [= <-] & Hx'). congruence.
      * intros _. by exists x.
      * by eexists.
    + split; [by intros [? [=]] | by intros (x' & [=] & _)].
  - destruct (write_raises (py_str v)).
    + split; [by intros [? [=]] | done].
    + split; [done | by eexists].
Qed.

Lemma section_calls_is_Some d (first : Z) :
  is_Some (section_calls d first)
  <-> forall k v,
        d !! k = Some v ->
        write_raises k = false
        /\ if is_number v
           then exists x, py_float float float_of_int float_of_str v = Return x
                          /\ refused x = false
           else write_raises (py_str v) = false.
Proof.
  unfold section_calls. rewrite fmap_is_Some, mapM_is_Some, Forall_forall.
  split.
  - intros Hall k v Hk.
    assert (Hin : k ∈ sorted_keys d) by (by apply sorted_keys_elem).
    apply (enumerate_elem first) in Hin as [row Hin].
    specialize (Hall _ Hin). unfold compose, entry_calls in Hall.
    simpl in Hall. rewrite Hk in Hall. simpl in Hall.
    destruct (write_raises k); [by destruct Hall|]. split; [done|].
    apply (value_call_is_Some row).
    destruct (value_call row v); [by eexists | by destruct Hall].
  - intros Hall [row k] Hin. unfold compose, entry_calls. simpl.
    assert (Hk : k ∈ sorted_keys d)
      by (apply (enumerate_elem first); by exists row).
    apply sorted_keys_elem in Hk as [v Hv]. rewrite Hv. simpl.
    destruct (Hall k v Hv) as [-> Hvalue].
    destruct (proj2 (value_call_is_Some row v) Hvalue) as [c ->].
    by eexists.
Qed.

Lemma build_results_returned inputs results :
  returned (build_results_xlsx_bytes inputs results)
  = (if write_raises (lit "Inputs") then None else
     rows_in ← section_calls inputs 1;
     if write_raises (lit "Results") then None else
     rows_res ← section_calls results (Z.of_nat (size inputs) + 3);
     if close_raises
          (workbook_calls (Z.of_nat (size inputs)) rows_in rows_res)
     then None
     else Some (workbook_calls (Z.of_nat (size inputs)) rows_in rows_res)).
Proof.
  unfold build_results_xlsx_bytes, section_calls, write_string. cbv zeta.
  destruct (write_raises (lit "Inputs")); [done|].
  rewrite returned_bind. cbn [returned mbind option_bind].
  rewrite returned_bind, write_entries_returned.
  destruct (mapM _ (enumerate (0 + 1) (sorted_keys inputs))) as [rows_in|];
    [|done].
  cbn [fmap option_fmap option_map mbind option_bind].
  destruct (write_raises (lit "Results")); [done|].
  rewrite returned_bind. cbn [returned mbind option_bind].
  rewrite returned_bind, write_entries_returned.
  unfold len. rewrite sorted_keys_length.
  replace (0 + 1 + Z.of_nat (size inputs) + 1 + 1)
    with (Z.of_nat (size inputs) + 3) by lia.
  replace (0 + 1 + Z.of_nat (size inputs) + 1)
    with (Z.of_nat (size inputs) + 2) by lia.
  destruct (mapM _ (enumerate _ (sorted_keys results))) as [rows_res|];
    [|done].
  cbn [fmap option_fmap option_map mbind option_bind].
  unfold workbook_calls. simpl. rewrite <- !app_assoc. simpl.
  by destruct (close_raises _).
Qed.

End ReportFacts.

(** X18: the layout of the results workbook.  After the two column
    widths, row 0 holds the heading "Inputs"; the inputs follow from
    row 1 on, one row per key, in increasing order of the keys as
    strings, the key in column 0 and the value in column 1; one row is
    left empty, the next holds the heading "Results", in row n + 2 for
    n inputs, and the results follow from row n + 3 on in the same
    way.  A number is written as a number with the number format,
    anything else as its [str] without a format.  These are the calls
    of every run that returns; a run returns when xlsxwriter takes
    each of them and closes the workbook. *)
Theorem build_results_xlsx_bytes_layout
    (float : Type) (float_of_int : Z -> option float)
    (float_of_str : pystr -> option float) (py_str : value float -> pystr)
    (refused : float -> bool) (write_raises : pystr -> bool)
    (close_raises : list (ws_call float) -> bool)
    (inputs results : gmap pystr (value float)) :
  returned (build_results_xlsx_bytes float float_of_int float_of_str py_str
              refused write_raises close_raises inputs results)
  = (if write_raises (lit "Inputs") then None else
     rows_in ← section_calls float float_of_int float_of_str py_str refused
                 write_raises inputs 1;
     if write_raises (lit "Results") then None else
     rows_res ← section_calls float float_of_int float_of_str py_str refused
                  write_raises results (Z.of_nat (size inputs) + 3);
     let calls :=
       [ ws_set_column 0 0 28; ws_set_column 1 1 22;
         ws_write 0 0 (lit "Inputs") (Some header) ]
       ++ rows_in
       ++ [ ws_write (Z.of_nat (size inputs) + 2) 0 (lit "Results")
              (Some header) ]
       ++ rows_res in
     if close_raises calls then None else Some calls)
  /\ (forall d : gmap pystr (value float),
        StronglySorted (fun s t => str_lt s t = true) (sorted_keys d)
        /\ (forall k, k ∈ sorted_keys d <-> is_Some (d !! k))).
Proof.
  split; [apply build_results_returned|].
  intros d. split; [apply sorted_keys_increasing | apply sorted_keys_elem].
Qed.

(** X19: when [build_results_xlsx_bytes] returns.  It returns exactly
    when xlsxwriter takes the two headings, every key and the [str] of
    every value that is no number, [float] returns on every value that
    is an [int], a [bool] or a [float] and [ws.write_number] takes the
    result, and [wb.close()] takes the workbook.  So [float] is applied
    to numbers only, and a string, [None], a list or a dict among the
    values makes it raise only when xlsxwriter does not take its
    [str]. *)
Theorem build_results_xlsx_bytes_returns
    (float : Type) (float_of_int : Z -> option float)
    (float_of_str : pystr -> option float) (py_str : value float -> pystr)
    (refused : float -> bool) (write_raises : pystr -> bool)
    (close_raises : list (ws_call float) -> bool)
    (inputs results : gmap pystr (value float)) :
  is_Some (returned (build_results_xlsx_bytes float float_of_int float_of_str
                       py_str refused write_raises close_raises inputs
                       results))
  <-> write_raises (lit "Inputs") = false
      /\ write_raises (lit "Results") = false
      /\ (forall k v,
            inputs !! k = Some v \/ results !! k = Some v ->
            write_raises k = false
            /\ if is_number v
               then exists x,
                      py_float float float_of_int float_of_str v = Return x
                      /\ refused x = false
               else write_raises (py_str v) = false)
      /\ (forall rows_in rows_res,
            section_calls float float_of_int float_of_str py_str refused
              write_raises inputs 1 = Some rows_in ->
            section_calls float float_of_int float_of_str py_str refused
              write_raises results (Z.of_nat (size inputs) + 3)
            = Some rows_res ->
            close_raises
              (workbook_calls (Z.of_nat (size inputs)) rows_in rows_res)
            = false).
Proof.
  rewrite build_results_returned.
  pose proof (section_calls_is_Some float float_of_int float_of_str py_str
                refused write_raises inputs 1) as Hin.
  pose proof (section_calls_is_Some float float_of_int float_of_str py_str
                refused write_raises results (Z.of_nat (size inputs) + 3))
    as Hres.
  destruct (write_raises (lit "Inputs")); [by split; [intros [? [=]] | intros [[=] _]]|].
  destruct (section_calls _ _ _ _ _ _ inputs 1) as [rows_in|]; simpl.
  2:{ split; [by intros [? [=]]|]. intros (_ & _ & Hall & _).
      assert (Hnone : is_Some (@None (list (ws_call float)))); [|by destruct Hnone].
      apply Hin. intros k v Hk. apply (Hall k). by left. }
  destruct (write_raises (lit "Results"));
    [by split; [intros [? [=]] | intros (_ & [=] & _)]|].
  destruct (section_calls _ _ _ _ _ _ results _) as [rows_res|]; simpl.
  2:{ split; [by intros [? [=]]|]. intros (_ & _ & Hall & _).
      assert (Hnone : is_Some (@None (list (ws_call float)))); [|by destruct Hnone].
      apply Hres. intros k v Hk. apply (Hall k). by right. }
  pose proof (proj1 Hin (mk_is_Some _ _ eq_refl)) as Hin'.
  pose proof (proj1 Hres (mk_is_Some _ _ eq_refl)) as Hres'.
  destruct (close_raises _) eqn:Hclose; split.
  - by intros [? [=]].
  - intros (_ & _ & _ & Hcl). by rewrite (Hcl _ _ eq_refl eq_refl) in Hclose.
  - intros _. split; [done|]. split; [done|]. split.
    + intros k v [Hk|Hk]; [by apply (Hin' k) | by apply (Hres' k)].
    + by intros ? ? [= <-] [= <-].
  - by eexists.
Qed.

(** ** The worksheet of [write_excel] *)

Lemma this_float_of_Z (n : Z) : (this (float_of_Z n) == inject_Z n)%Q.
Proof. unfold float_of_Z. simpl. apply Qred_correct. Qed.

Lemma py_int_float_of_Z (n : Z) : py_int (float_of_Z n) = n.
Proof.
  unfold py_int. case_bool_decide.
  - rewrite (Qceiling_comp _ _ (this_float_of_Z n)). apply Qceiling_Z.
  - rewrite (Qfloor_comp _ _ (this_float_of_Z n)). apply Qfloor_Z.
Qed.

(** The width has been set to 240 when the height is scaled: the
    factor is 1. *)
Lemma scaled_height (h : Z) :
  py_int (float_of_Z h * (float_of_Z 240 / float_of_Z (Z.max 1 240)))%Qc = h.
Proof.
  replace (float_of_Z 240 / float_of_Z (Z.max 1 240))%Qc with 1%Qc
    by (by apply Qc_is_canon).
  by rewrite Qcmult_1_r, py_int_float_of_Z.
Qed.

Lemma three_quarters (h : Z) :
  py_int (float_of_Z h * flt 3 4)%Qc = Z.quot (3 * h) 4.
Proof.
  assert (Hthis : (this (float_of_Z h * flt 3 4)%Qc == (h * 3 # 4))%Q).
  { simpl. rewrite Qred_correct.
    change (Qred (3 # 4)) with (3 # 4)%Q.
    rewrite (Qred_correct (inject_Z h)).
    unfold Qeq, Qmult, inject_Z. simpl. lia. }
  unfold py_int. case_bool_decide as Hneg.
  - rewrite (Qceiling_comp _ _ Hthis). unfold Qceiling, Qfloor, Qopp. simpl.
    assert (h < 0).
    { unfold Qclt in Hneg. rewrite Hthis in Hneg.
      unfold Qlt in Hneg. simpl in Hneg. lia. }
    replace (3 * h) with (- (- (h * 3))) by lia.
    rewrite Z.quot_opp_l by done.
    rewrite Z.quot_div_nonneg by lia. done.
  - rewrite (Qfloor_comp _ _ Hthis). unfold Qfloor.
    assert (0 <= h).
    { unfold Qclt in Hneg. rewrite Hthis in Hneg.
      unfold Qlt in Hneg. simpl in Hneg. lia. }
    rewrite Z.quot_div_nonneg by lia. f_equal. lia.
Qed.

Section WriteExcelFacts.

Variable XLImage : ImagePath -> option (Z * Z).
Variable illegal : pystr -> bool.

Lemma embed_image_row_ops (i : Z) (eq : EquationItem) :
  [ xl_cell i 1 (CInt (eq_id eq)); xl_cell i 2 (CInt (page eq));
    xl_cell i 3 (CStr (text eq)); xl_cell i 4 (CStr (context eq)) ]
  ++ embed_image XLImage i eq
  = row_ops XLImage i eq.
Proof.
  unfold row_ops, embed_image. f_equal.
  destruct (XLImage (image_path eq)) as [[w h]|]; [|done].
  cbv zeta. by rewrite scaled_height, three_quarters.
Qed.

Lemma write_row_returned (ops : list sheet_op) (i : Z) (eq : EquationItem) :
  returned (write_row XLImage illegal ops (i, eq))
  = if legal_item illegal eq then Some (ops ++ row_ops XLImage i eq)
    else None.
Proof.
  unfold write_row, legal_item. rewrite <- embed_image_row_ops.
  destruct (illegal (text eq)); [done|].
  destruct (illegal (context eq)); [done|]. simpl.
  by rewrite <- !app_assoc.
Qed.

Lemma write_rows_returned (ops : list sheet_op)
    (rows : list (Z * EquationItem)) :
  returned (for_each_result (write_row XLImage illegal) ops rows)
  = if forallb (legal_item illegal) rows.*2
    then Some (ops ++ mjoin ((fun numbered : Z * EquationItem =>
                                row_ops XLImage numbered.1 numbered.2)
                             <$> rows))
    else None.
Proof.
  revert ops. induction rows as [|[i eq] rows IH]; intros ops.
  { simpl. by rewrite app_nil_r. }
  cbn [for_each_result]. rewrite returned_bind, write_row_returned.
  cbn [fmap list_fmap forallb snd].
  destruct (legal_item illegal eq); [|done]. simpl. rewrite IH.
  destruct (forallb _ _); [|done]. by rewrite <- app_assoc.
Qed.

End WriteExcelFacts.

Lemma first_seen_items_rows (start : Z) (candidates : list Candidate) :
  enumerate (start + 1) (first_seen_items start candidates)
  = (fun eq => (eq_id eq + 1, eq)) <$> first_seen_items start candidates.
Proof.
  unfold first_seen_items.
  generalize (first_occurrences candidate_key candidates) as l.
  intros l. revert start. induction l as [|[[[p t] bb] ctx] l IH]; intros start;
    [done|].
  cbn [enumerate fmap list_fmap]. f_equal. apply IH.
Qed.

(** X20: the worksheet of [write_excel].  After the title, the header
    and the column widths, the equation at position i of the list,
    counted from 0, fills the row i + 2: its identifier, page, text and
    context in the columns 1 to 4 and, if its picture can be loaded,
    the picture at the column E of that row.  The picture gets the
    width 240 and keeps its height, since the width has been replaced
    when the height is scaled; the row gets three quarters of that
    height, 15 at least.  A picture that cannot be loaded is left out
    and raises nothing; a text or a context that openpyxl refuses makes
    [write_excel] raise. *)
Theorem write_excel_layout (XLImage : ImagePath -> option (Z * Z))
    (illegal : pystr -> bool) (equations : list EquationItem) :
  returned (write_excel XLImage illegal equations)
  = if forallb (legal_item illegal) equations
    then Some ([ xl_title (lit "Equations");
                 xl_append [ lit "ID"; lit "Page"; lit "Equation (extracted)";
                          lit "Context"; lit "Snapshot" ];
                 xl_column_width (lit "A") 6; xl_column_width (lit "B") 7;
                 xl_column_width (lit "C") 60; xl_column_width (lit "D") 60;
                 xl_column_width (lit "E") 24 ]
               ++ mjoin ((fun numbered : Z * EquationItem =>
                            row_ops XLImage numbered.1 numbered.2)
                         <$> enumerate 2 equations)
               ++ [ xl_freeze_panes (lit "A2");
                    xl_auto_filter (lit "E") (1 + len equations) ])
    else None.
Proof.
  unfold write_excel. cbv zeta.
  rewrite returned_bind, write_rows_returned, enumerate_snd.
  by destruct (forallb _ _).
Qed.

(** X21: the worksheet of a run.  [main] hands its items to
    [write_excel]; as they are numbered from 1 without a gap, the item
    with the identifier n fills the row n + 1, and its picture is
    anchored there. *)
Theorem main_write_excel_rows (nd_beyond_ascii : N -> bool)
    (render_crop : Page -> BBox -> Qc -> ImagePath -> option unit)
    (XLImage : ImagePath -> option (Z * Z)) (illegal : pystr -> bool)
    (args : Args) (doc : list Page) (items : list EquationItem) :
  main nd_beyond_ascii render_crop args doc = Some items ->
  returned (write_excel XLImage illegal items)
  = if forallb (legal_item illegal) items
    then Some ([ xl_title (lit "Equations");
                 xl_append [ lit "ID"; lit "Page"; lit "Equation (extracted)";
                          lit "Context"; lit "Snapshot" ];
                 xl_column_width (lit "A") 6; xl_column_width (lit "B") 7;
                 xl_column_width (lit "C") 60; xl_column_width (lit "D") 60;
                 xl_column_width (lit "E") 24 ]
               ++ mjoin ((fun eq => row_ops XLImage (eq_id eq + 1) eq)
                         <$> items)
               ++ [ xl_freeze_panes (lit "A2");
                    xl_auto_filter (lit "E") (1 + len items) ])
    else None.
Proof.
  intros (candidates & _ & _ & ->)%main_first_seen.
  unfold write_excel. cbv zeta.
  rewrite returned_bind, write_rows_returned, enumerate_snd.
  change (enumerate 2) with (enumerate (A:=EquationItem) (1 + 1)).
  rewrite first_seen_items_rows, <- list_fmap_compose.
  by destruct (forallb _ _).
Qed.

Lemma main_write_excel_rows_witness :
  main (fun _ => false) (fun _ _ _ _ => Some ()) sample_args sample_pages
  = Some sample_items
  /\ returned (write_excel sample_XLImage (fun _ => false) sample_items)
     = if forallb (legal_item (fun _ => false)) sample_items
       then Some ([ xl_title (lit "Equations");
                    xl_append [ lit "ID"; lit "Page";
                                lit "Equation (extracted)";
                                lit "Context"; lit "Snapshot" ];
                    xl_column_width (lit "A") 6; xl_column_width (lit "B") 7;
                    xl_column_width (lit "C") 60;
                    xl_column_width (lit "D") 60;
                    xl_column_width (lit "E") 24 ]
                  ++ mjoin ((fun eq => row_ops sample_XLImage (eq_id eq + 1) eq)
                            <$> sample_items)
                  ++ [ xl_freeze_panes (lit "A2");
                       xl_auto_filter (lit "E") (1 + len sample_items) ])
       else None.
Proof.
  split; [exact main_sample_items|].
  exact (main_write_excel_rows _ _ sample_XLImage (fun _ => false) _ _ _
           main_sample_items).
Defined.
